(** * The iFlow package chunker of [Injection pipeline/app.py]

    A shallow embedding of [EnhancedIFlowChunker]: file discovery, the
    script index, the extraction of component, flow, process and
    sub-process chunks from the parsed [.iflw] document, the processing of
    the auxiliary files and the coverage report; of what
    [EmbeddingGenerator] and [IFlowPackageProcessor] compute from the
    chunks without the database: the end of [generate_description], the
    second formatter, [classify_chunk_type] and the values
    [ensure_package], [process_components] and [process_flows] read off a
    chunk; then the properties of the decomposition.

    - A Python string is the [string] of the bytes of its UTF-8
      encoding; [len] counts characters, not bytes, and [str.strip]
      removes the white space of Unicode.  The case mappings of Unicode
      behind [str.lower] are the class [Str.CaseMapping], of which only
      the folding of the ASCII range is known.
    - The element tree of [lxml] is the inductive type [Xml.node]; a tag is
      the string lxml shows, in Clark notation ([{uri}local]).  An element
      the program holds is a node with its position in the document
      ([Xml.elem]), which is what [getparent] needs.
    - The package is a directory tree ([Fs.dir]); a path keeps the base
      directory, the directories below it and the file name apart.
    - A call that may raise returns an [option]; [None] stands for the
      exception, which the handlers of the program turn into a skipped
      component, a shortened list or an empty result.  Logging is left
      out.
    - An XPath expression built by interpolating a value selects by
      attribute equality when the value has no double quote; otherwise the
      expression is another one and its result is left to the library.
    - The coverage percentages are exact rationals.
    - What the program obtains from libraries (the XML parser and
      serialiser, [hashlib], [re], some string methods) is gathered in
      the record [Library] and never inspected; the description service
      is the parameter [embedding_generator] of a run, and the completion
      service behind it the parameter [chat] of [generate_description]. *)

From Stdlib Require Import String Ascii List Arith NArith Lia Bool QArith.
From stdpp Require Import base option list gmap strings.
Import ListNotations.
Local Open Scope string_scope.
Local Open Scope nat_scope.
Local Open Scope list_scope.
Set Warnings "-register-all,-clear-no-such-hyp".

(** ** Strings *)

Module Str.

Definition dquote : string := String (ascii_of_nat 34) EmptyString.
Definition newline : string := String (ascii_of_nat 10) EmptyString.

(** A Python string is held as the bytes of its UTF-8 encoding: a byte
    below 128 is a character of the ASCII range, a byte of the form
    [10xxxxxx] continues a character and any other byte starts one. *)
Definition is_ascii_char (c : ascii) : bool := nat_of_ascii c <? 128.

Definition continues (c : ascii) : bool :=
  (128 <=? nat_of_ascii c) && (nat_of_ascii c <? 192).

Fixpoint is_ascii (s : string) : bool :=
  match s with
  | EmptyString => true
  | String c s' => is_ascii_char c && is_ascii s'
  end.

(** [len(s)]: the number of characters *)
Fixpoint len (s : string) : nat :=
  match s with
  | EmptyString => 0
  | String c s' => if continues c then len s' else S (len s')
  end.

Definition is_upper (c : ascii) : bool :=
  (65 <=? nat_of_ascii c) && (nat_of_ascii c <=? 90).

Definition lower_char (c : ascii) : ascii :=
  if is_upper c then ascii_of_nat (nat_of_ascii c + 32) else c.

(** The folding of the letters A to Z. *)
Fixpoint ascii_lower (s : string) : string :=
  match s with
  | EmptyString => EmptyString
  | String c s' => String (lower_char c) (ascii_lower s')
  end.

(** [s.lower()].  Python lowers a string by the case mappings of the
    Unicode character database, which are not spelled out here: [lower]
    is any function that, on a string of the ASCII range, folds the
    letters A to Z and leaves the rest, as those mappings do. *)
Class CaseMapping := {
  lower : string -> string;
  lower_ascii : forall s, is_ascii s = true -> lower s = ascii_lower s
}.

(** [s.startswith(p)] *)
Fixpoint startswith (p s : string) : bool :=
  match p, s with
  | EmptyString, _ => true
  | String a p', String b s' => if Ascii.eqb a b then startswith p' s' else false
  | String _ _, EmptyString => false
  end.

(** [p in s] *)
Fixpoint contains (p s : string) : bool :=
  if startswith p s then true
  else match s with
       | EmptyString => false
       | String _ s' => contains p s'
       end.

(** [s.endswith(p)] *)
Fixpoint endswith (p s : string) : bool :=
  if String.eqb s p then true
  else match s with
       | EmptyString => false
       | String _ s' => endswith p s'
       end.

(** truth value of a string *)
Definition truthy (s : string) : bool :=
  match s with EmptyString => false | String _ _ => true end.

(** truth value of [el.get(name)], [None] being false *)
Definition truthy_opt (o : option string) : bool :=
  match o with Some s => truthy s | None => false end.

(** [o or d] for an optional string *)
Definition or_default (o : option string) (d : string) : string :=
  match o with
  | Some s => if truthy s then s else d
  | None => d
  end.

(** [s.rfind(c)] *)
Fixpoint rfind (c : ascii) (s : string) : option nat :=
  match s with
  | EmptyString => None
  | String a s' =>
      match rfind c s' with
      | Some i => Some (S i)
      | None => if Ascii.eqb a c then Some 0 else None
      end
  end.

(** The white space of [str.isspace] in the ASCII range: the space,
    U+0009 to U+000D and U+001C to U+001F. *)
Definition is_space (c : ascii) : bool :=
  let n := nat_of_ascii c in
  (n =? 32) || ((9 <=? n) && (n <=? 13)) || ((28 <=? n) && (n <=? 31)).

(** The white space beyond it, by the bytes of the encoding: U+0085 and
    U+00A0 take two bytes; U+1680, U+2000 to U+200A, U+2028, U+2029,
    U+202F, U+205F and U+3000 take three. *)
Definition is_space2 (a b : ascii) : bool :=
  (nat_of_ascii a =? 194)
  && ((nat_of_ascii b =? 133) || (nat_of_ascii b =? 160)).

Definition is_space3 (a b c : ascii) : bool :=
  let x := nat_of_ascii a in
  let y := nat_of_ascii b in
  let z := nat_of_ascii c in
  ((x =? 225) && (y =? 154) && (z =? 128))
  || ((x =? 226) && (y =? 128)
      && (((128 <=? z) && (z <=? 138)) || (z =? 168) || (z =? 169) || (z =? 175)))
  || ((x =? 226) && (y =? 129) && (z =? 159))
  || ((x =? 227) && (y =? 128) && (z =? 128)).

(** Whether the string is one white-space character. *)
Definition is_space_char (s : string) : bool :=
  match s with
  | String a EmptyString => is_space a
  | String a (String b EmptyString) => is_space2 a b
  | String a (String b (String c EmptyString)) => is_space3 a b c
  | _ => false
  end.

(** [s.lstrip()] *)
Fixpoint lstrip (s : string) : string :=
  match s with
  | EmptyString => EmptyString
  | String a s1 =>
      if is_space a then lstrip s1
      else
        match s1 with
        | EmptyString => s
        | String b s2 =>
            if is_space2 a b then lstrip s2
            else
              match s2 with
              | EmptyString => s
              | String c s3 => if is_space3 a b c then lstrip s3 else s
              end
        end
  end.

(** [s.rstrip()]: what is left of the tail, with the character put back
    in front, is dropped when it is one white-space character. *)
Fixpoint rstrip (s : string) : string :=
  match s with
  | EmptyString => EmptyString
  | String c s' =>
      let r := String c (rstrip s') in
      if is_space_char r then EmptyString else r
  end.

(** [s.strip()] *)
Definition strip (s : string) : string := rstrip (lstrip s).

(** [sep.join(parts)] *)
Fixpoint join (sep : string) (parts : list string) : string :=
  match parts with
  | [] => EmptyString
  | [p] => p
  | p :: rest => p +:+ sep +:+ join sep rest
  end.

(** [s * n] *)
Fixpoint repeat (s : string) (n : nat) : string :=
  match n with
  | O => EmptyString
  | S n' => s +:+ repeat s n'
  end.

(** [s.split(c)] for a one-character separator *)
Fixpoint split (c : ascii) (s : string) : list string :=
  match s with
  | EmptyString => [EmptyString]
  | String a s' =>
      if Ascii.eqb a c then EmptyString :: split c s'
      else match split c s' with
           | [] => [String a EmptyString]
           | w :: ws => String a w :: ws
           end
  end.

(** [any(p in s for p in patterns)] *)
Definition contains_any (patterns : list string) (s : string) : bool :=
  existsb (fun p => contains p s) patterns.

(** [x in xs] on a list of strings *)
Definition mem (x : string) (xs : list string) : bool :=
  existsb (String.eqb x) xs.

End Str.

(** ** [pathlib] *)

Module PyPath.

(** [PurePath.suffix] of a final component *)
Definition suffix_of_name (name : string) : string :=
  match Str.rfind "." name with
  | Some i =>
      if (0 <? i) && (i <? String.length name - 1)
      then String.substring i (String.length name - i) name
      else EmptyString
  | None => EmptyString
  end.

(** [PurePath.stem] of a final component *)
Definition stem_of_name (name : string) : string :=
  match Str.rfind "." name with
  | Some i =>
      if (0 <? i) && (i <? String.length name - 1)
      then String.substring 0 i name
      else name
  | None => name
  end.

(** [Path(s).name] of a POSIX path string: the last component that is
    neither empty nor a single dot *)
Definition name (s : string) : string :=
  List.last
    (List.filter (fun p => Str.truthy p && negb (String.eqb p "."))
                 (Str.split "/" s))
    EmptyString.

Definition stem (s : string) : string := stem_of_name (name s).

End PyPath.

(** ** The package on disk *)

Module Fs.

(** A regular file: its name, what [os.path.getsize] gives ([None]: it
    raises [OSError]) and what reading it as UTF-8 text gives ([None]:
    [open] or [read] raises). *)
Record file := File {
  f_name : string;
  f_size : option N;
  f_text : option string
}.

(** A directory: its files and its named sub-directories, in the order
    [os.walk] lists them. *)
Inductive dir :=
| Dir (files : list file) (subdirs : list (string * dir)).

(** A file path as [os.path.join(root, file)] builds it during the walk:
    the base path of the chunker, the directories below it, the file
    name.  Directory entries contain no separator, so two such paths are
    equal as strings exactly when their three parts are. *)
Record path := Path {
  p_base : string;
  p_dirs : list string;
  p_name : string
}.

#[global] Instance path_eq_dec : EqDecision path.
Proof. solve_decision. Defined.

(** [os.path.relpath(p, self.base_path)] *)
Definition relpath (p : path) : string :=
  Str.join "/" (p_dirs p ++ [p_name p]).

(** [os.walk(self.base_path)] with the pruning of [__pycache__]
    ([dirs[:] = [d for d in dirs if d != '__pycache__']]): every visited
    file with its path, top-down. *)
Fixpoint walk (base : string) (dirs : list string) (d : dir)
  : list (path * file) :=
  match d with
  | Dir files subdirs =>
      List.map (fun f => (Path base dirs (f_name f), f)) files ++
      List.flat_map
        (fun nd => if String.eqb (fst nd) "__pycache__" then []
                   else walk base (dirs ++ [fst nd]) (snd nd))
        subdirs
  end.

(** Whether, in every directory, the files have pairwise distinct names
    and so have the sub-directories, as a file system has it. *)
Fixpoint distinct_names (d : dir) : bool :=
  match d with
  | Dir files subdirs =>
      bool_decide (NoDup (List.map f_name files))
      && bool_decide (NoDup (List.map fst subdirs))
      && forallb (fun nd => distinct_names (snd nd)) subdirs
  end.

(** The file a path of the walk denotes. *)
Fixpoint lookup (listing : list (path * file)) (p : path) : option file :=
  match listing with
  | [] => None
  | (q, f) :: rest => if decide (q = p) then Some f else lookup rest p
  end.

Definition getsize (listing : list (path * file)) (p : path) : option N :=
  match lookup listing p with Some f => f_size f | None => None end.

Definition read_text (listing : list (path * file)) (p : path) : option string :=
  match lookup listing p with Some f => f_text f | None => None end.

End Fs.

(** ** The element tree *)

Module Xml.

(** What [lxml] hands out: elements, and comments or processing
    instructions, whose [tag] is not a string.  [text] is the text before
    the first child, [tail] the text after the node. *)
Inductive node :=
| Element (tag : string) (attrib : list (string * string))
          (text : option string) (tail : option string)
          (children : list node)
| Comment (text : string) (tail : option string).

Definition is_element (n : node) : bool :=
  match n with Element _ _ _ _ _ => true | Comment _ _ => false end.

Definition tag (n : node) : string :=
  match n with Element t _ _ _ _ => t | Comment _ _ => EmptyString end.

Definition text (n : node) : option string :=
  match n with Element _ _ t _ _ => t | Comment t _ => Some t end.

Definition tail (n : node) : option string :=
  match n with Element _ _ _ t _ => t | Comment _ t => t end.

Definition children (n : node) : list node :=
  match n with Element _ _ _ _ cs => cs | Comment _ _ => [] end.

Fixpoint assoc (k : string) (l : list (string * string)) : option string :=
  match l with
  | [] => None
  | (k', v) :: rest => if String.eqb k' k then Some v else assoc k rest
  end.

(** [el.get(name)] *)
Definition get (n : node) (name : string) : option string :=
  match n with
  | Element _ a _ _ _ => assoc name a
  | Comment _ _ => None
  end.

(** [el.get(name, '')] *)
Definition get_or_empty (n : node) (name : string) : string :=
  match get n name with Some v => v | None => EmptyString end.

(** [el.iter()]: the node and all its descendants, in document order *)
Fixpoint iter (n : node) : list node :=
  n :: match n with
       | Element _ _ _ _ cs => List.flat_map iter cs
       | Comment _ _ => []
       end.

(** The XPath string-value of a node: the concatenation of its text
    nodes. *)
Fixpoint string_value (n : node) : string :=
  match n with
  | Element _ _ t _ cs =>
      (match t with Some s => s | None => EmptyString end) +:+
      String.concat EmptyString
        (List.map (fun c => string_value c +:+
                     match tail c with Some s => s | None => EmptyString end)
                  cs)
  | Comment _ _ => EmptyString
  end.

(** [{uri}local] *)
Definition clark (uri local : string) : string :=
  "{" +:+ uri +:+ "}" +:+ local.

(** [tag.split('}')[-1] if '}' in tag else tag] *)
Definition local_name (t : string) : string :=
  List.last (Str.split "}" t) t.

(** [tag.split('}')[1]] when the tag has a brace, the tag otherwise
    ([_get_component_type]) *)
Definition second_piece (t : string) : string :=
  match Str.split "}" t with
  | _ :: p :: _ => p
  | _ => t
  end.

Definition has_tag (t : string) (n : node) : bool :=
  is_element n && String.eqb (tag n) t.

Definition attr_is (name value : string) (n : node) : bool :=
  match get n name with
  | Some v => String.eqb v value
  | None => false
  end.

(** Truth value of an element, as [lxml] defines it: whether it has a
    child node. *)
Definition truthy (n : node) : bool :=
  match children n with [] => false | _ :: _ => true end.

(** A node of a document, as the program holds it: the node together
    with its position, the child indices leading to it from the root.
    [getparent] needs the position. *)
Record elem := Elem { loc : list nat; nd : node }.

(** All nodes below and including [n], in document order, each with its
    position ([here] is the position of [n]). *)
Fixpoint locate (here : list nat) (n : node) : list elem :=
  Elem here n ::
  match n with
  | Element _ _ _ _ cs =>
      (fix go (i : nat) (l : list node) : list elem :=
         match l with
         | [] => []
         | c :: l' => locate (here ++ [i]) c ++ go (S i) l'
         end) 0 cs
  | Comment _ _ => []
  end.

(** The node at a position. *)
Fixpoint subtree (n : node) (p : list nat) : option node :=
  match p with
  | [] => Some n
  | i :: p' =>
      match nth_error (children n) i with
      | Some c => subtree c p'
      | None => None
      end
  end.

(** [//*] evaluated on the root element: every element of the
    document. *)
Definition xpath_all (root : node) : list elem :=
  List.filter (fun e => is_element (nd e)) (locate [] root).

(** [.//*] evaluated on the root element: every element but the root. *)
Definition xpath_below (root : node) : list elem :=
  List.filter (fun e => is_element (nd e)) (List.tl (locate [] root)).

(** [_find_owning_process_id]: climb from the parent of an element to the
    nearest ancestor whose local name is [process] and return its [id].
    The position of the element is given reversed, the last index
    first. *)
Fixpoint find_owning_process_id (root : node) (rev_loc : list nat)
  : option string :=
  match rev_loc with
  | [] => None
  | _ :: up =>
      match subtree root (List.rev up) with
      | Some parent =>
          if String.eqb (local_name (tag parent)) "process"
          then get parent "id"
          else find_owning_process_id root up
      | None => None
      end
  end.

End Xml.

(** ** Dictionaries from strings to strings

    A Python [dict] keeps its keys in insertion order; assigning to a key
    that is present replaces the value where it stands. *)

Module Dict.

Definition t := list (string * string).

(** [d[k] = v] *)
Fixpoint set (k v : string) (d : t) : t :=
  match d with
  | [] => [(k, v)]
  | (k', v') :: rest =>
      if String.eqb k' k then (k, v) :: rest else (k', v') :: set k v rest
  end.

(** [d.get(k)] *)
Definition get (k : string) (d : t) : option string := Xml.assoc k d.

End Dict.

(** ** What the libraries provide *)

Record Library := {
  (** [etree.fromstring(content.encode('utf-8'))]; [None]: it raises *)
  fromstring : string -> option Xml.node;
  (** [etree.tostring(el, encoding='unicode', pretty_print=True)] *)
  tostring : Xml.node -> string;
  (** [root.xpath(expr)] for an expression into which a value holding a
      double quote was interpolated, so that the quote ends the XPath
      literal early: the positions of the selected nodes, or [None] when
      the call, or the use the program makes of a result that is not a list
      of nodes, raises. *)
  xpath_other : string -> Xml.node -> option (list (list nat));
  (** [hashlib.sha256(s.encode()).hexdigest()] *)
  sha256_hexdigest : string -> string;
  (** [re.findall(pattern, s)], [re.sub(pattern, repl, s)],
      [re.split(pattern, s)] *)
  re_findall : string -> string -> list string;
  re_sub : string -> string -> string -> string;
  re_split : string -> string -> list string;
  (** [s.replace(old, new)], [s.title()], [str(d)] of a dictionary *)
  str_replace : string -> string -> string -> string;
  str_title : string -> string;
  dict_str : Dict.t -> string
}.

(** ** Chunks *)

(** An entry of [related_scripts]: an inline script, or a script file
    found in the index. *)
Inductive related_script :=
| InlineScript (content : string) (length : nat)
| FileScript (file_name : string) (chunk_id : string).

(** An entry of [sequence_flows]. *)
Record flow_data := FlowData {
  fd_id : option string;
  fd_sourceRef : option string;
  fd_targetRef : option string;
  fd_name : string
}.

(** A chunk is a Python dictionary; a key that a kind of chunk does not
    have is [None] here. *)
Record chunk := Chunk {
  id : string;
  file_name : string;
  file_type : string;
  component_id : option string;
  component_type : option string;
  activity_type : option string;
  content : option string;
  complete_bpmn_xml : option string;
  description : string;
  properties : option Dict.t;
  related_scripts : option (list related_script);
  unresolved_script_refs : option (list string);
  participant : option string;
  sequence_flows : option (list flow_data);
  connections : option (list string);
  participants : option (string * string);
  signature : string
}.

(** An entry of [self.script_index]. *)
Record script_entry := ScriptEntry {
  se_file_name : string;
  se_chunk_id : option string
}.

(** The keys of [all_files], in the order the dictionary is built. *)
Inductive category :=
| main_iflow | groovy_scripts | xsd_files | message_mappings | wsdl_files
| properties_files | xslt_files | json_files | manifest_files.

#[global] Instance category_eq_dec : EqDecision category.
Proof. solve_decision. Defined.

Definition all_categories : list category :=
  [main_iflow; groovy_scripts; xsd_files; message_mappings; wsdl_files;
   properties_files; xslt_files; json_files; manifest_files].

Definition category_name (c : category) : string :=
  match c with
  | main_iflow => "main_iflow"
  | groovy_scripts => "groovy_scripts"
  | xsd_files => "xsd_files"
  | message_mappings => "message_mappings"
  | wsdl_files => "wsdl_files"
  | properties_files => "properties_files"
  | xslt_files => "xslt_files"
  | json_files => "json_files"
  | manifest_files => "manifest_files"
  end.

(** [all_files]: the discovered paths of every category. *)
Definition all_files_t := category -> list Fs.path.

(** The result of [_verify_complete_coverage]. *)
Record breakdown := Breakdown {
  bd_total : nat;
  bd_processed : nat;
  bd_coverage : Q
}.

Record coverage_report := CoverageReport {
  total_files_discovered : nat;
  total_files_processed : nat;
  coverage_percentage : Q;
  file_type_breakdown : category -> breakdown;
  missing_files : list Fs.path
}.

(** The result of [process_complete_iflow_package]. *)
Record result := Result {
  total_chunks : nat;
  processed_files : nat;
  report : coverage_report;
  chunks : list chunk
}.


(** ** The chunker *)

Module Chunker.

Section WithCaseMapping.

Context {case_mapping : Str.CaseMapping}.

(** Sequential composition of steps that may raise. *)
Fixpoint fold_opt {A B : Type} (f : A -> B -> option A) (l : list B) (a : A)
  : option A :=
  match l with
  | [] => Some a
  | x :: l' =>
      match f a x with
      | Some a' => fold_opt f l' a'
      | None => None
      end
  end.

(** A loop that appends one result per item and is left at the first
    item that raises, keeping what was appended. *)
Fixpoint collect_until_error {A B : Type} (f : A -> option B) (l : list A)
  : list B :=
  match l with
  | [] => []
  | x :: l' =>
      match f x with
      | Some y => y :: collect_until_error f l'
      | None => []
      end
  end.

Definition MODEL : string := "http://www.omg.org/spec/BPMN/20100524/MODEL".
Definition DI : string := "http://www.omg.org/spec/BPMN/20100524/DI".
Definition IFL : string := "http:///com.sap.ifl.model/Ifl.xsd".

Definition namespaces : list (string * string) :=
  [("bpmn2", MODEL); ("bpmn", MODEL); ("bpmndi", DI); ("ifl", IFL)].

(** The tag a prefixed name of an XPath expression stands for. *)
Definition qname (prefix local : string) : string :=
  match Xml.assoc prefix namespaces with
  | Some uri => Xml.clark uri local
  | None => local
  end.

(** [root.xpath(f'//{ns}:{local}', namespaces=namespaces)], [scope]
    being the elements the axis reaches *)
Definition xpath_tag (scope : list Xml.elem) (ns local : string)
  : list Xml.elem :=
  List.filter (fun e => Xml.has_tag (qname ns local) (Xml.nd e)) scope.

(** ** File discovery *)

Definition exclude_patterns : list string :=
  ["_chunks.json"; ".env"; ".py"; ".md"; ".txt"; ".pyc"; "__pycache__"].

(** The body of the loop of [_discover_all_files] for one file: the
    bucket the file goes to, if any. *)
Definition classify (f : Fs.file) : option category :=
  let file := Fs.f_name f in
  if Str.contains_any exclude_patterns file then None
  else
    let file_ext := Str.lower (PyPath.suffix_of_name file) in
    if String.eqb file_ext ".iflw" then Some main_iflow
    else if Str.mem file_ext [".groovy"; ".gsh"] then Some groovy_scripts
    else if String.eqb file_ext ".xsd" then Some xsd_files
    else if String.eqb file_ext ".mmap" then Some message_mappings
    else if String.eqb file_ext ".wsdl" then Some wsdl_files
    else if Str.mem file_ext [".properties"; ".prop"; ".propdef"]
         then Some properties_files
    else if Str.mem file_ext [".xsl"; ".xslt"] then Some xslt_files
    else if String.eqb file_ext ".json" then
      match Fs.f_size f with
      | Some size => if (size <=? 10000)%N then Some json_files else None
      | None => None
      end
    else if String.eqb file "MANIFEST.MF" then Some manifest_files
    else None.

(** [all_files[c].append(p)] *)
Definition add_file (c : category) (p : Fs.path) (a : all_files_t)
  : all_files_t :=
  fun c' => if decide (c' = c) then a c' ++ [p] else a c'.

Definition discover_step (a : all_files_t) (pf : Fs.path * Fs.file)
  : all_files_t :=
  match classify pf.2 with
  | Some c => add_file c pf.1 a
  | None => a
  end.

Definition _discover_all_files (listing : list (Fs.path * Fs.file))
  : all_files_t :=
  fold_left discover_step listing (fun _ => []).

Definition _find_main_iflow (all_files : all_files_t) : option Fs.path :=
  List.head (all_files main_iflow).

(** ** The script index *)

Definition _index_script_file (key relative_path : string)
    (chunk_id : option string) (index : gmap string script_entry)
  : gmap string script_entry :=
  <[Str.lower key := ScriptEntry relative_path chunk_id]> index.

(** One turn of the loop of [_build_script_index]: the script is indexed
    under its name, then under its stem. *)
Definition index_step (idx : gmap string script_entry) (path : Fs.path)
  : gmap string script_entry :=
  let relative := Fs.relpath path in
  let name := Fs.p_name path in
  let base := PyPath.stem_of_name name in
  _index_script_file base relative None
    (_index_script_file name relative None idx).

Definition _build_script_index (all_files : all_files_t)
    (index : gmap string script_entry) : gmap string script_entry :=
  fold_left index_step (all_files groovy_scripts) index.

(** [_update_script_index_with_chunk] *)
Definition _update_script_index_with_chunk (c : chunk)
    (index : gmap string script_entry) : gmap string script_entry :=
  let name := PyPath.name (file_name c) in
  let base := PyPath.stem (file_name c) in
  fold_left
    (fun idx k => alter (fun e => ScriptEntry (se_file_name e) (Some (id c))) k idx)
    [Str.lower name; Str.lower base] index.

(** ** Properties and scripts of a component *)

Definition is_property_tag (t : string) : bool :=
  Str.endswith "}property" t || Str.contains "property" t.
Definition is_key_tag (t : string) : bool :=
  Str.endswith "}key" t || String.eqb t "key".
Definition is_value_tag (t : string) : bool :=
  Str.endswith "}value" t || String.eqb t "value".

(** [el.text if el.text else ''] *)
Definition text_or_empty (n : Xml.node) : string :=
  match Xml.text n with Some s => s | None => EmptyString end.

(** The inner loop [for subchild in child]: the last key and the last
    value child; [None] when a child is a comment, whose tag has no
    [endswith]. *)
Fixpoint scan_subchildren (cs : list Xml.node)
    (key_elem value_elem : option Xml.node)
  : option (option Xml.node * option Xml.node) :=
  match cs with
  | [] => Some (key_elem, value_elem)
  | Xml.Comment _ _ :: _ => None
  | (Xml.Element t _ _ _ _ as subchild) :: rest =>
      if is_key_tag t then scan_subchildren rest (Some subchild) value_elem
      else if is_value_tag t then scan_subchildren rest key_elem (Some subchild)
      else scan_subchildren rest key_elem value_elem
  end.

(** The key and value a node contributes, if it is a property element
    with a key child and a value child whose texts are not empty. *)
Definition property_pair (child : Xml.node) : option (option (string * string)) :=
  match child with
  | Xml.Comment _ _ => None
  | Xml.Element t _ _ _ cs =>
      if is_property_tag t then
        match scan_subchildren cs None None with
        | Some (Some key_elem, Some value_elem) =>
            let key := text_or_empty key_elem in
            let value := text_or_empty value_elem in
            if Str.truthy key && Str.truthy value
            then Some (Some (key, value)) else Some None
        | Some _ => Some None
        | None => None
        end
      else Some None
  end.

(** One turn of [for child in element.iter()]. *)
Definition harvest (properties : Dict.t) (child : Xml.node) : option Dict.t :=
  match property_pair child with
  | Some (Some (key, value)) => Some (Dict.set key value properties)
  | Some None => Some properties
  | None => None
  end.

(** [_extract_component_properties]; [None]: it raises. *)
Definition _extract_component_properties (element : Xml.node) : option Dict.t :=
  fold_opt harvest (Xml.iter element) [].

(** The key/value pairs of the property elements among the node and its
    descendants, in document order; [None] when the scan raises. *)
Definition collect_pair (pairs : list (string * string)) (child : Xml.node)
  : option (list (string * string)) :=
  match property_pair child with
  | Some (Some kv) => Some (pairs ++ [kv])
  | Some None => Some pairs
  | None => None
  end.

Definition property_pairs (element : Xml.node) : option (list (string * string)) :=
  fold_opt collect_pair (Xml.iter element) [].

(** The value of the earliest, and of the latest, pair with key [k]. *)
Definition first_match (k : string) (pairs : list (string * string))
  : option string := Xml.assoc k pairs.
Definition last_match (k : string) (pairs : list (string * string))
  : option string := Xml.assoc k (List.rev pairs).

(** [_extract_inline_scripts]: the loop returns what it has when a node
    raises. *)
Fixpoint inline_scripts_loop (nodes : list Xml.node)
    (related : list related_script) : list related_script :=
  match nodes with
  | [] => related
  | Xml.Comment _ _ :: _ => related
  | Xml.Element t _ _ _ _ as elem :: rest =>
      if String.eqb (Str.lower (Xml.local_name t)) "script" then
        let script_text := Str.strip (text_or_empty elem) in
        if Str.truthy script_text
        then inline_scripts_loop rest
               (related ++ [InlineScript script_text (Str.len script_text)])
        else inline_scripts_loop rest related
      else inline_scripts_loop rest related
  end.

Definition _extract_inline_scripts (component_element : Xml.node)
  : list related_script :=
  inline_scripts_loop (Xml.iter component_element) [].

(** [.//ifl:property[key="activityType"]/value], in document order:
    [parent_ok] tells whether the parent of [n] is a selected property. *)
Fixpoint activity_values (parent_ok : bool) (n : Xml.node) : list Xml.node :=
  match n with
  | Xml.Comment _ _ => []
  | Xml.Element t _ _ _ cs =>
      (if parent_ok && String.eqb t "value" then [n] else []) ++
      List.flat_map
        (activity_values
           (String.eqb t (Xml.clark IFL "property") &&
            existsb (fun c => Xml.has_tag "key" c &&
                              String.eqb (Xml.string_value c) "activityType") cs))
        cs
  end.

Definition _extract_activity_type (element : Xml.node) : string :=
  match List.flat_map (activity_values false) (Xml.children element) with
  | v :: _ =>
      match Xml.text v with
      | Some t => if Str.truthy t then Str.strip t else EmptyString
      | None => EmptyString
      end
  | [] => EmptyString
  end.

Definition _get_component_type (element : Xml.node) : string :=
  Xml.second_piece (Xml.tag element).

(** ** Script references *)

Definition script_hints : list string := ["script"; "groovy"; "gsh"].

Definition script_pattern : string := "[A-Za-z0-9_\-/]+\.(?:groovy|gsh)".

(** The candidates the properties contribute. *)
Definition property_candidates (properties : Dict.t) : list string :=
  List.flat_map
    (fun kv =>
       let val := Str.strip kv.2 in
       if Str.truthy val then
         if Str.endswith ".groovy" (Str.lower val)
            || Str.endswith ".gsh" (Str.lower val) then [val]
         else if existsb (fun h => Str.contains h (Str.lower kv.1)) script_hints
              then [val]
         else []
       else [])
    properties.

(** [self.script_index.get(lc) or self.script_index.get(stem)] *)
Definition lookup_script (index : gmap string script_entry) (lc : string)
  : option script_entry :=
  match index !! lc with
  | Some entry => Some entry
  | None => index !! PyPath.stem lc
  end.

Record resolution := Resolution {
  resolved : list related_script;
  unresolved : list string;
  seen : gset string
}.

(** The entry of [resolved] for a script found in the index. *)
Definition reported (entry : script_entry) : related_script :=
  FileScript (se_file_name entry) (Str.or_default (se_chunk_id entry) EmptyString).

(** One turn of the loop over the candidates. *)
Definition resolve_step (index : gmap string script_entry)
    (st : resolution) (cand : string) : resolution :=
  let lc := Str.lower cand in
  if bool_decide (lc ∈ seen st) then st
  else
    match lookup_script index lc with
    | Some entry =>
        Resolution (resolved st ++ [reported entry])
          (unresolved st) ({[lc]} ∪ seen st)
    | None =>
        Resolution (resolved st) (unresolved st ++ [cand]) ({[lc]} ∪ seen st)
    end.

Definition resolve_candidates (index : gmap string script_entry)
    (candidates : list string) : resolution :=
  fold_left (resolve_step index) candidates (Resolution [] [] ∅).

(** ** Notions the properties are stated with *)

(** The dictionary that assigning the pairs in turn builds. *)
Definition dict_of (pairs : list (string * string)) : Dict.t :=
  fold_left (fun d kv => Dict.set kv.1 kv.2 d) pairs [].

(** [flow.get('id')] for an element kept by a de-duplicating loop, which
    keeps only elements that have an id. *)
Definition id_of (e : Xml.elem) : string :=
  default EmptyString (Xml.get (Xml.nd e) "id").

(** What the de-duplicating loops maintain: the kept elements come from
    the elements offered, their ids are in the set of seen ids and
    pairwise distinct. *)
Definition kept_ok (P : Xml.elem → Prop) (st : list Xml.elem * gset string) : Prop :=
  Forall P st.1 ∧
  Forall (fun e => Xml.get (Xml.nd e) "id" = Some (id_of e) ∧ id_of e ∈ st.2) st.1 ∧
  NoDup (List.map id_of st.1).

(** A sequence flow of the document that leaves [component_id]. *)
Definition leaves (root : Xml.node) (component_id : string) (flow : Xml.elem) : Prop :=
  flow ∈ Xml.xpath_all root ∧
  Xml.tag (Xml.nd flow) = qname "bpmn2" "sequenceFlow" ∧
  Xml.get (Xml.nd flow) "sourceRef" = Some component_id.

(** What the loop over the candidates maintains. *)
Definition resolution_ok (index : gmap string script_entry) (st : resolution) : Prop :=
  (∀ u, u ∈ unresolved st → lookup_script index (Str.lower u) = None) ∧
  (∀ lc e, lc ∈ seen st → lookup_script index lc = Some e →
           reported e ∈ resolved st).

(** The sequence-flow elements of the document. *)
Definition sequence_flow_elements (root : Xml.node) : list Xml.elem :=
  xpath_tag (Xml.xpath_all root) "bpmn2" "sequenceFlow".

(** Whether sequence-flow elements that carry the same id, an id that is
    not empty, leave the same element; so it is when the ids are unique.
    Elements without an id are not compared. *)
Definition same_id_same_source (root : Xml.node) : bool :=
  forallb
    (fun f1 =>
       forallb
         (fun f2 =>
            match Xml.get (Xml.nd f1) "id", Xml.get (Xml.nd f2) "id" with
            | Some i1, Some i2 =>
                implb (Str.truthy i1 && String.eqb i1 i2)
                      (bool_decide (Xml.get (Xml.nd f1) "sourceRef"
                                    = Xml.get (Xml.nd f2) "sourceRef"))
            | _, _ => true
            end)
         (sequence_flow_elements root))
    (sequence_flow_elements root).

(** The ids the field [sequence_flows] of a chunk lists, and those its
    field [connections] lists. *)
Definition sequence_flow_ids (c : chunk) : list (option string) :=
  List.map fd_id (default [] (sequence_flows c)).

Definition connection_ids (c : chunk) : list string :=
  default [] (connections c).

(** The same path below another base directory. *)
Definition rebase (base : string) (p : Fs.path) : Fs.path :=
  Fs.Path base (Fs.p_dirs p) (Fs.p_name p).

Definition rebase_entry (base : string) (pf : Fs.path * Fs.file)
  : Fs.path * Fs.file :=
  (rebase base pf.1, pf.2).

(** What two runs are compared on. *)
Definition id_and_signature (c : chunk) : string * string :=
  (id c, signature c).

(** All discovered paths, category after category. *)
Definition discovered (listing : list (Fs.path * Fs.file)) : list Fs.path :=
  List.flat_map (_discover_all_files listing) all_categories.

(** ** Extraction from the parsed document *)

Section WithLibrary.

Variable lib : Library.

(** [self.embedding_generator]: [None] when its construction failed. *)
Variable embedding_generator : option (string -> string -> string).

(** [hashlib.sha256(s.encode()).hexdigest()[:16]] *)
Definition signature_of (s : string) : string :=
  String.substring 0 16 (sha256_hexdigest lib s).

(** [f"{Path(iflow_file).stem}_{suffix}"] *)
Definition chunk_id (file : Fs.path) (suffix : string) : string :=
  PyPath.stem_of_name (Fs.p_name file) +:+ "_" +:+ suffix.

Definition resolve_positions (root : Xml.node) (ps : list (list nat))
  : list Xml.elem :=
  omap (fun p => match Xml.subtree root p with
                 | Some n => Some (Xml.Elem p n)
                 | None => None
                 end) ps.

(** [root.xpath(f'{head}[@{attr}="{value}"]', namespaces=namespaces)],
    [sel] being the node test of [head].  Without a double quote in
    [value] the predicate compares the attribute with [value]. *)
Definition xpath_where (root : Xml.node) (head : string)
    (sel : Xml.node -> bool) (attr value : string)
  : option (list Xml.elem) :=
  if Str.contains Str.dquote value then
    match xpath_other lib
            (head +:+ "[@" +:+ attr +:+ "=" +:+ Str.dquote +:+ value
                  +:+ Str.dquote +:+ "]") root with
    | Some ps => Some (resolve_positions root ps)
    | None => None
    end
  else
    Some (List.filter
            (fun e => sel (Xml.nd e) && Xml.attr_is attr value (Xml.nd e))
            (Xml.xpath_all root)).

Definition _create_full_iflow_chunk (iflow_file : Fs.path) (full_xml : string)
  : chunk :=
  {| id := chunk_id iflow_file "full_xml";
     file_name := Fs.relpath iflow_file;
     file_type := "bpmn_full_xml";
     component_id := Some "full_xml";
     component_type := Some "bpmnDefinitions";
     activity_type := None;
     content := Some full_xml;
     complete_bpmn_xml := None;
     description := "Complete iFlow BPMN XML";
     properties := Some [];
     related_scripts := None;
     unresolved_script_refs := None;
     participant := None;
     sequence_flows := None;
     connections := Some [];
     participants := None;
     signature := signature_of full_xml |}.

(** *** Component ids *)

Definition component_types : list string :=
  ["startEvent"; "endEvent"; "serviceTask"; "callActivity";
   "scriptTask"; "userTask"; "manualTask"; "receiveTask"; "sendTask";
   "exclusiveGateway"; "parallelGateway"; "inclusiveGateway";
   "eventBasedGateway"; "participant"; "boundaryEvent";
   "intermediateCatchEvent"; "intermediateThrowEvent"].

Definition model_aliases : list string := ["bpmn2"; "bpmn"].

Definition add_component_id (component_ids : list string) (element : Xml.elem)
  : list string :=
  match Xml.get (Xml.nd element) "id" with
  | Some component_id =>
      if Str.truthy component_id && negb (Str.mem component_id component_ids)
      then component_ids ++ [component_id]
      else component_ids
  | None => component_ids
  end.

Definition _extract_all_component_ids (root : Xml.node) : list string :=
  fold_left
    (fun ids component_type =>
       fold_left
         (fun ids ns =>
            fold_left add_component_id
              (xpath_tag (Xml.xpath_below root) ns component_type) ids)
         model_aliases ids)
    component_types [].

(** *** The elements of one component *)

Record component_elements := ComponentElements {
  main_component : option Xml.elem;
  outgoing_flows : list Xml.elem;
  bpmn_shapes : list Xml.elem;
  bpmn_edges : list Xml.elem
}.

(** Append the element unless it has no id or its id was seen. *)
Definition keep_new (st : list Xml.elem * gset string) (e : Xml.elem)
  : list Xml.elem * gset string :=
  match Xml.get (Xml.nd e) "id" with
  | Some i =>
      if Str.truthy i && negb (bool_decide (i ∈ st.2))
      then (st.1 ++ [e], {[i]} ∪ st.2)
      else st
  | None => st
  end.

Definition outgoing_step (root : Xml.node) (component_id : string)
    (st : list Xml.elem * gset string) (ns : string)
  : option (list Xml.elem * gset string) :=
  match xpath_where root ("//" +:+ ns +:+ ":sequenceFlow")
          (Xml.has_tag (qname ns "sequenceFlow")) "sourceRef" component_id with
  | Some outgoing => Some (fold_left keep_new outgoing st)
  | None => None
  end.

Definition edges_step (root : Xml.node)
    (st : list Xml.elem * gset string) (flow_id : option string)
  : option (list Xml.elem * gset string) :=
  if Str.truthy_opt flow_id then
    match xpath_where root "//bpmndi:BPMNEdge"
            (Xml.has_tag (qname "bpmndi" "BPMNEdge")) "bpmnElement"
            (default EmptyString flow_id) with
    | Some edges => Some (fold_left keep_new edges st)
    | None => None
    end
  else Some st.

(** [_extract_component_elements]; [None]: an XPath call raises. *)
Definition _extract_component_elements (component_id : string) (root : Xml.node)
  : option component_elements :=
  main ← xpath_where root "//*" (fun _ => true) "id" component_id;
  out ← fold_opt (outgoing_step root component_id) model_aliases ([], ∅);
  shapes ← xpath_where root "//bpmndi:BPMNShape"
             (Xml.has_tag (qname "bpmndi" "BPMNShape")) "bpmnElement" component_id;
  edges ← fold_opt (edges_step root)
             (List.map (fun flow => Xml.get (Xml.nd flow) "id") out.1) ([], ∅);
  Some {| main_component := List.head main;
          outgoing_flows := out.1;
          bpmn_shapes := (fold_left keep_new shapes ([], ∅)).1;
          bpmn_edges := edges.1 |}.

Definition _build_complete_component_xml (ce : component_elements) : string :=
  let outgoing_flow_ids :=
    List.map (fun flow => Xml.get (Xml.nd flow) "id") (outgoing_flows ce) in
  Str.join Str.newline
    (match main_component ce with
     | Some m => [tostring lib (Xml.nd m)]
     | None => []
     end ++
     List.map (fun flow => tostring lib (Xml.nd flow)) (outgoing_flows ce) ++
     List.map (fun shape => tostring lib (Xml.nd shape)) (bpmn_shapes ce) ++
     List.map (fun edge => tostring lib (Xml.nd edge))
       (List.filter
          (fun edge => bool_decide (Xml.get (Xml.nd edge) "bpmnElement"
                                      ∈ outgoing_flow_ids))
          (bpmn_edges ce))).

(** *** Ownership *)

Definition participant_step (m : gmap string string) (p : Xml.elem)
  : gmap string string :=
  match Xml.get (Xml.nd p) "processRef", Xml.get (Xml.nd p) "id" with
  | Some pref, Some pid =>
      if Str.truthy pref && Str.truthy pid && negb (bool_decide (pref ∈ dom m))
      then <[pref := pid]> m
      else m
  | _, _ => m
  end.

Definition _build_process_to_participant_map (root : Xml.node)
  : gmap string string :=
  fold_left
    (fun m ns =>
       fold_left participant_step (xpath_tag (Xml.xpath_all root) ns "participant") m)
    model_aliases ∅.

Definition _find_owning_process_id (root : Xml.node) (element : Xml.elem)
  : option string :=
  Xml.find_owning_process_id root (List.rev (Xml.loc element)).

Definition _resolve_participant_for_element (element : Xml.elem) (root : Xml.node)
  : option string :=
  match _find_owning_process_id root element with
  | Some proc_id =>
      if Str.truthy proc_id
      then _build_process_to_participant_map root !! proc_id
      else None
  | None => None
  end.

(** *** Component chunks *)

(** [_generate_component_description], for a main component that is
    present; [None]: the property scan raises. *)
Definition _generate_component_description (main : Xml.node) : option string :=
  let component_type := _get_component_type main in
  let component_name := Xml.get_or_empty main "name" in
  properties ← _extract_component_properties main;
  Some (Str.join " "
    ([str_title lib
        (str_replace lib (str_replace lib component_type "Event" " Event")
           "Task" " Task")] ++
     (if Str.truthy component_name then ["'" +:+ component_name +:+ "'"] else []) ++
     (match Dict.get "activityType" properties with
      | Some a => ["with activityType=" +:+ a]
      | None => []
      end) ++
     (match Dict.get "cmdVariantUri" properties with
      | Some variant =>
          if Str.contains "ErrorStartEvent" variant then ["for error handling"]
          else if Str.contains "Timer" variant then ["for scheduled execution"]
          else if Str.contains "HTTP" variant then ["for HTTP communication"]
          else []
      | None => []
      end))).

Definition flow_data_of (flow : Xml.elem) : flow_data :=
  {| fd_id := Xml.get (Xml.nd flow) "id";
     fd_sourceRef := Xml.get (Xml.nd flow) "sourceRef";
     fd_targetRef := Xml.get (Xml.nd flow) "targetRef";
     fd_name := Xml.get_or_empty (Xml.nd flow) "name" |}.

(** The list [candidates] of [_resolve_component_script_files]: the
    candidates of the properties, then the file names the pattern finds
    in the markup. *)
Definition script_candidates (properties : Dict.t) (component_xml : string)
  : list string :=
  property_candidates properties ++
  (if Str.truthy component_xml
   then re_findall lib script_pattern component_xml else []).

(** [_resolve_component_script_files] *)
Definition _resolve_component_script_files (index : gmap string script_entry)
    (properties : Dict.t) (component_xml : string)
  : list related_script * list string :=
  let candidates := script_candidates properties component_xml in
  let r := resolve_candidates index candidates in
  (resolved r, unresolved r).

(** [_create_component_chunk]; [None] both when it returns [None] and
    when the exception handler does. *)
Definition _create_component_chunk (index : gmap string script_entry)
    (component_id : string) (root : Xml.node) (iflow_file : Fs.path)
  : option chunk :=
  ce ← _extract_component_elements component_id root;
  main ← main_component ce;
  if negb (Xml.truthy (Xml.nd main)) then None
  else
    let complete_xml := _build_complete_component_xml ce in
    description ← _generate_component_description (Xml.nd main);
    properties ← _extract_component_properties (Xml.nd main);
    let related := _extract_inline_scripts (Xml.nd main) in
    let res := _resolve_component_script_files index properties complete_xml in
    let participant_id := _resolve_participant_for_element main root in
    Some
      {| id := chunk_id iflow_file component_id;
         file_name := Fs.relpath iflow_file;
         file_type := "bpmn";
         component_id := Some component_id;
         component_type := Some (_get_component_type (Xml.nd main));
         activity_type := Some (_extract_activity_type (Xml.nd main));
         content := None;
         complete_bpmn_xml := Some complete_xml;
         description := description;
         properties := Some properties;
         related_scripts := Some (related ++ res.1);
         unresolved_script_refs := Some res.2;
         participant := Some (Str.or_default participant_id EmptyString);
         sequence_flows := Some (List.map flow_data_of (outgoing_flows ce));
         connections := Some (List.map id_of (outgoing_flows ce));
         participants := None;
         signature := signature_of complete_xml |}.

(** *** Flow chunks *)

(** The map from element ids to the id of the owning process:
    [None] for an element outside every process. *)
Definition element_process_step (root : Xml.node)
    (m : gmap string (option string)) (el : Xml.elem)
  : gmap string (option string) :=
  match Xml.get (Xml.nd el) "id" with
  | Some el_id =>
      if Str.truthy el_id && negb (bool_decide (el_id ∈ dom m))
      then <[el_id := _find_owning_process_id root el]> m
      else m
  | None => m
  end.

Definition element_process_map (root : Xml.node) : gmap string (option string) :=
  fold_left (element_process_step root) (Xml.xpath_all root) ∅.

(** [process_to_participant.get(proc, '') if proc else ''] *)
Definition participant_of (root : Xml.node) (ref : string) : string :=
  match element_process_map root !! ref with
  | Some (Some proc) =>
      if Str.truthy proc
      then default EmptyString (_build_process_to_participant_map root !! proc)
      else EmptyString
  | _ => EmptyString
  end.

(** The markup of a flow and of its diagram edges. *)
Definition flow_content (flow : Xml.elem) (di_edges : list Xml.elem) : string :=
  Str.join Str.newline
    (tostring lib (Xml.nd flow) ::
     List.map (fun edge => tostring lib (Xml.nd edge)) di_edges).

(** One turn of the loop of [_extract_sequence_flows]; [None]: the
    XPath call for the diagram edges raises. *)
Definition sequence_flow_chunk (root : Xml.node) (iflow_file : Fs.path)
    (flow : Xml.elem) : option chunk :=
  let flow_id := Str.or_default (Xml.get (Xml.nd flow) "id") "sequenceFlow" in
  let src := Xml.get_or_empty (Xml.nd flow) "sourceRef" in
  let tgt := Xml.get_or_empty (Xml.nd flow) "targetRef" in
  let src_part := participant_of root src in
  let tgt_part := participant_of root tgt in
  di_edges ← xpath_where root "//bpmndi:BPMNEdge"
               (Xml.has_tag (qname "bpmndi" "BPMNEdge")) "bpmnElement" flow_id;
  let complete := flow_content flow di_edges in
  Some
    {| id := chunk_id iflow_file flow_id;
       file_name := Fs.relpath iflow_file;
       file_type := "bpmn_sequence_flow";
       component_id := Some flow_id;
       component_type := Some "sequenceFlow";
       activity_type := None;
       content := Some complete;
       complete_bpmn_xml := None;
       description :=
         "Sequence Flow " +:+ src +:+ "->" +:+ tgt +:+ " (participants: "
           +:+ (if Str.truthy src_part then src_part else "-") +:+ "â†’"
           +:+ (if Str.truthy tgt_part then tgt_part else "-") +:+ ")";
       properties := Some [];
       related_scripts := None;
       unresolved_script_refs := None;
       participant := None;
       sequence_flows := None;
       connections := Some [src; tgt];
       participants := Some (src_part, tgt_part);
       signature := signature_of complete |}.

(** [_extract_sequence_flows]: the two aliases are queried in turn and
    every element found is turned into a chunk. *)
Definition _extract_sequence_flows (root : Xml.node) (iflow_file : Fs.path)
  : list chunk :=
  collect_until_error (sequence_flow_chunk root iflow_file)
    (List.flat_map (fun ns => xpath_tag (Xml.xpath_all root) ns "sequenceFlow")
       model_aliases).

Definition message_flow_chunk (root : Xml.node) (iflow_file : Fs.path)
    (flow : Xml.elem) : option chunk :=
  let flow_id := Str.or_default (Xml.get (Xml.nd flow) "id") "messageFlow" in
  edges ← xpath_where root "//bpmndi:BPMNEdge"
            (Xml.has_tag (qname "bpmndi" "BPMNEdge")) "bpmnElement" flow_id;
  let complete := flow_content flow edges in
  Some
    {| id := chunk_id iflow_file flow_id;
       file_name := Fs.relpath iflow_file;
       file_type := "bpmn_message_flow";
       component_id := Some flow_id;
       component_type := Some "messageFlow";
       activity_type := None;
       content := Some complete;
       complete_bpmn_xml := None;
       description :=
         "Message Flow '" +:+ default flow_id (Xml.get (Xml.nd flow) "name") +:+ "'";
       properties := Some [];
       related_scripts := None;
       unresolved_script_refs := None;
       participant := None;
       sequence_flows := None;
       connections :=
         Some [Xml.get_or_empty (Xml.nd flow) "sourceRef";
               Xml.get_or_empty (Xml.nd flow) "targetRef"];
       participants := None;
       signature := signature_of complete |}.

Definition _extract_message_flows (root : Xml.node) (iflow_file : Fs.path)
  : list chunk :=
  collect_until_error (message_flow_chunk root iflow_file)
    (List.flat_map (fun ns => xpath_tag (Xml.xpath_all root) ns "messageFlow")
       model_aliases).

(** *** Process and sub-process chunks *)

Definition children_tagged (t : string) (n : Xml.node) : list Xml.node :=
  List.filter (Xml.has_tag t) (Xml.children n).

(** [prop.find('ifl:key', namespaces)], then [prop.find('key')] *)
Definition find_child (prop : Xml.node) (local : string) : option Xml.node :=
  match List.head (children_tagged (qname "ifl" local) prop) with
  | Some e => Some e
  | None => List.head (children_tagged local prop)
  end.

(** [./bpmn2:extensionElements/ifl:property], then
    [./extensionElements/property] when the first finds nothing *)
Definition direct_props (container : Xml.node) : list Xml.node :=
  match List.flat_map (children_tagged (qname "ifl" "property"))
          (children_tagged (qname "bpmn2" "extensionElements") container) with
  | [] => List.flat_map (children_tagged "property")
            (children_tagged "extensionElements" container)
  | found => found
  end.

Definition direct_property_step (properties : Dict.t) (prop : Xml.node) : Dict.t :=
  match find_child prop "key", find_child prop "value" with
  | Some key_elem, Some value_elem =>
      let key := text_or_empty key_elem in
      let value := text_or_empty value_elem in
      if Str.truthy key && Str.truthy value
      then Dict.set key value properties else properties
  | _, _ => properties
  end.

Definition direct_properties (container : Xml.node) : Dict.t :=
  fold_left direct_property_step (direct_props container) [].

(** [_format_xml_with_indentation] *)
Definition format_step (st : list string * nat) (element : string)
  : list string * nat :=
  if negb (Str.truthy (Str.strip element)) then st
  else if Str.startswith "</" element then
    let indent_level := Nat.max 0 (st.2 - 1) in
    (st.1 ++ [Str.repeat "    " indent_level +:+ element], indent_level)
  else if Str.startswith "<" element && negb (Str.endswith "/>" element) then
    (st.1 ++ [Str.repeat "    " st.2 +:+ element],
     if negb (Str.startswith "<?" element) && negb (Str.startswith "<!" element)
     then S st.2 else st.2)
  else (st.1 ++ [Str.repeat "    " st.2 +:+ element], st.2).

Definition _format_xml_with_indentation (xml_content : string) : string :=
  if negb (Str.truthy xml_content) then xml_content
  else
    Str.join Str.newline
      (fold_left format_step (re_split lib "(<[^>]+>)" xml_content) ([], 0)).1.

(** [_clean_process_xml] *)
Definition _clean_process_xml (xml_content : string) : string :=
  if negb (Str.truthy xml_content) then xml_content
  else
    let x1 := re_sub lib
                ("\s+xmlns(:\w+)?=" +:+ Str.dquote +:+ "[^" +:+ Str.dquote
                   +:+ "]+" +:+ Str.dquote)
                EmptyString xml_content in
    let x2 := re_sub lib "<(/?)(bpmn2|bpmndi|di|dc|ifl):" "<\1" x1 in
    let x3 := re_sub lib "\n\s*" EmptyString x2 in
    let x4 := re_sub lib ">\s+<" "><" x3 in
    _format_xml_with_indentation x4.

(** [_generate_process_description]: the generator when there is one
    (it catches its own failures), else the text of the handler. *)
Definition _generate_process_description (context process_type : string)
  : string :=
  match embedding_generator with
  | Some generate_description => generate_description context process_type
  | None =>
      if String.eqb process_type "subprocess"
      then "SubProcess component for specialized processing within the integration flow."
      else "Process component for main integration flow orchestration."
  end.

(** The chunk of one container element; [kind] is ["process"] or
    ["subprocess"]. *)
Definition container_chunk (iflow_file : Fs.path) (kind component_type : string)
    (type_key id_label name_label type_label : string)
    (container_id : string) (container : Xml.node) : chunk :=
  let name := Xml.get_or_empty container "name" in
  let properties := direct_properties container in
  let type := default EmptyString (Dict.get type_key properties) in
  let complete_xml := tostring lib container in
  let clean_xml := _clean_process_xml complete_xml in
  let description_context :=
    id_label +:+ container_id +:+ Str.newline +:+ name_label +:+ name
      +:+ Str.newline +:+ type_label +:+ type +:+ Str.newline
      +:+ "Properties: " +:+ dict_str lib properties in
  {| id := chunk_id iflow_file container_id;
     file_name := Fs.relpath iflow_file;
     file_type := "bpmn";
     component_id := Some container_id;
     component_type := Some component_type;
     activity_type := Some type;
     content := None;
     complete_bpmn_xml := Some clean_xml;
     description := _generate_process_description description_context kind;
     properties := Some properties;
     related_scripts := Some [];
     unresolved_script_refs := Some [];
     participant := Some EmptyString;
     sequence_flows := Some [];
     connections := Some [];
     participants := None;
     signature := signature_of clean_xml |}.

(** The loop over the containers, skipping ids already processed. *)
Definition container_step (mk : string -> Xml.node -> chunk) (fallback : string)
    (st : list chunk * gset string) (container : Xml.elem)
  : list chunk * gset string :=
  let container_id := Str.or_default (Xml.get (Xml.nd container) "id") fallback in
  if bool_decide (container_id ∈ st.2) then st
  else (st.1 ++ [mk container_id (Xml.nd container)], {[container_id]} ∪ st.2).

Definition _extract_processes (root : Xml.node) (iflow_file : Fs.path)
  : list chunk :=
  (fold_left
     (container_step
        (container_chunk iflow_file "process" "process" "processType"
           "Process ID: " "Process Name: " "Process Type: ")
        "process")
     (xpath_tag (Xml.xpath_all root) "bpmn2" "process") ([], ∅)).1.

Definition _extract_subprocesses (root : Xml.node) (iflow_file : Fs.path)
  : list chunk :=
  (fold_left
     (container_step
        (container_chunk iflow_file "subprocess" "subProcess" "activityType"
           "SubProcess ID: " "SubProcess Name: " "Activity Type: ")
        "subprocess")
     (xpath_tag (Xml.xpath_all root) "bpmn2" "subProcess") ([], ∅)).1.

(** *** The main document *)

(** The chunks of the components, in the order of their ids. *)
Definition component_chunks (index : gmap string script_entry)
    (root : Xml.node) (iflow_file : Fs.path) : list chunk :=
  omap (fun component_id => _create_component_chunk index component_id root iflow_file)
       (_extract_all_component_ids root).

(** [_process_main_iflow_with_components]: nothing when reading or
    parsing raises. *)
Definition _process_main_iflow_with_components
    (listing : list (Fs.path * Fs.file)) (index : gmap string script_entry)
    (iflow_file : Fs.path) : list chunk :=
  match Fs.read_text listing iflow_file with
  | None => []
  | Some content =>
      match fromstring lib content with
      | None => []
      | Some root =>
          [_create_full_iflow_chunk iflow_file content] ++
          component_chunks index root iflow_file ++
          _extract_message_flows root iflow_file ++
          _extract_sequence_flows root iflow_file ++
          _extract_processes root iflow_file ++
          _extract_subprocesses root iflow_file
      end
  end.

(** *** The other files *)

Definition _generate_file_description (file_name : string) (file_type : category)
    (content : string) : string :=
  let file_lower := Str.lower file_name in
  let content_lower := Str.lower content in
  match file_type with
  | groovy_scripts =>
      if Str.contains "commission" file_lower
      then "Groovy script for commission processing and data iteration"
      else if Str.contains "validation" file_lower
              || Str.contains "validate" content_lower
      then "Groovy script for data validation and quality checks"
      else if Str.contains "transformation" file_lower
              || Str.contains "transform" content_lower
      then "Groovy script for data transformation and mapping"
      else "Groovy script for integration flow processing"
  | xsd_files =>
      if Str.contains "employee" file_lower
      then "XSD schema definition for employee data structure"
      else if Str.contains "title" file_lower
      then "XSD schema definition for title and response data"
      else "XSD schema definition for data validation"
  | message_mappings =>
      "Message mapping configuration for data transformation between systems"
  | properties_files =>
      if Str.contains "parameter" file_lower
      then "Properties file defining integration flow parameters and configuration"
      else if Str.contains "metainfo" file_lower
      then "Properties file with integration package metadata"
      else "Properties configuration file"
  | manifest_files =>
      "MANIFEST.MF file containing package metadata and deployment information"
  | _ =>
      str_title lib (str_replace lib (category_name file_type) "_" " ") +:+ " file"
  end.

Definition skip_patterns : list string :=
  ["_chunks.json"; "enhanced_iflow_chunks.json"; "clean_iflow_chunks.json";
   ".env"; ".py"; ".md"; ".txt"; ".pyc"].

Definition allowed_extensions : list string :=
  [".groovy"; ".gsh"; ".xsd"; ".mmap"; ".wsdl"; ".properties"; ".prop";
   ".propdef"; ".xsl"; ".xslt"].

(** The tests of [_process_related_file] that make it return [None]
    before the file is read; a failing [getsize] ends in the handler,
    which returns [None] as well. *)
Definition skipped_before_read (listing : list (Fs.path * Fs.file))
    (file_path : Fs.path) : bool :=
  let file_name := Fs.p_name file_path in
  let file_ext := Str.lower (PyPath.suffix_of_name file_name) in
  if existsb (fun pattern => Str.contains pattern file_name
                             || Str.endswith pattern file_name) skip_patterns
  then true
  else if String.eqb file_ext ".json" then
    match Fs.getsize listing file_path with
    | Some size => (10000 <? size)%N
    | None => true
    end
  else negb (Str.mem file_ext allowed_extensions)
       && negb (String.eqb file_name "MANIFEST.MF").

(** [_process_related_file], without its update of the script index
    (see [related_step]). *)
Definition _process_related_file (listing : list (Fs.path * Fs.file))
    (file_path : Fs.path) (file_type : category) : option chunk :=
  if skipped_before_read listing file_path then None
  else
    match Fs.read_text listing file_path with
    | None => None
    | Some content =>
        if (50000 <? N.of_nat (Str.len content))%N then None
        else
          Some
            {| id := chunk_id file_path (category_name file_type);
               file_name := Fs.relpath file_path;
               file_type := category_name file_type;
               component_id := None;
               component_type := None;
               activity_type := None;
               content := Some content;
               complete_bpmn_xml := None;
               description :=
                 _generate_file_description (Fs.p_name file_path) file_type content;
               properties := None;
               related_scripts := None;
               unresolved_script_refs := None;
               participant := None;
               sequence_flows := None;
               connections := None;
               participants := None;
               signature := signature_of content |}
    end.

(** The state of a chunker: [self.chunks], [self.processed_files],
    [self.script_index]. *)
Record chunker := Chunker_ {
  self_chunks : list chunk;
  self_processed_files : list Fs.path;
  self_script_index : gmap string script_entry
}.

(** One file in [_process_all_related_files]; the second component is
    the local list [processed].  A script that gave a chunk is indexed
    under its name by [_process_related_file], and the entries of its
    name and stem then receive the chunk id. *)
Definition related_step (listing : list (Fs.path * Fs.file)) (file_type : category)
    (st : chunker * list Fs.path) (file_path : Fs.path)
  : chunker * list Fs.path :=
  match _process_related_file listing file_path file_type with
  | Some c =>
      ({| self_chunks := self_chunks st.1 ++ [c];
          self_processed_files := self_processed_files st.1;
          self_script_index :=
            if decide (file_type = groovy_scripts)
            then _update_script_index_with_chunk c
                   (_index_script_file (Fs.p_name file_path) (Fs.relpath file_path)
                      (Some (id c)) (self_script_index st.1))
            else self_script_index st.1 |},
       st.2 ++ [file_path])
  | None => st
  end.

Definition _process_all_related_files (listing : list (Fs.path * Fs.file))
    (all_files : all_files_t) (self : chunker) : chunker * list Fs.path :=
  fold_left
    (fun st file_type =>
       if decide (file_type = main_iflow) then st
       else fold_left (related_step listing file_type) (all_files file_type) st)
    all_categories (self, []).

(** *** Coverage *)

(** [(processed / total * 100) if total > 0 else 100], the quotient
    taken exactly. *)
Definition percentage (processed total : nat) : Q :=
  if 0 <? total
  then (inject_Z (Z.of_nat processed) / inject_Z (Z.of_nat total) * 100)%Q
  else 100%Q.

Definition processed_in (processed : list Fs.path) (files : list Fs.path)
  : list Fs.path :=
  List.filter (fun f => bool_decide (f ∈ processed)) files.

Definition missing_in (processed : list Fs.path) (files : list Fs.path)
  : list Fs.path :=
  List.filter (fun f => negb (bool_decide (f ∈ processed))) files.

Definition total_files (all_files : all_files_t) : nat :=
  list_sum (List.map (fun c => List.length (all_files c)) all_categories).

Definition _verify_complete_coverage (all_files : all_files_t)
    (processed : list Fs.path) : coverage_report :=
  {| total_files_discovered := total_files all_files;
     total_files_processed := List.length processed;
     coverage_percentage := percentage (List.length processed) (total_files all_files);
     file_type_breakdown := fun file_type =>
       let files := all_files file_type in
       let processed_count := List.length (processed_in processed files) in
       {| bd_total := List.length files;
          bd_processed := processed_count;
          bd_coverage := percentage processed_count (List.length files) |};
     missing_files :=
       List.flat_map (fun file_type => missing_in processed (all_files file_type))
         all_categories |}.

(** *** The whole run *)

(** The chunker after [process_complete_iflow_package], started on a
    fresh object for the package [pkg] at [base]. *)
Definition run (base : string) (pkg : Fs.dir) : chunker :=
  let listing := Fs.walk base [] pkg in
  let all_files := _discover_all_files listing in
  let index := _build_script_index all_files ∅ in
  let after_main :=
    match _find_main_iflow all_files with
    | Some main =>
        {| self_chunks := _process_main_iflow_with_components listing index main;
           self_processed_files := [main];
           self_script_index := index |}
    | None =>
        {| self_chunks := [];
           self_processed_files := [];
           self_script_index := index |}
    end in
  let related := _process_all_related_files listing all_files after_main in
  {| self_chunks := self_chunks related.1;
     self_processed_files := self_processed_files related.1 ++ related.2;
     self_script_index := self_script_index related.1 |}.

Definition process_complete_iflow_package (base : string) (pkg : Fs.dir)
  : result :=
  let self := run base pkg in
  {| total_chunks := List.length (self_chunks self);
     processed_files := List.length (self_processed_files self);
     report :=
       _verify_complete_coverage
         (_discover_all_files (Fs.walk base [] pkg)) (self_processed_files self);
     chunks := self_chunks self |}.

(** *** Notions the properties of a run are stated with *)

(** What every chunk made from the parsed document, the full-document
    chunk aside, looks like: its [file_type] is one of three, its id is
    the stem of the document followed by its component id, and its
    signature is the digest of its markup. *)
Definition element_chunk (iflow_file : Fs.path) (c : chunk) : Prop :=
  (file_type c = "bpmn" ∨ file_type c = "bpmn_message_flow"
   ∨ file_type c = "bpmn_sequence_flow") ∧
  (∃ cid, component_id c = Some cid ∧ id c = chunk_id iflow_file cid) ∧
  ∃ text, (content c = Some text ∨ complete_bpmn_xml c = Some text) ∧
          signature c = signature_of text.

(** The auxiliary files in the order [_process_all_related_files]
    visits them, each with its category. *)
Definition related_items (cats : list category) (all_files : all_files_t)
  : list (category * Fs.path) :=
  List.flat_map
    (fun file_type =>
       if decide (file_type = main_iflow) then []
       else List.map (pair file_type) (all_files file_type))
    cats.

Definition related_chunk (listing : list (Fs.path * Fs.file))
    (item : category * Fs.path) : option chunk :=
  _process_related_file listing item.2 item.1.

Definition gives_chunk (listing : list (Fs.path * Fs.file))
    (item : category * Fs.path) : bool :=
  match related_chunk listing item with Some _ => true | None => false end.

(** The chunks the main document gives in a run. *)
Definition main_chunks (base : string) (pkg : Fs.dir) : list chunk :=
  let listing := Fs.walk base [] pkg in
  let all_files := _discover_all_files listing in
  match _find_main_iflow all_files with
  | Some main =>
      _process_main_iflow_with_components listing
        (_build_script_index all_files ∅) main
  | None => []
  end.

(** The document of the package is missing, or it is read and does
    not parse. *)
Definition no_parsed_document (base : string) (pkg : Fs.dir) : Prop :=
  let listing := Fs.walk base [] pkg in
  match _find_main_iflow (_discover_all_files listing) with
  | None => True
  | Some main =>
      ∃ content, Fs.read_text listing main = Some content ∧
                 fromstring lib content = None
  end.

End WithLibrary.

End WithCaseMapping.

End Chunker.

(** ** The description generator *)

Module Generator.

(** [description.endswith(('.', '!', '?'))] *)
Definition ends_sentence (description : string) : bool :=
  Str.endswith "." description || Str.endswith "!" description
  || Str.endswith "?" description.

(** [s.rfind(c)] for a character [c] of the ASCII range, as a position
    in the bytes of [s]; [-1] when [c] does not occur *)
Definition rfind (c : ascii) (s : string) : Z :=
  match Str.rfind c s with
  | Some i => Z.of_nat i
  | None => (-1)%Z
  end.

(** The index Python gives to the character at a position in the bytes:
    the number of characters before it; [-1] for [-1]. *)
Definition char_index (s : string) (k : Z) : Z :=
  if (k <? 0)%Z then (-1)%Z
  else Z.of_nat (Str.len (String.substring 0 (Z.to_nat k) s)).

(** The end of [generate_description]: a reply that stops in the middle
    of a sentence is cut after its last complete sentence when that is
    beyond the fiftieth character, and gets a full stop otherwise.  The
    three marks take one byte each, so the last of them in the string is
    the last in its bytes, and the slice up to it ends with its byte. *)
Definition complete_sentences (description : string) : string :=
  if Str.truthy description && negb (ends_sentence description) then
    let last_period := rfind "." description in
    let last_exclamation := rfind "!" description in
    let last_question := rfind "?" description in
    let last_complete :=
      Z.max (Z.max last_period last_exclamation) last_question in
    if (50 <? char_index description last_complete)%Z
    then String.substring 0 (Z.to_nat (last_complete + 1)) description
    else Str.rstrip description +:+ "."
  else description.

(** [fallbacks.get(context_type, fallbacks["general"])] *)
Definition fallbacks (context_type : string) : string :=
  if String.eqb context_type "package" then
    "SAP Integration Flow package for enterprise data integration and process automation. Contains multiple integration flows, components, and configurations for seamless data exchange between systems."
  else if String.eqb context_type "component" then
    "BPMN component that handles specific processing tasks, data transformations, or system interactions as part of the integration process."
  else if String.eqb context_type "flow" then
    "BPMN flow connection that manages data and control flow between integration components, ensuring proper message routing and processing."
  else if String.eqb context_type "asset" then
    "Integration asset that provides specific functionality or resources for the integration flow, including configuration settings and processing logic."
  else
    "Integration element that supports enterprise data integration and business process automation with reliable processing capabilities.".

(** [EmbeddingGenerator.generate_description].  [chat context_type text]
    is the reply of the completion service to the prompt of the context
    type followed by the stripped text; [None]: the call, or reading the
    reply, raises. *)
Definition generate_description (chat : string -> string -> option string)
    (text context_type : string) : string :=
  if negb (Str.truthy text) || negb (Str.truthy (Str.strip text))
  then "No description available."
  else
    match chat context_type (Str.strip text) with
    | Some reply => complete_sentences (Str.strip reply)
    | None => fallbacks context_type
    end.

(** One turn of the loop of [EmbeddingGenerator.format_xml_with_indentation]:
    every opening tag that is not an empty-element tag raises the level. *)
Definition format_step (st : list string * nat) (element : string)
  : list string * nat :=
  if negb (Str.truthy (Str.strip element)) then st
  else if Str.startswith "</" element then
    let indent_level := Nat.max 0 (st.2 - 1) in
    (st.1 ++ [Str.repeat "    " indent_level +:+ element], indent_level)
  else if Str.startswith "<" element && negb (Str.endswith "/>" element) then
    (st.1 ++ [Str.repeat "    " st.2 +:+ element], S st.2)
  else (st.1 ++ [Str.repeat "    " st.2 +:+ element], st.2).

Definition format_xml_with_indentation (lib : Library) (xml_content : string)
  : string :=
  if negb (Str.truthy xml_content) then xml_content
  else
    Str.join Str.newline
      (fold_left format_step (re_split lib "(<[^>]+>)" xml_content) ([], 0)).1.

End Generator.

(** ** The package processor *)

Module Processor.

Section WithCaseMapping.

Context {case_mapping : Str.CaseMapping}.

(** [IFlowPackageProcessor.classify_chunk_type] *)
Definition classify_chunk_type (c : chunk) : string :=
  let file_type := Str.lower (file_type c) in
  let component_type := Str.lower (default EmptyString (component_type c)) in
  if String.eqb file_type "bpmn_full_xml"
     || String.eqb component_type "bpmndefinitions"
  then "package"
  else if String.eqb file_type "bpmn"
          && Str.mem component_type
               ["startevent"; "endevent"; "task"; "callactivity"; "gateway";
                "usertask"; "servicetask"; "process"; "subprocess"]
  then "component"
  else if Str.mem file_type ["bpmn_sequence_flow"; "bpmn_message_flow"]
          || (String.eqb file_type "bpmn"
              && Str.mem component_type ["sequenceflow"; "messageflow"])
  then "flow"
  else if Str.mem file_type
            ["groovy_scripts"; "xsd_files"; "xslt_files"; "properties_files";
             "message_mappings"; "json_files"]
  then "asset"
  else if String.eqb file_type "bpmn" then "component"
  else "asset".

(** The chunks one of the four handlers takes from the list. *)
Definition chunks_of_type (chunk_type : string) (chunks : list chunk)
  : list chunk :=
  List.filter (fun chunk => String.eqb (classify_chunk_type chunk) chunk_type)
    chunks.

(** The description [ensure_package] hands to the description
    generator. *)
Definition package_description (chunks : list chunk) : string :=
  match chunks_of_type "package" chunks with
  | chunk :: _ => description chunk
  | [] =>
      "SAP Integration Flow package for enterprise data integration and automation"
  end.

End WithCaseMapping.

(** The markup [process_components] takes from a chunk:
    [chunk.get('content', '') or chunk.get('complete_bpmn_xml', '')] *)
Definition component_content (c : chunk) : string :=
  let content := default EmptyString (content c) in
  if Str.truthy content then content
  else default EmptyString (complete_bpmn_xml c).

(** What [process_flows] reads off a chunk for the row it inserts. *)
Record flow_row := FlowRow {
  source_component_id : string;
  target_component_id : string;
  flow_type : string;
  row_file_type : string
}.

Definition flow_row_of (c : chunk) : flow_row :=
  let connections := default [] (connections c) in
  let file_type := file_type c in
  {| source_component_id := List.nth 0 connections EmptyString;
     target_component_id := List.nth 1 connections EmptyString;
     flow_type :=
       if Str.contains "sequence" file_type then "sequence"
       else if Str.contains "message" file_type then "message"
       else "sequence";
     row_file_type := file_type |}.

(** A character of the class [[A-Za-z0-9_]]. *)
Definition is_word (c : ascii) : bool :=
  let n := nat_of_ascii c in
  ((65 <=? n) && (n <=? 90)) || ((97 <=? n) && (n <=? 122))
  || ((48 <=? n) && (n <=? 57)) || (n =? 95).

(** The longest prefix made of such characters. *)
Fixpoint word_prefix (s : string) : string :=
  match s with
  | EmptyString => EmptyString
  | String c s' => if is_word c then String c (word_prefix s') else EmptyString
  end.

(** What follows the prefix [p] in [s], if [s] starts with [p]. *)
Fixpoint after_prefix (p s : string) : option string :=
  match p, s with
  | EmptyString, _ => Some s
  | String a p', String b s' =>
      if Ascii.eqb a b then after_prefix p' s' else None
  | String _ _, EmptyString => None
  end.

(** [re.search(r"activityType=([A-Za-z0-9_]+)", s)]: the group of the
    leftmost match. *)
Fixpoint search_activity_type (s : string) : option string :=
  let here :=
    match after_prefix "activityType=" s with
    | Some rest =>
        if Str.truthy (word_prefix rest) then Some (word_prefix rest) else None
    | None => None
    end in
  match here with
  | Some w => Some w
  | None =>
      match s with
      | EmptyString => None
      | String _ s' => search_activity_type s'
      end
  end.

(** [extract_activity_type_from_description] *)
Definition extract_activity_type_from_description (description : string)
  : string :=
  if negb (Str.truthy description) then EmptyString
  else default EmptyString (search_activity_type description).

(** The activity type [process_components] stores for a chunk: the one
    read off the description, else the first of the properties
    [activityType] and [activity_name] and the keys [activity_type] and
    [component_type] of the chunk that is not empty. *)
Definition component_activity_type (c : chunk) : string :=
  let desc := description c in
  let props := default [] (properties c) in
  let from_description := extract_activity_type_from_description desc in
  if Str.truthy from_description then from_description
  else if Str.truthy_opt (Dict.get "activityType" props)
  then default EmptyString (Dict.get "activityType" props)
  else if Str.truthy_opt (Dict.get "activity_name" props)
  then default EmptyString (Dict.get "activity_name" props)
  else if Str.truthy_opt (activity_type c)
  then default EmptyString (activity_type c)
  else default EmptyString (component_type c).

End Processor.

(** ** Notions for the layout of formatted markup *)

Module Layout.

Definition blank (element : string) : bool :=
  negb (Str.truthy (Str.strip element)).

(** A closing tag, an opening tag that starts an element, and every
    other piece that is printed: text, an empty-element tag, a
    declaration. *)
Definition closes (element : string) : bool :=
  negb (blank element) && Str.startswith "</" element.

Definition opens (element : string) : bool :=
  negb (blank element) && negb (Str.startswith "</" element)
  && Str.startswith "<" element && negb (Str.endswith "/>" element)
  && negb (Str.startswith "<?" element) && negb (Str.startswith "<!" element).

Definition flat (element : string) : bool :=
  negb (blank element) && negb (closes element) && negb (opens element).

(** An opening piece that is a declaration or a processing
    instruction. *)
Definition declaration (element : string) : bool :=
  negb (blank element) && negb (Str.startswith "</" element)
  && Str.startswith "<" element && negb (Str.endswith "/>" element)
  && (Str.startswith "<?" element || Str.startswith "<!" element).

(** A line at a level of indentation. *)
Definition indented (level : nat) (element : string) : string :=
  Str.repeat "    " level +:+ element.

(** The lines that pieces in which every opening tag has its closing tag
    are to be printed as at a level: blank pieces are dropped, an
    element is its opening and its closing tag at the level with its
    content between them one level deeper. *)
Inductive layout : nat -> list string -> list string -> Prop :=
| layout_nil (level : nat) : layout level [] []
| layout_blank (level : nat) (x : string) (l lines : list string) :
    blank x = true -> layout level l lines -> layout level (x :: l) lines
| layout_flat (level : nat) (x : string) (l lines : list string) :
    flat x = true -> layout level l lines ->
    layout level (x :: l) (indented level x :: lines)
| layout_element (level : nat) (o c : string)
    (inner rest inner_lines rest_lines : list string) :
    opens o = true -> closes c = true ->
    layout (S level) inner inner_lines -> layout level rest rest_lines ->
    layout level (o :: inner ++ c :: rest)
      (indented level o :: inner_lines ++ indented level c :: rest_lines).

End Layout.

(** ** Sample packages and documents *)

Module Sample.

Import Xml.

(** The case mapping of the samples: no text that the samples lower
    leaves the ASCII range. *)
#[global] Instance ascii_mapping : Str.CaseMapping :=
  {| Str.lower := Str.ascii_lower; Str.lower_ascii := fun _ _ => eq_refl |}.

(** Three characters beyond the ASCII range, by their bytes: the
    no-break space U+00A0, the ideographic space U+3000 and U+1F600. *)
Definition nbsp : string :=
  String (ascii_of_nat 194) (String (ascii_of_nat 160) EmptyString).

Definition wide_space : string :=
  String (ascii_of_nat 227)
    (String (ascii_of_nat 128) (String (ascii_of_nat 128) EmptyString)).

Definition emoji : string :=
  String (ascii_of_nat 240)
    (String (ascii_of_nat 159)
       (String (ascii_of_nat 152) (String (ascii_of_nat 128) EmptyString))).

(** A serialiser that writes the tag and the id of the node. *)
Definition show (n : node) : string :=
  "<" +:+ tag n +:+ " " +:+ get_or_empty n "id" +:+ ">".

Definition el (t : string) (a : list (string * string)) (cs : list node) : node :=
  Element t a None None cs.

Definition leaf (t txt : string) : node :=
  Element t [] (Some txt) None [].

Definition bpmn (local : string) : string := clark Chunker.MODEL local.

Definition property (k v : string) : node :=
  el (clark Chunker.IFL "property") [] [leaf "key" k; leaf "value" v].

(** A start event with two properties of the same key. *)
Definition start_twice : node :=
  el (bpmn "startEvent") [("id", "S1")]
     [el (bpmn "extensionElements") []
         [property "k" "first"; property "k" "second"]].

(** One process with a start event, a script task and the flow between
    them. *)
Definition doc_one_flow : node :=
  el (bpmn "definitions") []
     [el (bpmn "process") [("id", "P1")]
         [el (bpmn "startEvent") [("id", "S1")]
             [el (bpmn "extensionElements") [] [property "scriptName" "Validate.groovy"]];
          el (bpmn "scriptTask") [("id", "T1")] [el (bpmn "outgoing") [] []];
          el (bpmn "sequenceFlow")
             [("id", "f1"); ("sourceRef", "S1"); ("targetRef", "T1")] []]].

(** Two sequence flows carry the same id and leave different
    components. *)
Definition doc_shared_flow_id : node :=
  el (bpmn "definitions") []
     [el (bpmn "process") [("id", "P1")]
         [el (bpmn "startEvent") [("id", "A")] [el (bpmn "outgoing") [] []];
          el (bpmn "scriptTask") [("id", "B")] [el (bpmn "outgoing") [] []];
          el (bpmn "sequenceFlow")
             [("id", "f1"); ("sourceRef", "A"); ("targetRef", "B")] [];
          el (bpmn "sequenceFlow")
             [("id", "f1"); ("sourceRef", "B"); ("targetRef", "A")] []]].

(** A component id that holds double quotes: interpolated into an XPath
    predicate, it ends the literal and adds a second test. *)
Definition quoted_id : string :=
  "s" +:+ Str.dquote +:+ " or @sourceRef=" +:+ Str.dquote +:+ "t".

(** A start event with that id, two tasks [s] and [t], and a flow that
    leaves [t]. *)
Definition doc_quoted_id : node :=
  el (bpmn "definitions") []
     [el (bpmn "process") [("id", "P1")]
         [el (bpmn "startEvent") [("id", quoted_id)] [el (bpmn "outgoing") [] []];
          el (bpmn "callActivity") [("id", "s")] [el (bpmn "incoming") [] []];
          el (bpmn "serviceTask") [("id", "t")] [el (bpmn "outgoing") [] []];
          el (bpmn "sequenceFlow")
             [("id", "f1"); ("sourceRef", "t"); ("targetRef", "s")] []]].

(** The positions of the elements of a document that pass a test. *)
Definition positions (sel : node -> bool) (root : node) : list (list nat) :=
  List.map loc (List.filter (fun e => sel (nd e)) (xpath_all root)).

(** An XPath evaluator for the expressions that component id gives rise
    to, [head[@attr="s" or @sourceRef="t"]]: the elements of the node
    test whose [attr] is [s] or whose [sourceRef] is [t]. *)
Definition xpath_or (expr : string) (root : node) : option (list (list nat)) :=
  let predicate attr :=
    "[@" +:+ attr +:+ "=" +:+ Str.dquote +:+ quoted_id +:+ Str.dquote +:+ "]" in
  let either attr n := attr_is attr "s" n || attr_is "sourceRef" "t" n in
  if String.eqb expr ("//*" +:+ predicate "id")
  then Some (positions (either "id") root)
  else if String.eqb expr ("//bpmn2:sequenceFlow" +:+ predicate "sourceRef")
          || String.eqb expr ("//bpmn:sequenceFlow" +:+ predicate "sourceRef")
  then Some (positions
               (fun n => has_tag (bpmn "sequenceFlow") n && either "sourceRef" n)
               root)
  else if String.eqb expr ("//bpmndi:BPMNShape" +:+ predicate "bpmnElement")
  then Some (positions
               (fun n => has_tag (clark Chunker.DI "BPMNShape") n
                         && either "bpmnElement" n)
               root)
  else None.

Definition doc_twice : node :=
  el (bpmn "definitions") [] [el (bpmn "process") [("id", "P1")] [start_twice]].

(** A collaboration with one message flow, and a process with one
    sequence flow. *)
Definition doc_two_flows : node :=
  el (bpmn "definitions") []
     [el (bpmn "collaboration") [("id", "C1")]
         [el (bpmn "messageFlow")
             [("id", "m1"); ("sourceRef", "S1"); ("targetRef", "R1")] []];
      el (bpmn "process") [("id", "P1")]
         [el (bpmn "sequenceFlow")
             [("id", "f1"); ("sourceRef", "S1"); ("targetRef", "T1")] []]].

(** A parser that knows the documents above by the text that stands for
    them. *)
Definition parse (s : string) : option node :=
  if String.eqb s "one flow" then Some doc_one_flow
  else if String.eqb s "shared flow id" then Some doc_shared_flow_id
  else None.

Definition flow_file : Fs.path := Fs.Path "/tmp/pkg" ["src"] "flow.iflw".

Definition lib : Library :=
  {| fromstring := parse;
     tostring := show;
     xpath_other := fun _ _ => None;
     sha256_hexdigest := fun s => "sha256:" +:+ s;
     re_findall := fun _ _ => [];
     re_sub := fun _ _ s => s;
     re_split := fun _ s => [s];
     str_replace := fun s _ _ => s;
     str_title := fun s => s;
     dict_str := fun _ => "{}" |}.

(** The same library with the XPath evaluator above. *)
Definition lib_or : Library :=
  {| fromstring := parse;
     tostring := show;
     xpath_other := xpath_or;
     sha256_hexdigest := fun s => "sha256:" +:+ s;
     re_findall := fun _ _ => [];
     re_sub := fun _ _ s => s;
     re_split := fun _ s => [s];
     str_replace := fun s _ _ => s;
     str_title := fun s => s;
     dict_str := fun _ => "{}" |}.

(** The chunks of two components of the documents above. *)
Definition s1_chunk : option chunk :=
  Eval vm_compute in Chunker._create_component_chunk lib ∅ "S1" doc_one_flow flow_file.

Definition twice_chunk : option chunk :=
  Eval vm_compute in Chunker._create_component_chunk lib ∅ "S1" doc_twice flow_file.

(** A package with a parsable document, a script and a schema. *)
Definition pkg_ok : Fs.dir :=
  Fs.Dir [Fs.File "MANIFEST.MF" (Some 10%N) (Some "Manifest-Version: 1.0")]
    [("src", Fs.Dir [Fs.File "flow.iflw" (Some 8%N) (Some "one flow");
                     Fs.File "Validate.gsh" (Some 5%N) (Some "x = 1");
                     Fs.File "notes.txt.xsd" (Some 5%N) (Some "<xsd/>")] [])].

(** A package with two scripts, the stem of the second being a script
    file name. *)
Definition pkg_stems : Fs.dir :=
  Fs.Dir []
    [("src", Fs.Dir [Fs.File "Validate.gsh" (Some 5%N) (Some "x = 1");
                     Fs.File "Validate.groovy.gsh" (Some 5%N) (Some "y = 2")] [])].

(** A package with a schema of 12501 characters, which take 50004
    bytes. *)
Definition pkg_wide : Fs.dir :=
  Fs.Dir [Fs.File "uni.xsd" (Some 50004%N) (Some (Str.repeat emoji (125 * 100 + 1)))] [].

(** A script task whose inline script holds a no-break space and
    nothing else, and one whose text has a character of four bytes. *)
Definition doc_inline_wide : node :=
  el (bpmn "definitions") []
     [el (bpmn "process") [("id", "P1")]
         [el (bpmn "scriptTask") [("id", "T1")]
             [leaf (bpmn "script") nbsp;
              leaf (bpmn "script") (nbsp +:+ "x = " +:+ emoji +:+ wide_space)]]].

(** A package without a process-definition document. *)
Definition pkg_no_main : Fs.dir :=
  Fs.Dir [Fs.File "a.groovy" (Some 5%N) (Some "x = 1")] [].

(** A package whose document does not parse. *)
Definition pkg_bad_xml : Fs.dir :=
  Fs.Dir [Fs.File "flow.iflw" (Some 8%N) (Some "<broken");
          Fs.File "a.groovy" (Some 5%N) (Some "x = 1")] [].

(** The chunk of the start event in a run over the first package. *)
Definition s1_in_run : option chunk :=
  Eval vm_compute in
    List.nth_error
      (chunks (Chunker.process_complete_iflow_package lib None "/tmp/pkg" pkg_ok)) 1.

(** A package with two process-definition documents and a script that
    cannot be read. *)
Definition pkg_gaps : Fs.dir :=
  Fs.Dir [Fs.File "a.iflw" (Some 8%N) (Some "one flow");
          Fs.File "b.iflw" (Some 8%N) (Some "one flow");
          Fs.File "locked.groovy" (Some 5%N) None;
          Fs.File "open.groovy" (Some 5%N) (Some "x = 1")] [].

(** A package with a script beside, and a script inside, a
    [__pycache__] directory. *)
Definition pkg_cached : Fs.dir :=
  Fs.Dir []
    [("src", Fs.Dir [Fs.File "Validate.gsh" (Some 5%N) (Some "x = 1")]
               [("__pycache__",
                 Fs.Dir [Fs.File "Cached.groovy" (Some 5%N) (Some "y = 2")] [])])].

(** The first chunk of the sequence flows of the document with two
    flows. *)
Definition f1_chunk : option chunk :=
  Eval vm_compute in
    List.head (Chunker._extract_sequence_flows lib doc_two_flows flow_file).

(** A script task with two inline scripts, one of them blank. *)
Definition doc_inline : node :=
  el (bpmn "definitions") []
     [el (bpmn "process") [("id", "P1")]
         [el (bpmn "scriptTask") [("id", "T1")]
             [leaf (bpmn "script") "  return 1  ";
              leaf "Script" "   ";
              leaf (bpmn "documentation") "text"]]].

Definition inline_chunk : option chunk :=
  Eval vm_compute in
    Chunker._create_component_chunk lib ∅ "T1" doc_inline flow_file.

(** The second chunk of the run over the first package: the chunk of
    the start event. *)
Definition s1_of_run : chunk :=
  Eval vm_compute in
    List.nth 1
      (chunks (Chunker.process_complete_iflow_package lib None "/tmp/pkg" pkg_ok))
      (Chunker._create_full_iflow_chunk lib flow_file "").

(** A pool: a participant for the process that holds a start event, a
    script task and the flow between them. *)
Definition doc_pool : node :=
  el (bpmn "definitions") []
     [el (bpmn "collaboration") [("id", "C1")]
         [el (bpmn "participant") [("id", ""); ("processRef", "P1")] [];
          el (bpmn "participant") [("id", "Part1"); ("processRef", "P1")] [];
          el (bpmn "participant") [("id", "Part2"); ("processRef", "P1")] []];
      el (bpmn "process") [("id", "P1")]
         [el (bpmn "startEvent") [("id", "S1")] [el (bpmn "outgoing") [] []];
          el (bpmn "scriptTask") [("id", "T1")] [el (bpmn "incoming") [] []];
          el (bpmn "sequenceFlow")
             [("id", "f1"); ("sourceRef", "S1"); ("targetRef", "T1")] []]].

Definition pool_s1 : chunk :=
  Eval vm_compute in
    List.nth 0 (Chunker.component_chunks lib ∅ doc_pool flow_file)
      (Chunker._create_full_iflow_chunk lib flow_file "").

Definition pool_f1 : chunk :=
  Eval vm_compute in
    List.nth 0 (Chunker._extract_sequence_flows lib doc_pool flow_file)
      (Chunker._create_full_iflow_chunk lib flow_file "").

(** A library whose [re.split] knows the pieces of one element. *)
Definition lib_pieces : Library :=
  {| fromstring := parse;
     tostring := show;
     xpath_other := fun _ _ => None;
     sha256_hexdigest := fun s => "sha256:" +:+ s;
     re_findall := fun _ _ => [];
     re_sub := fun _ _ s => s;
     re_split := fun _ s =>
       if String.eqb s "<a><b/>x</a>"
       then [""; "<a>"; ""; "<b/>"; "x"; "</a>"; ""] else [s];
     str_replace := fun s _ _ => s;
     str_title := fun s => s;
     dict_str := fun _ => "{}" |}.

(** A script task with a name and an activity type. *)
Definition doc_activity : node :=
  el (bpmn "definitions") []
     [el (bpmn "process") [("id", "P1")]
         [el (bpmn "scriptTask") [("id", "T1"); ("name", "Validate")]
             [el (bpmn "extensionElements") []
                 [property "activityType" "Script";
                  property "cmdVariantUri" "ctype::FlowstepVariant/cname::HTTP"]]]].

Definition activity_chunk : option chunk :=
  Eval vm_compute in
    Chunker._create_component_chunk lib ∅ "T1" doc_activity flow_file.

End Sample.

(** * Properties *)

Example lower_mixed {case_mapping : Str.CaseMapping} :
  Str.lower "Validate.GROOVY" = "validate.groovy".
Proof. by rewrite Str.lower_ascii by reflexivity. Qed.
Example suffix_double : PyPath.suffix_of_name "notes.txt.xsd" = ".xsd".
Proof. reflexivity. Qed.
Example suffix_hidden : PyPath.suffix_of_name ".groovy" = "".
Proof. reflexivity. Qed.
Example stem_slash : PyPath.stem "scripts/validate.groovy" = "validate".
Proof. reflexivity. Qed.
Example strip_both : Str.strip "  a b  " = "a b".
Proof. reflexivity. Qed.
Example strip_wide :
  Str.strip (Sample.nbsp +:+ " a" +:+ Sample.nbsp +:+ "b" +:+ Sample.wide_space)
  = "a" +:+ Sample.nbsp +:+ "b".
Proof. reflexivity. Qed.
Example len_wide :
  Str.len ("a" +:+ Sample.nbsp +:+ Sample.wide_space +:+ Sample.emoji) = 4 ∧
  String.length ("a" +:+ Sample.nbsp +:+ Sample.wide_space +:+ Sample.emoji) = 10.
Proof. split; reflexivity. Qed.
Example contains_mid : Str.contains ".py" "x.pyc.json" = true.
Proof. reflexivity. Qed.
Example split_three : Str.split "/" "a//b" = ["a"; ""; "b"].
Proof. reflexivity. Qed.

Import Chunker.

(** Take the first step of a sequence of steps that may raise and that
    did not. *)
Ltac bind_inv H :=
  match type of H with
  | (?m ≫= _) = Some _ =>
      let E := fresh "E" in
      destruct m eqn:E; [cbn [mbind option_bind] in H | discriminate H]
  end.

(** Lower the strings of the goal that are known to be of the ASCII
    range. *)
Ltac lower_literals :=
  repeat match goal with
         | |- context [Str.lower ?s] => rewrite (Str.lower_ascii s) by reflexivity
         end.

(** The classification of a chunk whose file type and component type are
    known. *)
Ltac classify_known :=
  unfold Processor.classify_chunk_type;
  cbn [file_type component_type default];
  lower_literals; reflexivity.

(** ** File discovery *)

Section Discovery.

Context {case_mapping : Str.CaseMapping}.

Lemma discover_fold (listing : list (Fs.path * Fs.file)) (a : all_files_t)
    (c : category) :
  fold_left discover_step listing a c =
  a c ++ List.map fst
           (List.filter (fun pf => bool_decide (classify pf.2 = Some c)) listing).
Proof.
  revert a. induction listing as [|pf listing IH]; intros a; simpl.
  - by rewrite app_nil_r.
  - rewrite IH. unfold discover_step at 1.
    destruct (classify pf.2) as [c'|] eqn:Hc.
    + unfold add_file. destruct (decide (c = c')) as [->|Hne].
      * rewrite bool_decide_eq_true_2 by done. simpl. by rewrite <- app_assoc.
      * rewrite bool_decide_eq_false_2 by congruence. done.
    + rewrite bool_decide_eq_false_2 by congruence. done.
Qed.

(** The bucket of a category holds, in the order of the walk, the paths
    of the files the classification sends there. *)
Lemma discover_spec (listing : list (Fs.path * Fs.file)) (c : category) :
  _discover_all_files listing c =
  List.map fst
    (List.filter (fun pf => bool_decide (classify pf.2 = Some c)) listing).
Proof. unfold _discover_all_files. by rewrite discover_fold. Qed.

Lemma discover_elem (listing : list (Fs.path * Fs.file)) (c : category)
    (p : Fs.path) :
  p ∈ _discover_all_files listing c ↔
  ∃ f, (p, f) ∈ listing ∧ classify f = Some c.
Proof.
  rewrite discover_spec, list_elem_of_In, in_map_iff. split.
  - intros [[q f] [Hq Hin]]. simpl in Hq. subst q.
    apply filter_In in Hin as [Hin Hc]. apply bool_decide_eq_true in Hc.
    exists f. by rewrite list_elem_of_In.
  - intros [f [Hin Hc]]. exists (p, f). split; [done|].
    apply filter_In. split; [by apply list_elem_of_In|].
    by apply bool_decide_eq_true.
Qed.

(** Induction on directories, the sub-directories being covered by the
    hypothesis. *)
Lemma dir_nested_ind (P : Fs.dir → Prop) :
  (∀ files subdirs, Forall (fun nd => P nd.2) subdirs → P (Fs.Dir files subdirs)) →
  ∀ d, P d.
Proof.
  intros H. fix ih 1. intros [files subdirs]. apply H.
  induction subdirs as [|nd l IH]; constructor; [apply ih | apply IH].
Qed.

(** Every path of the walk ends in the name of its file. *)
Lemma walk_name (base : string) (pkg : Fs.dir) :
  ∀ dirs p f, (p, f) ∈ Fs.walk base dirs pkg → Fs.p_name p = Fs.f_name f.
Proof.
  induction pkg as [files subdirs IH] using dir_nested_ind.
  intros dirs p f Hin. simpl in Hin. apply elem_of_app in Hin as [Hin|Hin].
  - apply list_elem_of_In, in_map_iff in Hin as [f' [Heq _]]. by inversion Heq.
  - apply list_elem_of_In, in_flat_map in Hin as [nd [Hnd Hin]].
    destruct (String.eqb nd.1 "__pycache__"); [by destruct Hin|].
    rewrite Forall_forall in IH. apply list_elem_of_In in Hnd.
    eapply (IH nd Hnd). by apply list_elem_of_In.
Qed.

End Discovery.

(** C9.  Exclusion is a substring test on the file name and comes before
    the classification by extension: a file whose name contains one of
    the seven patterns anywhere gets no category whatever its extension,
    the schema file [notes.txt.xsd] for one, and no discovered path has a
    name containing a pattern. *)
Theorem excluded_name_never_discovered {case_mapping : Str.CaseMapping} :
  (∀ f, Str.contains_any exclude_patterns (Fs.f_name f) = true → classify f = None) ∧
  (∀ size txt, classify (Fs.File "notes.txt.xsd" size txt) = None) ∧
  (∀ base pkg c p,
     p ∈ _discover_all_files (Fs.walk base [] pkg) c →
     Str.contains_any exclude_patterns (Fs.p_name p) = false ∧
     ∀ pattern, pattern ∈ exclude_patterns → Str.contains pattern (Fs.p_name p) = false).
Proof.
  assert (Hex : ∀ f, Str.contains_any exclude_patterns (Fs.f_name f) = true →
                     classify f = None).
  { intros f H. unfold classify. by rewrite H. }
  split; [exact Hex|]. split; [intros size txt; by apply Hex|].
  intros base pkg c p Hin.
  apply discover_elem in Hin as [f [Hin Hc]].
  apply walk_name in Hin. rewrite Hin.
  assert (Hno : Str.contains_any exclude_patterns (Fs.f_name f) = false).
  { destruct (Str.contains_any exclude_patterns (Fs.f_name f)) eqn:E; [|done].
    apply Hex in E. congruence. }
  split; [done|]. intros pattern Hp.
  unfold Str.contains_any in Hno.
  destruct (Str.contains pattern (Fs.f_name f)) eqn:E; [|done].
  assert (existsb (fun p0 => Str.contains p0 (Fs.f_name f)) exclude_patterns = true).
  { apply existsb_exists. exists pattern. split; [by apply list_elem_of_In|done]. }
  congruence.
Qed.

Lemma excluded_name_never_discovered_witness :
  classify (Fs.File "helper.pyx.groovy" (Some 3%N) (Some "x")) = None ∧
  Str.contains ".txt"
    (Fs.p_name (Fs.Path "/tmp/pkg" ["src"] "Validate.gsh")) = false.
Proof.
  split.
  - apply (proj1 excluded_name_never_discovered). reflexivity.
  - apply (proj2 (proj2 excluded_name_never_discovered)
             "/tmp/pkg" Sample.pkg_ok groovy_scripts).
    + vm_compute. apply list_elem_of_here.
    + vm_compute. do 4 apply list_elem_of_further. apply list_elem_of_here.
Defined.

(** ** The property map of a component *)

Section Properties.

Context {case_mapping : Str.CaseMapping}.

Lemma dict_get_set (k k' v : string) (d : Dict.t) :
  Dict.get k (Dict.set k' v d) = if String.eqb k' k then Some v else Dict.get k d.
Proof.
  unfold Dict.get. induction d as [|[k0 v0] d IH]; simpl; [done|].
  destruct (String.eqb_spec k0 k'), (String.eqb_spec k' k); subst; simpl;
    rewrite ?String.eqb_refl; try done.
  - destruct (String.eqb_spec k' k); [done|done].
  - destruct (String.eqb_spec k0 k); [done|]. rewrite IH.
    by destruct (String.eqb_spec k k).
  - destruct (String.eqb_spec k0 k); [done|]. rewrite IH.
    by destruct (String.eqb_spec k' k).
Qed.

Lemma dict_of_snoc (pairs : list (string * string)) (kv : string * string) :
  dict_of (pairs ++ [kv]) = Dict.set kv.1 kv.2 (dict_of pairs).
Proof. unfold dict_of. by rewrite fold_left_app. Qed.

Lemma dict_of_get (k : string) (pairs : list (string * string)) :
  Dict.get k (dict_of pairs) = last_match k pairs.
Proof.
  unfold last_match.
  induction pairs as [|[k' v'] pairs IH] using rev_ind; [done|].
  rewrite dict_of_snoc, rev_unit, dict_get_set. simpl.
  destruct (String.eqb k' k); [done|apply IH].
Qed.

Lemma harvest_pairs (nodes : list Xml.node) (pairs : list (string * string)) :
  fold_opt harvest nodes (dict_of pairs) =
  dict_of <$> fold_opt collect_pair nodes pairs.
Proof.
  revert pairs. induction nodes as [|n nodes IH]; intros pairs; simpl; [done|].
  unfold harvest, collect_pair.
  destruct (property_pair n) as [[[k v]|]|]; simpl; [|apply IH|done].
  rewrite <- IH. by rewrite dict_of_snoc.
Qed.

(** The property map is the dictionary of the pairs found, so the last
    pair of a key gives its value. *)
Lemma extract_properties_last (element : Xml.node) (d : Dict.t) :
  _extract_component_properties element = Some d →
  ∃ pairs, property_pairs element = Some pairs ∧
           ∀ k, Dict.get k d = last_match k pairs.
Proof.
  unfold _extract_component_properties, property_pairs.
  change (@nil (string * string)) with (dict_of []) at 1.
  rewrite harvest_pairs.
  destruct (fold_opt collect_pair (Xml.iter element) []) as [pairs|]; simpl; [|done].
  intros [= <-]. exists pairs. split; [done|]. intros k. apply dict_of_get.
Qed.

End Properties.

(** C6, as the claim states it, fails: with two property descendants of
    the same key, the map does not hold the value of the first. *)
Lemma first_match_does_not_win :
  ¬ (∀ element d pairs k v,
       _extract_component_properties element = Some d →
       property_pairs element = Some pairs →
       first_match k pairs = Some v →
       Dict.get k d = Some v).
Proof.
  intros H.
  specialize (H Sample.start_twice [("k", "second")]
                [("k", "first"); ("k", "second")] "k" "first").
  discriminate H; reflexivity.
Qed.

(** ** Component chunks *)

Section Components.

Context {case_mapping : Str.CaseMapping}.

Variable lib : Library.

Lemma keep_new_ok (P : Xml.elem → Prop) (st : list Xml.elem * gset string)
    (e : Xml.elem) :
  P e → kept_ok P st → kept_ok P (keep_new st e).
Proof.
  intros HP (HF & Hids & Hnd). unfold keep_new.
  destruct (Xml.get (Xml.nd e) "id") as [i|] eqn:Hi; [|done].
  destruct (Str.truthy i && negb (bool_decide (i ∈ st.2))) eqn:Hc; [|done].
  apply andb_true_iff in Hc as [_ Hc]. apply negb_true_iff in Hc.
  apply bool_decide_eq_false in Hc.
  assert (Hid : id_of e = i) by (unfold id_of; by rewrite Hi).
  repeat split; simpl.
  - apply Forall_app. split; [done|]. by constructor.
  - apply Forall_app. split.
    + eapply Forall_impl; [exact Hids|]. intros x [? ?]. split; [done|set_solver].
    + constructor; [|done]. rewrite Hid. split; [done|set_solver].
  - rewrite map_app. change (List.map id_of [e]) with [id_of e].
    apply NoDup_app. split; [done|]. split.
    + intros x Hx ->%list_elem_of_singleton. rewrite Hid in Hx.
      apply list_elem_of_In, in_map_iff in Hx as [e' [He' Hin]].
      rewrite Forall_forall in Hids. apply list_elem_of_In in Hin.
      destruct (Hids e' Hin) as [_ Hseen]. rewrite He' in Hseen. done.
    + apply NoDup_singleton.
Qed.

Lemma keep_new_fold_ok (P : Xml.elem → Prop) (found : list Xml.elem)
    (st : list Xml.elem * gset string) :
  Forall P found → kept_ok P st → kept_ok P (fold_left keep_new found st).
Proof.
  revert st. induction found as [|e found IH]; intros st HF Hst; simpl; [done|].
  inversion HF; subst. apply IH; [done|]. by apply keep_new_ok.
Qed.

Lemma kept_ok_empty (P : Xml.elem → Prop) : kept_ok P ([], ∅).
Proof. repeat split; simpl; constructor. Qed.

Lemma attr_is_get (name value : string) (n : Xml.node) :
  Xml.attr_is name value n = true → Xml.get n name = Some value.
Proof.
  unfold Xml.attr_is. destruct (Xml.get n name) as [v|]; [|done].
  intros ->%String.eqb_eq. done.
Qed.

Lemma has_tag_tag (t : string) (n : Xml.node) :
  Xml.has_tag t n = true → Xml.tag n = t.
Proof.
  unfold Xml.has_tag. intros [_ H]%andb_true_iff. by apply String.eqb_eq.
Qed.

Lemma outgoing_step_ok (root : Xml.node) (component_id ns : string)
    (st st' : list Xml.elem * gset string) :
  Str.contains Str.dquote component_id = false →
  ns ∈ model_aliases →
  outgoing_step lib root component_id st ns = Some st' →
  kept_ok (leaves root component_id) st →
  kept_ok (leaves root component_id) st'.
Proof.
  intros Hq Hns. unfold outgoing_step, xpath_where. rewrite Hq.
  intros [= <-] Hst. apply keep_new_fold_ok; [|done].
  apply Forall_forall. intros flow Hin.
  apply list_elem_of_In, filter_In in Hin as [Hin Hsel].
  apply andb_true_iff in Hsel as [Htag Hsrc].
  split; [by apply list_elem_of_In|]. split; [|by apply attr_is_get].
  apply has_tag_tag in Htag. rewrite Htag.
  apply list_elem_of_In in Hns. simpl in Hns.
  destruct Hns as [<-|[<-|[]]]; reflexivity.
Qed.

Lemma outgoing_fold_ok (root : Xml.node) (component_id : string)
    (aliases : list string) (st st' : list Xml.elem * gset string) :
  Str.contains Str.dquote component_id = false →
  aliases ⊆ model_aliases →
  fold_opt (outgoing_step lib root component_id) aliases st = Some st' →
  kept_ok (leaves root component_id) st →
  kept_ok (leaves root component_id) st'.
Proof.
  intros Hq. revert st. induction aliases as [|ns aliases IH]; intros st Hsub; simpl.
  - by intros [= <-].
  - destruct (outgoing_step lib root component_id st ns) as [st1|] eqn:E; [|done].
    intros Hfold Hst. eapply IH; [set_solver|exact Hfold|].
    eapply outgoing_step_ok; [done| |exact E|done]. set_solver.
Qed.

(** What a component chunk is made of. *)
Lemma create_component_chunk_inv (index : gmap string script_entry)
    (cid : string) (root : Xml.node) (iflow_file : Fs.path) (c : chunk) :
  _create_component_chunk lib index cid root iflow_file = Some c →
  ∃ ce main d,
    _extract_component_elements lib cid root = Some ce ∧
    main_component ce = Some main ∧
    _extract_component_properties (Xml.nd main) = Some d ∧
    properties c = Some d ∧
    connections c = Some (List.map id_of (outgoing_flows ce)) ∧
    component_id c = Some cid ∧
    file_type c = "bpmn" ∧
    id c = chunk_id iflow_file cid ∧
    complete_bpmn_xml c = Some (_build_complete_component_xml lib ce) ∧
    signature c = signature_of lib (_build_complete_component_xml lib ce).
Proof.
  unfold _create_component_chunk. intros H.
  bind_inv H. bind_inv H.
  destruct (negb (Xml.truthy (Xml.nd _))); [done|].
  bind_inv H. bind_inv H.
  injection H as <-. do 3 eexists. repeat split; try eassumption; reflexivity.
Qed.

Lemma extract_component_elements_outgoing (component_id : string) (root : Xml.node)
    (ce : component_elements) :
  Str.contains Str.dquote component_id = false →
  _extract_component_elements lib component_id root = Some ce →
  Forall (leaves root component_id) (outgoing_flows ce) ∧
  Forall (fun e => Xml.get (Xml.nd e) "id" = Some (id_of e)) (outgoing_flows ce) ∧
  NoDup (List.map id_of (outgoing_flows ce)).
Proof.
  intros Hq. unfold _extract_component_elements. intros H.
  bind_inv H. bind_inv H. bind_inv H. bind_inv H.
  injection H as <-. simpl.
  match goal with
  | E : fold_opt (outgoing_step _ _ _) _ _ = Some ?o |- _ =>
      rename E into Eout; rename o into out
  end.
  destruct (outgoing_fold_ok root component_id model_aliases ([], ∅) out Hq)
    as (H1 & H2 & H3); [done|done|apply kept_ok_empty|].
  repeat split; [done| |done].
  eapply Forall_impl; [exact H2|]. by intros x [? _].
Qed.

Lemma outgoing_fold_kept (root : Xml.node) (component_id : string)
    (aliases : list string) (st st' : list Xml.elem * gset string) :
  fold_opt (outgoing_step lib root component_id) aliases st = Some st' →
  kept_ok (fun _ => True) st → kept_ok (fun _ => True) st'.
Proof.
  revert st. induction aliases as [|ns aliases IH]; intros st; simpl.
  - by intros [= <-].
  - destruct (outgoing_step lib root component_id st ns) as [st1|] eqn:E; [|done].
    intros Hfold Hst. eapply IH; [exact Hfold|].
    unfold outgoing_step in E.
    destruct (xpath_where lib root _ _ "sourceRef" component_id) as [found|];
      [|done].
    injection E as <-. apply keep_new_fold_ok; [|done].
    apply Forall_forall. done.
Qed.

(** The outgoing list never repeats an id. *)
Lemma extract_component_elements_nodup (component_id : string) (root : Xml.node)
    (ce : component_elements) :
  _extract_component_elements lib component_id root = Some ce →
  NoDup (List.map id_of (outgoing_flows ce)).
Proof.
  unfold _extract_component_elements. intros H.
  bind_inv H. bind_inv H. bind_inv H. bind_inv H. injection H as <-. simpl.
  match goal with
  | E : fold_opt (outgoing_step _ _ _) _ _ = Some _ |- _ =>
      apply outgoing_fold_kept in E; [apply E|apply kept_ok_empty]
  end.
Qed.

Lemma component_chunks_elem (index : gmap string script_entry) (root : Xml.node)
    (iflow_file : Fs.path) (c : chunk) :
  c ∈ component_chunks lib index root iflow_file ↔
  ∃ cid, cid ∈ _extract_all_component_ids root ∧
         _create_component_chunk lib index cid root iflow_file = Some c.
Proof. unfold component_chunks. apply list_elem_of_omap. Qed.

Lemma keep_new_truthy (st : list Xml.elem * gset string) (e : Xml.elem) :
  Forall (fun x => Str.truthy (id_of x) = true) st.1 →
  Forall (fun x => Str.truthy (id_of x) = true) (keep_new st e).1.
Proof.
  intros H. unfold keep_new.
  destruct (Xml.get (Xml.nd e) "id") as [i|] eqn:Hi; [|done].
  destruct (Str.truthy i && negb (bool_decide (i ∈ st.2))) eqn:Hc; [|done].
  apply andb_true_iff in Hc as [Ht _]. simpl. apply Forall_app. split; [done|].
  constructor; [|done]. unfold id_of. by rewrite Hi.
Qed.

Lemma keep_new_fold_truthy (found : list Xml.elem)
    (st : list Xml.elem * gset string) :
  Forall (fun x => Str.truthy (id_of x) = true) st.1 →
  Forall (fun x => Str.truthy (id_of x) = true) (fold_left keep_new found st).1.
Proof.
  revert st. induction found as [|e found IH]; intros st Hst; simpl; [done|].
  by apply IH, keep_new_truthy.
Qed.

Lemma outgoing_fold_truthy (root : Xml.node) (component_id : string)
    (aliases : list string) (st st' : list Xml.elem * gset string) :
  fold_opt (outgoing_step lib root component_id) aliases st = Some st' →
  Forall (fun x => Str.truthy (id_of x) = true) st.1 →
  Forall (fun x => Str.truthy (id_of x) = true) st'.1.
Proof.
  revert st. induction aliases as [|ns aliases IH]; intros st; simpl.
  - by intros [= <-].
  - destruct (outgoing_step lib root component_id st ns) as [st1|] eqn:E; [|done].
    intros Hfold Hst. eapply IH; [exact Hfold|].
    unfold outgoing_step in E.
    destruct (xpath_where lib root _ _ "sourceRef" component_id) as [found|];
      [|done].
    injection E as <-. by apply keep_new_fold_truthy.
Qed.

(** The outgoing flows of a component have an id, which is not empty, and
    no two of them have the same. *)
Lemma extract_component_elements_ids (component_id : string) (root : Xml.node)
    (ce : component_elements) :
  _extract_component_elements lib component_id root = Some ce →
  Forall (fun e => Xml.get (Xml.nd e) "id" = Some (id_of e) ∧
                   Str.truthy (id_of e) = true) (outgoing_flows ce) ∧
  NoDup (List.map id_of (outgoing_flows ce)).
Proof.
  unfold _extract_component_elements. intros H.
  bind_inv H. bind_inv H. bind_inv H. bind_inv H. injection H as <-. simpl.
  match goal with
  | E : fold_opt (outgoing_step _ _ _) _ _ = Some _ |- _ =>
      pose proof (outgoing_fold_kept _ _ _ _ _ E (kept_ok_empty _)) as (_ & Hids & Hnd);
      pose proof (outgoing_fold_truthy _ _ _ _ _ E (Forall_nil_2 _)) as Ht
  end.
  split; [|done]. rewrite Forall_forall in Hids, Ht. apply Forall_forall.
  intros e He. split; [by apply Hids|by apply Ht].
Qed.

(** The two outgoing lists of a component chunk are made from the
    outgoing flows of its component. *)
Lemma create_component_chunk_flows (index : gmap string script_entry)
    (cid : string) (root : Xml.node) (iflow_file : Fs.path) (c : chunk) :
  _create_component_chunk lib index cid root iflow_file = Some c →
  ∃ ce,
    _extract_component_elements lib cid root = Some ce ∧
    sequence_flows c = Some (List.map flow_data_of (outgoing_flows ce)) ∧
    connections c = Some (List.map id_of (outgoing_flows ce)) ∧
    component_id c = Some cid.
Proof.
  unfold _create_component_chunk. intros H.
  bind_inv H. bind_inv H.
  destruct (negb (Xml.truthy (Xml.nd _))); [done|].
  bind_inv H. bind_inv H.
  injection H as <-. eexists. repeat split; try eassumption; reflexivity.
Qed.

(** A flow whose id one of the two outgoing lists of a component chunk
    holds. *)
Lemma listed_flow (index : gmap string script_entry) (cid : string)
    (root : Xml.node) (iflow_file : Fs.path) (c : chunk) (ce : component_elements)
    (fid : string) :
  _extract_component_elements lib cid root = Some ce →
  sequence_flows c = Some (List.map flow_data_of (outgoing_flows ce)) →
  connections c = Some (List.map id_of (outgoing_flows ce)) →
  fid ∈ connection_ids c ∨ Some fid ∈ sequence_flow_ids c →
  ∃ flow, flow ∈ outgoing_flows ce ∧ Xml.get (Xml.nd flow) "id" = Some fid.
Proof.
  intros Hce Hsf Hconn Hin.
  destruct (extract_component_elements_ids cid root ce Hce) as [Hids _].
  rewrite Forall_forall in Hids.
  unfold connection_ids, sequence_flow_ids in Hin. rewrite Hsf, Hconn in Hin.
  simpl in Hin. destruct Hin as [Hin|Hin].
  - apply list_elem_of_In, in_map_iff in Hin as (flow & <- & Hin).
    apply list_elem_of_In in Hin. exists flow. split; [done|]. by apply Hids.
  - rewrite map_map in Hin.
    apply list_elem_of_In, in_map_iff in Hin as (flow & Hid & Hin).
    apply list_elem_of_In in Hin. exists flow. split; [done|]. exact Hid.
Qed.

Lemma same_source (root : Xml.node) (f1 f2 : Xml.elem) (cid1 cid2 fid : string) :
  same_id_same_source root = true →
  leaves root cid1 f1 → leaves root cid2 f2 →
  Str.truthy fid = true →
  Xml.get (Xml.nd f1) "id" = Some fid → Xml.get (Xml.nd f2) "id" = Some fid →
  cid1 = cid2.
Proof.
  intros Hs (Hin1 & Ht1 & Hs1) (Hin2 & Ht2 & Hs2) Htruthy Hid1 Hid2.
  unfold same_id_same_source in Hs. rewrite forallb_forall in Hs.
  assert (Hmem : ∀ f, f ∈ Xml.xpath_all root →
                      Xml.tag (Xml.nd f) = qname "bpmn2" "sequenceFlow" →
                      In f (sequence_flow_elements root)).
  { intros f Hin Ht. unfold sequence_flow_elements, xpath_tag.
    apply filter_In. split; [by apply list_elem_of_In|].
    unfold Xml.has_tag. apply andb_true_iff. split.
    - unfold Xml.xpath_all in Hin.
      apply list_elem_of_In, filter_In in Hin as [_ Hel]. done.
    - by apply String.eqb_eq. }
  specialize (Hs f1 (Hmem f1 Hin1 Ht1)). rewrite forallb_forall in Hs.
  specialize (Hs f2 (Hmem f2 Hin2 Ht2)).
  rewrite Hid1, Hid2, Hs1, Hs2, Htruthy, String.eqb_refl in Hs. simpl in Hs.
  apply bool_decide_eq_true in Hs. congruence.
Qed.

End Components.

(** C4, as the claim states it, fails twice.  When two sequence-flow
    elements carry the same id and leave different components, the id
    stands in the outgoing lists of both component chunks.  And when the
    id of a component holds double quotes, the interpolated XPath
    expression is another one: for the start event of
    [Sample.doc_quoted_id], whose id is [Sample.quoted_id], the lists
    hold the flow that leaves the task [t]. *)
Lemma outgoing_lists_shared_or_foreign :
  ¬ (∀ lib index root iflow_file c1 c2 l1 l2 fid,
       c1 ∈ component_chunks lib index root iflow_file →
       c2 ∈ component_chunks lib index root iflow_file →
       c1 ≠ c2 →
       connections c1 = Some l1 → connections c2 = Some l2 →
       fid ∈ l1 → fid ∉ l2) ∧
  ¬ (∀ lib index root iflow_file c cid fs d,
       c ∈ component_chunks lib index root iflow_file →
       component_id c = Some cid →
       sequence_flows c = Some fs →
       d ∈ fs → fd_sourceRef d = Some cid).
Proof.
  split.
  - intros H.
    destruct (component_chunks Sample.lib ∅ Sample.doc_shared_flow_id Sample.flow_file)
      as [|cA [|cB rest]] eqn:E; try (vm_compute in E; discriminate E).
    vm_compute in E. injection E as <- <- <-.
    eapply (H Sample.lib ∅ Sample.doc_shared_flow_id Sample.flow_file _ _
              ["f1"] ["f1"] "f1").
    + vm_compute. apply list_elem_of_here.
    + vm_compute. apply list_elem_of_further, list_elem_of_here.
    + discriminate.
    + reflexivity.
    + reflexivity.
    + apply list_elem_of_here.
    + apply list_elem_of_here.
  - intros H.
    destruct (component_chunks Sample.lib_or ∅ Sample.doc_quoted_id Sample.flow_file)
      as [|cQ rest] eqn:E; try (vm_compute in E; discriminate E).
    vm_compute in E. injection E as <- <-.
    assert (Hsrc : Some "t" = Some Sample.quoted_id); [|discriminate Hsrc].
    eapply (H Sample.lib_or ∅ Sample.doc_quoted_id Sample.flow_file _ _
              [FlowData (Some "f1") (Some "t") (Some "s") ""]
              (FlowData (Some "f1") (Some "t") (Some "s") "")).
    + vm_compute. apply list_elem_of_here.
    + reflexivity.
    + reflexivity.
    + apply list_elem_of_here.
Qed.

(** C4, amended.  The two outgoing lists of a component chunk,
    [sequence_flows] and [connections], list the same flows in the same
    order, and no id twice.  When the component id holds no double quote,
    they hold only sequence-flow elements of the document whose
    [sourceRef] is that component id; and if moreover sequence-flow
    elements with the same id, when it is not empty, have the same
    [sourceRef], as they do when flow ids are unique, an id listed under
    the component stands in neither list of another such component chunk
    of the run. *)
Theorem outgoing_edges_of_component
    {case_mapping : Str.CaseMapping}
    (lib : Library) (index : gmap string script_entry) (root : Xml.node)
    (iflow_file : Fs.path) (cid : string) (c : chunk) :
  _create_component_chunk lib index cid root iflow_file = Some c →
  ∃ fs l,
    sequence_flows c = Some fs ∧ connections c = Some l ∧
    List.map fd_id fs = List.map Some l ∧
    NoDup l ∧
    (Str.contains Str.dquote cid = false →
     (∀ d, d ∈ fs →
        fd_sourceRef d = Some cid ∧
        ∃ flow, leaves root cid flow ∧ d = flow_data_of flow) ∧
     (∀ fid, fid ∈ l →
        ∃ flow, leaves root cid flow ∧ Xml.get (Xml.nd flow) "id" = Some fid) ∧
     (same_id_same_source root = true →
      ∀ c' cid' fid,
        c' ∈ component_chunks lib index root iflow_file →
        component_id c' = Some cid' →
        Str.contains Str.dquote cid' = false →
        fid ∈ l →
        fid ∈ connection_ids c' ∨ Some fid ∈ sequence_flow_ids c' →
        c' = c)).
Proof.
  intros Hc.
  destruct (create_component_chunk_flows lib index cid root iflow_file c Hc)
    as (ce & Hce & Hsf & Hconn & _).
  destruct (extract_component_elements_ids lib cid root ce Hce) as [Hids Hnd].
  rewrite Forall_forall in Hids.
  exists (List.map flow_data_of (outgoing_flows ce)),
         (List.map id_of (outgoing_flows ce)).
  split; [done|]. split; [done|]. split.
  { rewrite !map_map. apply map_ext_in. intros flow Hin.
    apply list_elem_of_In in Hin. by apply Hids. }
  split; [done|]. intros Hq.
  destruct (extract_component_elements_outgoing lib cid root ce Hq Hce)
    as (Hleave & _ & _).
  rewrite Forall_forall in Hleave.
  assert (Hflow : ∀ fid, fid ∈ List.map id_of (outgoing_flows ce) →
            ∃ flow, flow ∈ outgoing_flows ce ∧ leaves root cid flow ∧
                    Xml.get (Xml.nd flow) "id" = Some fid ∧
                    Str.truthy fid = true).
  { intros fid Hin. apply list_elem_of_In, in_map_iff in Hin as [flow [<- Hin]].
    apply list_elem_of_In in Hin. exists flow. split; [done|].
    split; [by apply Hleave|]. by apply Hids. }
  split; [|split].
  - intros d Hin. apply list_elem_of_In, in_map_iff in Hin as [flow [<- Hin]].
    apply list_elem_of_In in Hin. pose proof (Hleave flow Hin) as Hl. split.
    + by destruct Hl as (_ & _ & ?).
    + by exists flow.
  - intros fid Hin. destruct (Hflow fid Hin) as (flow & _ & Hl & Hid & _).
    by exists flow.
  - intros Hsame c' cid' fid Hc' Hcid' Hq' Hin Hin'.
    apply component_chunks_elem in Hc' as [cid'' [_ Hc']].
    destruct (create_component_chunk_flows lib index cid'' root iflow_file c' Hc')
      as (ce' & Hce' & Hsf' & Hconn' & Hid'').
    assert (cid'' = cid') as -> by congruence.
    destruct (extract_component_elements_outgoing lib cid' root ce' Hq' Hce')
      as (Hleave' & _ & _).
    rewrite Forall_forall in Hleave'.
    destruct (Hflow fid Hin) as (f1 & _ & Hl1 & Hi1 & Ht1).
    destruct (listed_flow lib index cid' root iflow_file c' ce' fid
                Hce' Hsf' Hconn' Hin') as (f2 & Hin2 & Hi2).
    assert (cid = cid') as <-.
    { eapply (same_source root f1 f2); [done|done|by apply Hleave'|done|done|done]. }
    congruence.
Qed.

Lemma outgoing_edges_of_component_witness :
  ∃ c, Sample.s1_chunk = Some c ∧
       ∃ fs l,
         sequence_flows c = Some fs ∧ connections c = Some l ∧
         List.map fd_id fs = List.map Some l ∧
         NoDup l ∧
         (Str.contains Str.dquote "S1" = false →
          (∀ d, d ∈ fs →
             fd_sourceRef d = Some "S1" ∧
             ∃ flow, leaves Sample.doc_one_flow "S1" flow ∧ d = flow_data_of flow) ∧
          (∀ fid, fid ∈ l →
             ∃ flow, leaves Sample.doc_one_flow "S1" flow ∧
                     Xml.get (Xml.nd flow) "id" = Some fid) ∧
          (same_id_same_source Sample.doc_one_flow = true →
           ∀ c' cid' fid,
             c' ∈ component_chunks Sample.lib ∅ Sample.doc_one_flow Sample.flow_file →
             component_id c' = Some cid' →
             Str.contains Str.dquote cid' = false →
             fid ∈ l →
             fid ∈ connection_ids c' ∨ Some fid ∈ sequence_flow_ids c' →
             c' = c)).
Proof.
  eexists. split; [reflexivity|].
  apply (outgoing_edges_of_component Sample.lib ∅ Sample.doc_one_flow
           Sample.flow_file "S1").
  vm_compute. reflexivity.
Defined.

(** C6, amended.  The property map of a component chunk is harvested from
    the main element and all its descendants, and for a key that several
    property elements carry the last one in document order gives the
    value. *)
Theorem last_property_match_wins
    {case_mapping : Str.CaseMapping}
    (lib : Library) (index : gmap string script_entry) (root : Xml.node)
    (iflow_file : Fs.path) (cid : string) (c : chunk) :
  _create_component_chunk lib index cid root iflow_file = Some c →
  ∃ ce main pairs d,
    _extract_component_elements lib cid root = Some ce ∧
    main_component ce = Some main ∧
    property_pairs (Xml.nd main) = Some pairs ∧
    properties c = Some d ∧
    ∀ k, Dict.get k d = last_match k pairs.
Proof.
  intros Hc.
  destruct (create_component_chunk_inv lib index cid root iflow_file c Hc)
    as (ce & main & d & Hce & Hmain & Hd & Hprops & _).
  destruct (extract_properties_last (Xml.nd main) d Hd) as (pairs & Hpairs & Hlast).
  exists ce, main, pairs, d. done.
Qed.

Lemma last_property_match_wins_witness :
  ∃ c, Sample.twice_chunk = Some c ∧
       ∃ ce main pairs d,
         _extract_component_elements Sample.lib "S1" Sample.doc_twice = Some ce ∧
         main_component ce = Some main ∧
         property_pairs (Xml.nd main) = Some pairs ∧
         properties c = Some d ∧
         ∀ k, Dict.get k d = last_match k pairs.
Proof.
  eexists. split; [reflexivity|].
  apply (last_property_match_wins Sample.lib ∅ Sample.doc_twice Sample.flow_file "S1").
  vm_compute. reflexivity.
Defined.

(** ** Script references *)

Section Scripts.

Context {case_mapping : Str.CaseMapping}.

(** The index has an entry exactly under the lower-cased names and stems
    of the scripts. *)
Lemma build_index_is_Some (scripts : list Fs.path) (idx : gmap string script_entry)
    (key : string) :
  is_Some (fold_left index_step scripts idx !! key) ↔
  is_Some (idx !! key) ∨
  ∃ p, p ∈ scripts ∧
       (key = Str.lower (Fs.p_name p) ∨
        key = Str.lower (PyPath.stem_of_name (Fs.p_name p))).
Proof.
  revert idx. induction scripts as [|p scripts IH]; intros idx; simpl.
  - split; [by left|]. intros [H|(p & Hp & _)]; [done|]. by apply elem_of_nil in Hp.
  - rewrite IH. unfold index_step, _index_script_file.
    rewrite !lookup_insert_is_Some'. split.
    + intros [[H|[H|H]]|(q & Hq & Hk)].
      * right. exists p. split; [apply list_elem_of_here|by right].
      * right. exists p. split; [apply list_elem_of_here|by left].
      * by left.
      * right. exists q. split; [by apply list_elem_of_further|done].
    + intros [H|(q & Hq & Hk)]; [by left; right; right|].
      apply elem_of_cons in Hq as [->|Hq].
      * left. destruct Hk as [->| ->]; [right; by left|by left].
      * right. by exists q.
Qed.

Lemma build_index_dom (all_files : all_files_t) (key : string) :
  is_Some (_build_script_index all_files ∅ !! key) ↔
  ∃ p, p ∈ all_files groovy_scripts ∧
       (key = Str.lower (Fs.p_name p) ∨
        key = Str.lower (PyPath.stem_of_name (Fs.p_name p))).
Proof.
  unfold _build_script_index.
  rewrite build_index_is_Some, lookup_empty. split.
  - intros [[? [=]]|H]; done.
  - by right.
Qed.

(** An entry of the index names the script that was filed last under
    its key. *)
Lemma build_index_entry (scripts : list Fs.path) (idx : gmap string script_entry)
    (key : string) (e : script_entry) :
  fold_left index_step scripts idx !! key = Some e →
  idx !! key = Some e ∨
  ∃ p, p ∈ scripts ∧ e = ScriptEntry (Fs.relpath p) None ∧
       (key = Str.lower (Fs.p_name p) ∨
        key = Str.lower (PyPath.stem_of_name (Fs.p_name p))).
Proof.
  revert idx. induction scripts as [|p scripts IH]; intros idx; simpl; [by left|].
  intros [Hstep|(q & Hq & He & Hk)]%IH.
  - unfold index_step, _index_script_file in Hstep. cbv zeta in Hstep.
    apply lookup_insert_Some in Hstep as [[<- <-]|[_ Hstep]].
    { right. exists p. split; [apply list_elem_of_here|]. split; [done|by right]. }
    apply lookup_insert_Some in Hstep as [[<- <-]|[_ Hstep]]; [|by left].
    right. exists p. split; [apply list_elem_of_here|]. split; [done|by left].
  - right. exists q. split; [by apply list_elem_of_further|done].
Qed.

Lemma build_index_named (all_files : all_files_t) (key : string) (e : script_entry) :
  _build_script_index all_files ∅ !! key = Some e →
  ∃ p, p ∈ all_files groovy_scripts ∧ e = ScriptEntry (Fs.relpath p) None ∧
       (key = Str.lower (Fs.p_name p) ∨
        key = Str.lower (PyPath.stem_of_name (Fs.p_name p))).
Proof.
  unfold _build_script_index. intros [H|H]%build_index_entry; [|done].
  by rewrite lookup_empty in H.
Qed.

Lemma resolve_step_ok (index : gmap string script_entry) (st : resolution)
    (cand : string) :
  resolution_ok index st →
  resolution_ok index (resolve_step index st cand) ∧
  Str.lower cand ∈ seen (resolve_step index st cand) ∧
  seen st ⊆ seen (resolve_step index st cand).
Proof.
  intros [Hu Hr]. unfold resolve_step.
  destruct (bool_decide (Str.lower cand ∈ seen st)) eqn:Hseen.
  - apply bool_decide_eq_true in Hseen. done.
  - destruct (lookup_script index (Str.lower cand)) as [entry|] eqn:Hl; simpl.
    + split; [|set_solver]. split; simpl; [done|].
      intros lc e [->%elem_of_singleton|Hin]%elem_of_union Hlc.
      * rewrite Hl in Hlc. injection Hlc as <-. set_solver.
      * apply elem_of_app. left. by eapply Hr.
    + split; [|set_solver]. split; simpl.
      * intros u [Hin| ->%list_elem_of_singleton]%elem_of_app; [by apply Hu|done].
      * intros lc e [->%elem_of_singleton|Hin]%elem_of_union Hlc; [congruence|].
        by eapply Hr.
Qed.

Lemma resolve_fold_ok (index : gmap string script_entry) (candidates : list string)
    (st : resolution) :
  resolution_ok index st →
  resolution_ok index (fold_left (resolve_step index) candidates st) ∧
  seen st ⊆ seen (fold_left (resolve_step index) candidates st) ∧
  ∀ cand, cand ∈ candidates →
          Str.lower cand ∈ seen (fold_left (resolve_step index) candidates st).
Proof.
  revert st. induction candidates as [|c candidates IH]; intros st Hst; simpl.
  - split; [done|]. split; [done|]. intros cand Hc. by apply elem_of_nil in Hc.
  - destruct (resolve_step_ok index st c Hst) as (H1 & H2 & H3).
    destruct (IH _ H1) as (H4 & H5 & H6).
    split; [done|]. split; [set_solver|].
    intros cand [->|Hc]%elem_of_cons; [set_solver|by apply H6].
Qed.

(** A candidate that one of the two lookups finds is reported as
    resolved, with the entry found, and not as unresolved. *)
Lemma found_is_resolved (index : gmap string script_entry)
    (candidates : list string) (cand : string) (e : script_entry) :
  cand ∈ candidates →
  lookup_script index (Str.lower cand) = Some e →
  reported e ∈ resolved (resolve_candidates index candidates) ∧
  cand ∉ unresolved (resolve_candidates index candidates).
Proof.
  intros Hc Hl. unfold resolve_candidates.
  destruct (resolve_fold_ok index candidates (Resolution [] [] ∅))
    as ((Hu & Hr) & _ & Hseen).
  { split; simpl; [intros u Hu; by apply elem_of_nil in Hu|set_solver]. }
  split.
  - eapply Hr; [by apply Hseen|done].
  - intros Hin. apply Hu in Hin. congruence.
Qed.

End Scripts.

(** C7, as the claim states it, fails: with the scripts [Validate.gsh]
    and [Validate.groovy.gsh] in the index, the candidate
    [Validate.groovy] has the stem of [Validate.gsh], a script of another
    recognised extension, and the first lookup finds it all the same,
    under the stem of [Validate.groovy.gsh]. *)
Lemma stem_match_found_by_first_lookup :
  ¬ (∀ (lib : Library) (all_files : all_files_t) (properties : Dict.t)
       (component_xml cand : string) (p : Fs.path),
       cand ∈ script_candidates lib properties component_xml →
       p ∈ all_files groovy_scripts →
       Str.lower (PyPath.stem_of_name (Fs.p_name p)) = PyPath.stem (Str.lower cand) →
       Str.lower (PyPath.suffix_of_name (Fs.p_name p))
       ≠ PyPath.suffix_of_name (PyPath.name (Str.lower cand)) →
       _build_script_index all_files ∅ !! Str.lower cand = None).
Proof.
  intros H.
  specialize (H Sample.lib
                (_discover_all_files (Fs.walk "/tmp/pkg" [] Sample.pkg_stems))
                [("scriptName", "Validate.groovy")] "" "Validate.groovy"
                (Fs.Path "/tmp/pkg" ["src"] "Validate.gsh")).
  assert (Hscripts :
    _discover_all_files (Fs.walk "/tmp/pkg" [] Sample.pkg_stems) groovy_scripts
    = [Fs.Path "/tmp/pkg" ["src"] "Validate.gsh";
       Fs.Path "/tmp/pkg" ["src"] "Validate.groovy.gsh"]) by (vm_compute; reflexivity).
  unfold _build_script_index in H. rewrite Hscripts in H.
  assert (Hfound : fold_left index_step
                     [Fs.Path "/tmp/pkg" ["src"] "Validate.gsh";
                      Fs.Path "/tmp/pkg" ["src"] "Validate.groovy.gsh"] ∅
                   !! Str.lower "Validate.groovy"
                   = Some (ScriptEntry "src/Validate.groovy.gsh" None))
    by (vm_compute; reflexivity).
  rewrite Hfound in H. discriminate H.
  - vm_compute. apply list_elem_of_here.
  - apply list_elem_of_here.
  - reflexivity.
  - vm_compute. discriminate.
Qed.

(** C7, amended.  [_resolve_component_script_files] looks every candidate
    up under its lower-cased text, then under the stem of that text, in
    the index built from the scripts.  A candidate equal up to case to
    the name of an indexed script is found by the first lookup, reported
    as resolved with the entry found, and not as unresolved; the entry
    names a script whose name or stem is the candidate up to case.  A
    candidate whose stem is, up to case, the stem of an indexed script is
    reported as resolved with the entry the lookups find, and not as
    unresolved; the first lookup misses it exactly when no indexed script
    has a name or a stem equal up to case to the whole candidate, and
    then the entry reported is the one the second lookup finds, which
    names a script whose name or stem is the stem of the candidate up to
    case. *)
Theorem script_candidate_resolution
    {case_mapping : Str.CaseMapping} (lib : Library)
    (all_files : all_files_t) (properties : Dict.t) (component_xml cand : string) :
  let index := _build_script_index all_files ∅ in
  let res := _resolve_component_script_files lib index properties component_xml in
  cand ∈ script_candidates lib properties component_xml →
  ((∃ p, p ∈ all_files groovy_scripts ∧
         Str.lower (Fs.p_name p) = Str.lower cand) →
   ∃ e, index !! Str.lower cand = Some e ∧
        reported e ∈ res.1 ∧ (cand ∉ res.2) ∧
        ∃ q, q ∈ all_files groovy_scripts ∧
             reported e = FileScript (Fs.relpath q) "" ∧
             (Str.lower cand = Str.lower (Fs.p_name q) ∨
              Str.lower cand = Str.lower (PyPath.stem_of_name (Fs.p_name q)))) ∧
  ((∃ p, p ∈ all_files groovy_scripts ∧
         Str.lower (PyPath.stem_of_name (Fs.p_name p)) = PyPath.stem (Str.lower cand)) →
   (∃ e, lookup_script index (Str.lower cand) = Some e ∧ reported e ∈ res.1) ∧
   (cand ∉ res.2) ∧
   (index !! Str.lower cand = None ↔
    ∀ q, q ∈ all_files groovy_scripts →
         Str.lower (Fs.p_name q) ≠ Str.lower cand ∧
         Str.lower (PyPath.stem_of_name (Fs.p_name q)) ≠ Str.lower cand) ∧
   (index !! Str.lower cand = None →
    ∃ e, index !! PyPath.stem (Str.lower cand) = Some e ∧ reported e ∈ res.1 ∧
         ∃ q, q ∈ all_files groovy_scripts ∧
              reported e = FileScript (Fs.relpath q) "" ∧
              (PyPath.stem (Str.lower cand) = Str.lower (Fs.p_name q) ∨
               PyPath.stem (Str.lower cand)
               = Str.lower (PyPath.stem_of_name (Fs.p_name q))))).
Proof.
  intros index res Hc.
  assert (Hfound : ∀ e, lookup_script index (Str.lower cand) = Some e →
                        reported e ∈ res.1 ∧ cand ∉ res.2).
  { intros e He. subst res. unfold _resolve_component_script_files. cbv zeta.
    cbn [fst snd]. by apply found_is_resolved. }
  split.
  - intros (p & Hp & Hname).
    assert (Hsome : is_Some (index !! Str.lower cand)).
    { apply build_index_dom. exists p. split; [done|]. by left. }
    destruct Hsome as [e He]. exists e. split; [done|].
    destruct (Hfound e) as [Hr Hu]; [unfold lookup_script; by rewrite He|].
    split; [done|]. split; [done|].
    destruct (build_index_named all_files _ e He) as (q & Hq & -> & Hk).
    by exists q.
  - intros (p & Hp & Hstem).
    assert (Hsome : is_Some (index !! PyPath.stem (Str.lower cand))).
    { apply build_index_dom. exists p. split; [done|]. by right. }
    destruct Hsome as [e2 He2].
    assert (Hlook : ∃ e, lookup_script index (Str.lower cand) = Some e).
    { unfold lookup_script. destruct (index !! Str.lower cand); eauto. }
    destruct Hlook as [e He]. destruct (Hfound e He) as [Hr Hu].
    split; [by exists e|]. split; [done|]. split.
    + rewrite eq_None_not_Some. unfold index. rewrite build_index_dom. split.
      * intros Hno q Hq. split; intros Hk; apply Hno; exists q; split; try done.
        -- by left.
        -- by right.
      * intros Hno (q & Hq & Hk). destruct (Hno q Hq) as [H1 H2].
        destruct Hk; congruence.
    + intros Hnone. exists e2. split; [done|]. split.
      * apply Hfound. unfold lookup_script. by rewrite Hnone.
      * destruct (build_index_named all_files _ e2 He2) as (q & Hq & -> & Hk).
        by exists q.
Qed.

Lemma script_candidate_resolution_witness :
  let index :=
    _build_script_index
      (_discover_all_files (Fs.walk "/tmp/pkg" [] Sample.pkg_ok)) ∅ in
  let res :=
    _resolve_component_script_files Sample.lib index
      [("scriptName", "VALIDATE.GSH"); ("otherScript", "Validate.groovy")] "" in
  (∃ e, index !! "validate.gsh" = Some e ∧
        reported e ∈ res.1 ∧ ("VALIDATE.GSH" ∉ res.2) ∧
        reported e = FileScript "src/Validate.gsh" "") ∧
  (index !! "validate.groovy" = None) ∧
  (∃ e, index !! "validate" = Some e ∧
        reported e ∈ res.1 ∧
        reported e = FileScript "src/Validate.gsh" "") ∧
  ("Validate.groovy" ∉ res.2).
Proof.
  intros index res.
  assert (Hscripts :
    _discover_all_files (Fs.walk "/tmp/pkg" [] Sample.pkg_ok) groovy_scripts
    = [Fs.Path "/tmp/pkg" ["src"] "Validate.gsh"]) by (vm_compute; reflexivity).
  assert (Hin : ∃ p, p ∈ _discover_all_files (Fs.walk "/tmp/pkg" [] Sample.pkg_ok)
                           groovy_scripts ∧ p = Fs.Path "/tmp/pkg" ["src"] "Validate.gsh").
  { eexists. split; [|reflexivity]. rewrite Hscripts. apply list_elem_of_here. }
  destruct Hin as (p & Hp & Heq).
  destruct (script_candidate_resolution Sample.lib
              (_discover_all_files (Fs.walk "/tmp/pkg" [] Sample.pkg_ok))
              [("scriptName", "VALIDATE.GSH"); ("otherScript", "Validate.groovy")]
              "" "VALIDATE.GSH") as [Hname _].
  { vm_compute. apply list_elem_of_here. }
  destruct (script_candidate_resolution Sample.lib
              (_discover_all_files (Fs.walk "/tmp/pkg" [] Sample.pkg_ok))
              [("scriptName", "VALIDATE.GSH"); ("otherScript", "Validate.groovy")]
              "" "Validate.groovy") as [_ Hstem].
  { vm_compute. apply list_elem_of_further, list_elem_of_here. }
  split.
  { destruct Hname as (e & He & Hr & Hu & q & Hq & Hrep & _).
    { exists p. split; [done|]. by rewrite Heq. }
    exists e. split; [exact He|]. split; [exact Hr|]. split; [exact Hu|].
    rewrite Hscripts in Hq. apply list_elem_of_singleton in Hq.
    rewrite Hrep, Hq. reflexivity. }
  destruct Hstem as (_ & Hu & Hnone & Hsecond).
  { exists p. split; [done|]. by rewrite Heq. }
  assert (Hmiss : index !! "validate.groovy" = None).
  { apply Hnone. intros q. rewrite Hscripts. intros ->%list_elem_of_singleton.
    split; vm_compute; discriminate. }
  split; [exact Hmiss|]. split; [|exact Hu].
  destruct (Hsecond Hmiss) as (e & He & Hr & q & Hq & Hrep & _).
  exists e. split; [exact He|]. split; [exact Hr|].
  rewrite Hscripts in Hq. apply list_elem_of_singleton in Hq.
  rewrite Hrep, Hq. reflexivity.
Defined.

(** ** Flow chunks *)

(** The two aliases name the same namespace, so the loop of
    [_extract_sequence_flows] meets every sequence-flow element twice. *)
Lemma sequence_flows_visited_twice (lib : Library) (root : Xml.node)
    (iflow_file : Fs.path) :
  _extract_sequence_flows lib root iflow_file =
  collect_until_error (sequence_flow_chunk lib root iflow_file)
    (sequence_flow_elements root ++ sequence_flow_elements root).
Proof.
  unfold _extract_sequence_flows, sequence_flow_elements, model_aliases. simpl.
  by rewrite app_nil_r.
Qed.

(** C2, on a document with one message flow [m1] and one sequence flow
    [f1]: each extraction returns two chunks for its flow, with the same
    chunk id. *)
Theorem flow_chunk_emitted_twice (lib : Library) :
  List.map id (_extract_message_flows lib Sample.doc_two_flows Sample.flow_file)
  = ["flow_m1"; "flow_m1"] ∧
  List.map id (_extract_sequence_flows lib Sample.doc_two_flows Sample.flow_file)
  = ["flow_f1"; "flow_f1"].
Proof. split; vm_compute; reflexivity. Qed.

(** ** The run as a whole *)

Section Run.

Context {case_mapping : Str.CaseMapping}.

Variable lib : Library.
Variable embedding_generator : option (string → string → string).

Lemma related_step_fold (listing : list (Fs.path * Fs.file)) (file_type : category)
    (files : list Fs.path) (st : chunker * list Fs.path) :
  let st' := fold_left (related_step lib listing file_type) files st in
  self_chunks st'.1 =
    self_chunks st.1 ++
    omap (related_chunk lib listing) (List.map (pair file_type) files) ∧
  self_processed_files st'.1 = self_processed_files st.1 ∧
  st'.2 = st.2 ++ List.map snd (List.filter (gives_chunk lib listing)
                                  (List.map (pair file_type) files)).
Proof.
  revert st. induction files as [|p files IH]; intros st; simpl.
  - by rewrite !app_nil_r.
  - destruct (IH (related_step lib listing file_type st p)) as (H1 & H2 & H3).
    rewrite H1, H2, H3. clear IH H1 H2 H3.
    unfold related_step, gives_chunk, related_chunk. simpl.
    destruct (_process_related_file lib listing p file_type) as [c|]; simpl.
    + by rewrite <- !app_assoc.
    + done.
Qed.

Lemma related_all_fold (listing : list (Fs.path * Fs.file)) (all_files : all_files_t)
    (cats : list category) (st : chunker * list Fs.path) :
  let st' :=
    fold_left
      (fun st file_type =>
         if decide (file_type = main_iflow) then st
         else fold_left (related_step lib listing file_type) (all_files file_type) st)
      cats st in
  self_chunks st'.1 =
    self_chunks st.1 ++ omap (related_chunk lib listing) (related_items cats all_files) ∧
  self_processed_files st'.1 = self_processed_files st.1 ∧
  st'.2 = st.2 ++ List.map snd (List.filter (gives_chunk lib listing)
                                  (related_items cats all_files)).
Proof.
  revert st. induction cats as [|ft cats IH]; intros st; simpl.
  - by rewrite !app_nil_r.
  - destruct (decide (ft = main_iflow)) as [->|Hne].
    + simpl. apply IH.
    + destruct (IH (fold_left (related_step lib listing ft) (all_files ft) st))
        as (H1 & H2 & H3).
      destruct (related_step_fold listing ft (all_files ft) st) as (G1 & G2 & G3).
      rewrite H1, H2, H3, G1, G2, G3.
      rewrite omap_app, List.filter_app, map_app, <- !app_assoc. done.
Qed.

(** The chunks of a run: those of the main document, then those of the
    auxiliary files. *)
Lemma run_chunks (base : string) (pkg : Fs.dir) :
  self_chunks (run lib embedding_generator base pkg) =
  main_chunks lib embedding_generator base pkg ++
  omap (related_chunk lib (Fs.walk base [] pkg))
    (related_items all_categories (_discover_all_files (Fs.walk base [] pkg))).
Proof.
  unfold run, main_chunks, _process_all_related_files. cbv zeta.
  match goal with
  | |- context [fold_left ?f all_categories (?self, [])] =>
      destruct (related_all_fold (Fs.walk base [] pkg)
                  (_discover_all_files (Fs.walk base [] pkg))
                  all_categories (self, [])) as (H1 & _ & _)
  end.
  cbv zeta in H1. cbn [self_chunks]. rewrite H1. cbn [fst].
  by destruct (_find_main_iflow _).
Qed.

(** The processed files of a run: the main document when there is one,
    then the auxiliary files that gave a chunk. *)
Lemma run_processed (base : string) (pkg : Fs.dir) :
  self_processed_files (run lib embedding_generator base pkg) =
  option_list (_find_main_iflow (_discover_all_files (Fs.walk base [] pkg))) ++
  List.map snd
    (List.filter (gives_chunk lib (Fs.walk base [] pkg))
       (related_items all_categories (_discover_all_files (Fs.walk base [] pkg)))).
Proof.
  unfold run, _process_all_related_files. cbv zeta.
  match goal with
  | |- context [fold_left ?f all_categories (?self, [])] =>
      destruct (related_all_fold (Fs.walk base [] pkg)
                  (_discover_all_files (Fs.walk base [] pkg))
                  all_categories (self, [])) as (_ & H2 & H3)
  end.
  cbv zeta in H2, H3. cbn [self_processed_files]. rewrite H2, H3. cbn [fst snd].
  by destruct (_find_main_iflow _).
Qed.

(** *** The kinds of the chunks *)

Lemma collect_until_error_Forall {A B : Type} (f : A → option B) (P : B → Prop)
    (l : list A) :
  (∀ x y, f x = Some y → P y) → Forall P (collect_until_error f l).
Proof.
  intros Hf. induction l as [|x l IH]; simpl; [constructor|].
  destruct (f x) as [y|] eqn:E; [|constructor].
  constructor; [by eapply Hf|done].
Qed.

Lemma container_fold_Forall (mk : string → Xml.node → chunk) (fallback : string)
    (P : chunk → Prop) (l : list Xml.elem) (st : list chunk * gset string) :
  (∀ i n, P (mk i n)) → Forall P st.1 →
  Forall P (fold_left (container_step mk fallback) l st).1.
Proof.
  intros Hmk. revert st. induction l as [|e l IH]; intros st Hst; simpl; [done|].
  apply IH. unfold container_step.
  destruct (bool_decide _); [done|]. simpl.
  apply Forall_app. split; [done|]. constructor; [apply Hmk|constructor].
Qed.

Lemma component_chunks_kind (index : gmap string script_entry) (root : Xml.node)
    (iflow_file : Fs.path) :
  Forall (element_chunk lib iflow_file) (component_chunks lib index root iflow_file).
Proof.
  apply Forall_forall. intros c [cid [_ Hc]]%component_chunks_elem.
  destruct (create_component_chunk_inv lib index cid root iflow_file c Hc)
    as (ce & main & d & _ & _ & _ & _ & _ & Hcid & Hft & Hid & Hxml & Hsig).
  split; [by left|]. split; [by exists cid|]. eauto.
Qed.

Lemma message_flows_kind (root : Xml.node) (iflow_file : Fs.path) :
  Forall (element_chunk lib iflow_file) (_extract_message_flows lib root iflow_file).
Proof.
  apply collect_until_error_Forall. intros flow c H.
  unfold message_flow_chunk in H. bind_inv H. injection H as <-.
  split; [right; by left|]. split; [by eexists|]. eexists. split; [by left|done].
Qed.

Lemma sequence_flows_kind (root : Xml.node) (iflow_file : Fs.path) :
  Forall (element_chunk lib iflow_file) (_extract_sequence_flows lib root iflow_file).
Proof.
  apply collect_until_error_Forall. intros flow c H.
  unfold sequence_flow_chunk in H. cbv zeta in H. bind_inv H. injection H as <-.
  split; [right; by right|]. split; [by eexists|]. eexists. split; [by left|done].
Qed.

Lemma processes_kind (root : Xml.node) (iflow_file : Fs.path) :
  Forall (element_chunk lib iflow_file)
    (_extract_processes lib embedding_generator root iflow_file) ∧
  Forall (element_chunk lib iflow_file)
    (_extract_subprocesses lib embedding_generator root iflow_file).
Proof.
  split; (apply container_fold_Forall; [|by constructor]);
    intros i n;
    (split; [by left|split; [by eexists|eexists; split; [by right|done]]]).
Qed.

(** The chunks of a parsed document: the full-document chunk, then
    element chunks. *)
Lemma main_document_chunks (listing : list (Fs.path * Fs.file))
    (index : gmap string script_entry) (main : Fs.path) (text : string)
    (root : Xml.node) :
  Fs.read_text listing main = Some text →
  fromstring lib text = Some root →
  ∃ rest,
    _process_main_iflow_with_components lib embedding_generator listing index main
    = _create_full_iflow_chunk lib main text :: rest ∧
    Forall (element_chunk lib main) rest.
Proof.
  intros Hread Hparse. unfold _process_main_iflow_with_components.
  rewrite Hread, Hparse. eexists. split; [reflexivity|].
  destruct (processes_kind root main).
  repeat (apply Forall_app; split);
    auto using component_chunks_kind, message_flows_kind, sequence_flows_kind.
Qed.

(** The chunk of an auxiliary file carries the name of the category as
    its [file_type] and has no component id. *)
Lemma related_chunk_kind (listing : list (Fs.path * Fs.file))
    (item : category * Fs.path) (c : chunk) :
  related_chunk lib listing item = Some c →
  file_type c = category_name item.1 ∧ component_id c = None ∧
  id c = chunk_id item.2 (category_name item.1) ∧
  ∃ text, Fs.read_text listing item.2 = Some text ∧
          content c = Some text ∧ signature c = signature_of lib text.
Proof.
  unfold related_chunk, _process_related_file. intros H.
  destruct (skipped_before_read _ _); [done|].
  destruct (Fs.read_text listing item.2) as [text|] eqn:Hr; [|done].
  destruct (_ <? _)%N; [done|]. injection H as <-.
  repeat split. by exists text.
Qed.

Lemma related_items_elem (all_files : all_files_t) (item : category * Fs.path) :
  item ∈ related_items all_categories all_files ↔
  item.1 ≠ main_iflow ∧ item.2 ∈ all_files item.1.
Proof.
  unfold related_items. rewrite list_elem_of_In, in_flat_map. split.
  - intros (ft & _ & Hin). destruct (decide (ft = main_iflow)); [done|].
    apply in_map_iff in Hin as (p & <- & Hp). split; [done|].
    by apply list_elem_of_In.
  - intros [Hne Hin]. exists item.1. split.
    + destruct item as [[] p]; simpl; tauto.
    + destruct (decide (item.1 = main_iflow)); [done|].
      apply in_map_iff. exists item.2. split; [by destruct item|].
      by apply list_elem_of_In.
Qed.

End Run.

Lemma filter_file_type_none (t : string) (l : list chunk) :
  Forall (fun c => file_type c ≠ t) l →
  List.filter (fun c => String.eqb (file_type c) t) l = [].
Proof.
  induction 1 as [|c l Hc _ IH]; simpl; [done|].
  destruct (String.eqb_spec (file_type c) t); [done|apply IH].
Qed.

Lemma element_chunk_not_full (lib : Library) (iflow_file : Fs.path) (c : chunk) :
  element_chunk lib iflow_file c → file_type c ≠ "bpmn_full_xml".
Proof. intros [[H|[H|H]] _]; rewrite H; discriminate. Qed.

Lemma related_chunks_not_full {case_mapping : Str.CaseMapping}
    (lib : Library) (listing : list (Fs.path * Fs.file))
    (items : list (category * Fs.path)) :
  Forall (fun c => file_type c ≠ "bpmn_full_xml")
    (omap (related_chunk lib listing) items).
Proof.
  apply Forall_forall. intros c (item & _ & Hc)%list_elem_of_omap.
  apply related_chunk_kind in Hc as (Hft & _). rewrite Hft.
  destruct item as [[] p]; discriminate.
Qed.

(** C1.  When the package has a process-definition document that is read
    and parses, the chunks of the run hold exactly one chunk of file type
    [bpmn_full_xml]; its component id is [full_xml] and its content is the
    text read from the document. *)
Theorem exactly_one_full_document_chunk
    {case_mapping : Str.CaseMapping}
    (lib : Library) (embedding_generator : option (string → string → string))
    (base : string) (pkg : Fs.dir) (main : Fs.path) (text : string)
    (root : Xml.node) :
  _find_main_iflow (_discover_all_files (Fs.walk base [] pkg)) = Some main →
  Fs.read_text (Fs.walk base [] pkg) main = Some text →
  fromstring lib text = Some root →
  ∃ full,
    List.filter (fun c => String.eqb (file_type c) "bpmn_full_xml")
      (chunks (process_complete_iflow_package lib embedding_generator base pkg))
    = [full] ∧
    component_id full = Some "full_xml" ∧
    content full = Some text.
Proof.
  intros Hmain Hread Hparse.
  exists (_create_full_iflow_chunk lib main text).
  split; [|done].
  unfold process_complete_iflow_package. cbn [chunks].
  rewrite run_chunks. unfold main_chunks. cbv zeta. rewrite Hmain.
  destruct (main_document_chunks lib embedding_generator (Fs.walk base [] pkg)
              (_build_script_index (_discover_all_files (Fs.walk base [] pkg)) ∅)
              main text root Hread Hparse) as (rest & -> & Hrest).
  rewrite List.filter_app. cbn [List.filter file_type _create_full_iflow_chunk].
  rewrite String.eqb_refl.
  rewrite (filter_file_type_none _ rest).
  - rewrite (filter_file_type_none _ _ (related_chunks_not_full lib _ _)). done.
  - eapply Forall_impl; [exact Hrest|]. intros c. apply element_chunk_not_full.
Qed.

Lemma exactly_one_full_document_chunk_witness :
  ∃ full,
    List.filter (fun c => String.eqb (file_type c) "bpmn_full_xml")
      (chunks (process_complete_iflow_package Sample.lib None "/tmp/pkg" Sample.pkg_ok))
    = [full] ∧
    component_id full = Some "full_xml" ∧
    content full = Some "one flow".
Proof.
  apply (exactly_one_full_document_chunk Sample.lib None "/tmp/pkg" Sample.pkg_ok
           Sample.flow_file "one flow" Sample.doc_one_flow);
    vm_compute; reflexivity.
Defined.

(** C3, as the claim states it, fails: a package without a
    process-definition document and with one script yields the chunk of
    the script. *)
Lemma auxiliary_chunks_without_document :
  ¬ (∀ lib embedding_generator base pkg,
       no_parsed_document lib base pkg →
       chunks (process_complete_iflow_package lib embedding_generator base pkg) = []).
Proof.
  intros H.
  specialize (H Sample.lib None "/tmp/pkg" Sample.pkg_no_main).
  assert (Hno : no_parsed_document Sample.lib "/tmp/pkg" Sample.pkg_no_main)
    by (vm_compute; exact I).
  apply H in Hno. vm_compute in Hno. discriminate Hno.
Qed.

(** C3, amended.  When the process-definition document is missing, or is
    read and does not parse, the run has no chunk made from that document:
    its chunks are exactly the chunks of the auxiliary files, none of which
    has a component id. *)
Theorem no_document_leaves_auxiliary_chunks
    {case_mapping : Str.CaseMapping}
    (lib : Library) (embedding_generator : option (string → string → string))
    (base : string) (pkg : Fs.dir) :
  no_parsed_document lib base pkg →
  main_chunks lib embedding_generator base pkg = [] ∧
  ∀ c, c ∈ chunks (process_complete_iflow_package lib embedding_generator base pkg) ↔
       ∃ file_type p,
         file_type ≠ main_iflow ∧
         p ∈ _discover_all_files (Fs.walk base [] pkg) file_type ∧
         _process_related_file lib (Fs.walk base [] pkg) p file_type = Some c ∧
         component_id c = None.
Proof.
  intros Hno.
  assert (Hmain : main_chunks lib embedding_generator base pkg = []).
  { unfold main_chunks, no_parsed_document in *. cbv zeta in *.
    destruct (_find_main_iflow _) as [main|]; [|done].
    destruct Hno as (text & Hread & Hparse).
    unfold _process_main_iflow_with_components. by rewrite Hread, Hparse. }
  split; [done|]. intros c.
  unfold process_complete_iflow_package. cbn [chunks].
  rewrite run_chunks, Hmain, app_nil_l, list_elem_of_omap. split.
  - intros (item & Hin & Hc). apply related_items_elem in Hin as [Hne Hin].
    exists item.1, item.2. split; [done|]. split; [done|]. split; [done|].
    by apply related_chunk_kind in Hc as (_ & ? & _).
  - intros (ft & p & Hne & Hin & Hc & _). exists (ft, p).
    split; [by apply related_items_elem|done].
Qed.

Lemma no_document_leaves_auxiliary_chunks_witness :
  main_chunks Sample.lib None "/tmp/pkg" Sample.pkg_bad_xml = [] ∧
  ∀ c, c ∈ chunks (process_complete_iflow_package Sample.lib None "/tmp/pkg"
                     Sample.pkg_bad_xml) ↔
       ∃ file_type p,
         file_type ≠ main_iflow ∧
         p ∈ _discover_all_files (Fs.walk "/tmp/pkg" [] Sample.pkg_bad_xml) file_type ∧
         _process_related_file Sample.lib (Fs.walk "/tmp/pkg" [] Sample.pkg_bad_xml)
           p file_type = Some c ∧
         component_id c = None.
Proof.
  apply (no_document_leaves_auxiliary_chunks Sample.lib None "/tmp/pkg"
           Sample.pkg_bad_xml).
  vm_compute. exists "<broken". split; reflexivity.
Defined.

(** ** Coverage *)

Lemma main_iflow_discovered (all_files : all_files_t) (main : Fs.path) :
  _find_main_iflow all_files = Some main → main ∈ all_files main_iflow.
Proof.
  unfold _find_main_iflow. destruct (all_files main_iflow); [done|].
  intros [= ->]. apply list_elem_of_here.
Qed.

Lemma not_missing_when_processed (all_files : all_files_t) (processed : list Fs.path)
    (p : Fs.path) :
  p ∈ processed → p ∉ missing_files (_verify_complete_coverage all_files processed).
Proof.
  intros Hp Hin. cbn [missing_files _verify_complete_coverage] in Hin.
  apply list_elem_of_In, in_flat_map in Hin as (ft & _ & Hin).
  apply filter_In in Hin as [_ Hin]. apply negb_true_iff in Hin.
  by apply bool_decide_eq_false in Hin.
Qed.

(** C10.  When the process-definition document is found and read but
    does not parse, it gives no chunk, yet it is in the list of processed
    files: the report counts it as processed and does not list it as
    missing. *)
Theorem unparsable_document_counted_processed
    {case_mapping : Str.CaseMapping}
    (lib : Library) (embedding_generator : option (string → string → string))
    (base : string) (pkg : Fs.dir) (main : Fs.path) (text : string) :
  _find_main_iflow (_discover_all_files (Fs.walk base [] pkg)) = Some main →
  Fs.read_text (Fs.walk base [] pkg) main = Some text →
  fromstring lib text = None →
  (_process_main_iflow_with_components lib embedding_generator (Fs.walk base [] pkg)
     (_build_script_index (_discover_all_files (Fs.walk base [] pkg)) ∅) main = []) ∧
  main_chunks lib embedding_generator base pkg = [] ∧
  main ∈ self_processed_files (run lib embedding_generator base pkg) ∧
  (main ∉ missing_files
            (report (process_complete_iflow_package lib embedding_generator base pkg))) ∧
  1 ≤ bd_processed
        (file_type_breakdown
           (report (process_complete_iflow_package lib embedding_generator base pkg))
           main_iflow) ∧
  1 ≤ total_files_processed
        (report (process_complete_iflow_package lib embedding_generator base pkg)).
Proof.
  intros Hmain Hread Hparse.
  assert (Hnone : _process_main_iflow_with_components lib embedding_generator
                    (Fs.walk base [] pkg)
                    (_build_script_index (_discover_all_files (Fs.walk base [] pkg)) ∅)
                    main = []).
  { unfold _process_main_iflow_with_components. by rewrite Hread, Hparse. }
  assert (Hproc : main ∈ self_processed_files (run lib embedding_generator base pkg)).
  { rewrite run_processed, Hmain. apply elem_of_app. left. apply list_elem_of_here. }
  split; [done|]. split.
  { unfold main_chunks. cbv zeta. by rewrite Hmain. }
  split; [done|]. split.
  { by apply not_missing_when_processed. }
  assert (Hlen : ∀ l : list Fs.path, main ∈ l → 1 ≤ List.length l).
  { intros l Hl. destruct l; [by apply elem_of_nil in Hl|simpl; lia]. }
  split.
  - cbn [report process_complete_iflow_package file_type_breakdown
           _verify_complete_coverage bd_processed].
    apply Hlen. unfold processed_in. apply list_elem_of_In, filter_In.
    split; [by apply list_elem_of_In, main_iflow_discovered|].
    by apply bool_decide_eq_true.
  - cbn [report process_complete_iflow_package total_files_processed
           _verify_complete_coverage].
    by apply Hlen.
Qed.

Lemma unparsable_document_counted_processed_witness :
  (_process_main_iflow_with_components Sample.lib None
     (Fs.walk "/tmp/pkg" [] Sample.pkg_bad_xml)
     (_build_script_index
        (_discover_all_files (Fs.walk "/tmp/pkg" [] Sample.pkg_bad_xml)) ∅)
     (Fs.Path "/tmp/pkg" [] "flow.iflw") = []) ∧
  main_chunks Sample.lib None "/tmp/pkg" Sample.pkg_bad_xml = [] ∧
  Fs.Path "/tmp/pkg" [] "flow.iflw"
    ∈ self_processed_files (run Sample.lib None "/tmp/pkg" Sample.pkg_bad_xml) ∧
  (Fs.Path "/tmp/pkg" [] "flow.iflw"
     ∉ missing_files
         (report (process_complete_iflow_package Sample.lib None "/tmp/pkg"
                    Sample.pkg_bad_xml))) ∧
  1 ≤ bd_processed
        (file_type_breakdown
           (report (process_complete_iflow_package Sample.lib None "/tmp/pkg"
                      Sample.pkg_bad_xml))
           main_iflow) ∧
  1 ≤ total_files_processed
        (report (process_complete_iflow_package Sample.lib None "/tmp/pkg"
                   Sample.pkg_bad_xml)).
Proof.
  apply (unparsable_document_counted_processed Sample.lib None "/tmp/pkg"
           Sample.pkg_bad_xml (Fs.Path "/tmp/pkg" [] "flow.iflw") "<broken");
    vm_compute; reflexivity.
Defined.

Lemma map_inj_NoDup {A B : Type} (g : A → B) (l : list A) :
  (∀ x y, g x = g y → x = y) → NoDup l → NoDup (List.map g l).
Proof.
  intros Hg. induction 1 as [|x l Hx Hl IH]; simpl; constructor; [|done].
  intros (y & Hxy & Hy)%list_elem_of_In%in_map_iff.
  apply Hg in Hxy as ->. by apply list_elem_of_In in Hy.
Qed.

(** The directories of a walked path extend those the walk started
    from. *)
Lemma walk_dirs (base : string) (pkg : Fs.dir) :
  ∀ dirs pf, pf ∈ Fs.walk base dirs pkg → ∃ rest, Fs.p_dirs pf.1 = dirs ++ rest.
Proof.
  induction pkg as [files subdirs IH] using dir_nested_ind.
  intros dirs pf Hin. simpl in Hin. apply elem_of_app in Hin as [Hin|Hin].
  - apply list_elem_of_In, in_map_iff in Hin as (f & <- & _).
    exists []. simpl. by rewrite app_nil_r.
  - apply list_elem_of_In, in_flat_map in Hin as (nd & Hnd & Hin).
    destruct (String.eqb nd.1 "__pycache__"); [by destruct Hin|].
    rewrite Forall_forall in IH. apply list_elem_of_In in Hnd, Hin.
    destruct (IH nd Hnd _ _ Hin) as [rest Hrest].
    exists (nd.1 :: rest). by rewrite Hrest, <- app_assoc.
Qed.

(** In a package whose directories have distinct entry names, the walk
    yields pairwise distinct paths. *)
Lemma walk_NoDup (base : string) (pkg : Fs.dir) :
  Fs.distinct_names pkg = true →
  ∀ dirs, NoDup (List.map fst (Fs.walk base dirs pkg)).
Proof.
  induction pkg as [files subdirs IH] using dir_nested_ind.
  intros Hd dirs. simpl in Hd.
  apply andb_true_iff in Hd as [[Hfiles Hsubs]%andb_true_iff Hrec].
  apply bool_decide_eq_true in Hfiles, Hsubs. rewrite forallb_forall in Hrec.
  simpl. rewrite map_app, map_map. simpl. apply NoDup_app. split; [|split].
  - rewrite <- (map_map Fs.f_name (Fs.Path base dirs)).
    apply map_inj_NoDup; [|done]. by intros x y [= ->].
  - intros p (f & <- & _)%list_elem_of_In%in_map_iff
             ([q g] & Hq & (nd & _ & Hin)%in_flat_map)%list_elem_of_In%in_map_iff.
    destruct (String.eqb nd.1 "__pycache__"); [by destruct Hin|].
    apply list_elem_of_In, walk_dirs in Hin as [rest Hrest].
    simpl in Hq, Hrest. subst q. simpl in Hrest.
    rewrite <- app_assoc in Hrest.
    apply (f_equal List.length) in Hrest. rewrite length_app in Hrest.
    simpl in Hrest. lia.
  - clear Hfiles. induction subdirs as [|nd subdirs IHs]; simpl; [constructor|].
    apply Forall_cons in IH as [Hnd IH]. simpl in Hsubs.
    apply NoDup_cons in Hsubs as [Hfresh Hsubs].
    rewrite map_app. apply NoDup_app. split; [|split].
    + destruct (String.eqb nd.1 "__pycache__"); [constructor|].
      apply Hnd. apply Hrec. by left.
    + intros p Hp ([q g] & Hq & (nd' & Hnd' & Hin)%in_flat_map)%list_elem_of_In%in_map_iff.
      destruct (String.eqb nd.1 "__pycache__"); [by apply elem_of_nil in Hp|].
      destruct (String.eqb nd'.1 "__pycache__"); [by destruct Hin|].
      apply list_elem_of_In, in_map_iff in Hp as ([q' g'] & Hq' & Hin').
      apply list_elem_of_In, walk_dirs in Hin as [r Hr].
      apply list_elem_of_In, walk_dirs in Hin' as [r' Hr'].
      simpl in *. subst q q'. rewrite Hr', <- !app_assoc in Hr.
      apply app_inv_head in Hr. injection Hr as Hname _.
      apply Hfresh. rewrite Hname. apply list_elem_of_In, in_map. done.
    + apply IHs; [exact IH|exact Hsubs|]. intros x Hx. apply Hrec. by right.
Qed.

Section Coverage.

Context {case_mapping : Str.CaseMapping}.

Lemma filter_sublist {A : Type} (f : A → bool) (l : list A) :
  List.filter f l `sublist_of` l.
Proof.
  induction l as [|x l IH]; simpl; [constructor|].
  destruct (f x); by constructor.
Qed.

Lemma map_sublist {A B : Type} (g : A → B) (l1 l2 : list A) :
  l1 `sublist_of` l2 → List.map g l1 `sublist_of` List.map g l2.
Proof. induction 1; simpl; by constructor. Qed.

(** Among distinct items, selecting those that belong to a sub-list
    gives back the sub-list. *)
Lemma filter_mem_sublist {A : Type} `{EqDecision A} (P D : list A) :
  NoDup D → P `sublist_of` D →
  List.filter (fun x => bool_decide (x ∈ P)) D = P.
Proof.
  intros Hnd Hsub. induction Hsub as [|x P D Hsub IH|x P D Hsub IH]; simpl.
  - done.
  - apply NoDup_cons in Hnd as [Hx Hnd].
    rewrite bool_decide_eq_true_2 by apply list_elem_of_here. f_equal.
    transitivity (List.filter (fun y => bool_decide (y ∈ P)) D); [|by apply IH].
    apply filter_ext_in. intros y Hy.
    apply bool_decide_ext. rewrite elem_of_cons. split; [|tauto].
    intros [->|H]; [|done]. by apply list_elem_of_In in Hy.
  - apply NoDup_cons in Hnd as [Hx Hnd].
    rewrite bool_decide_eq_false_2; [by apply IH|].
    intros Hin. apply Hx. by eapply sublist_subseteq.
Qed.

Lemma filter_partition_length {A : Type} (f : A → bool) (l : list A) :
  List.length (List.filter f l) + List.length (List.filter (fun x => negb (f x)) l)
  = List.length l.
Proof. induction l as [|x l IH]; simpl; [done|]. destruct (f x); simpl; lia. Qed.

Lemma filter_flat_map {A B : Type} (f : B → bool) (g : A → list B) (l : list A) :
  List.filter f (List.flat_map g l) = List.flat_map (fun x => List.filter f (g x)) l.
Proof.
  induction l as [|x l IH]; simpl; [done|]. by rewrite List.filter_app, IH.
Qed.

Lemma flat_map_length {A B : Type} (g : A → list B) (l : list A) :
  List.length (List.flat_map g l) = list_sum (List.map (fun x => List.length (g x)) l).
Proof.
  induction l as [|x l IH]; simpl; [done|]. by rewrite length_app, IH.
Qed.

Lemma filter_comm {A : Type} (f g : A → bool) (l : list A) :
  List.filter f (List.filter g l) = List.filter g (List.filter f l).
Proof.
  induction l as [|x l IH]; simpl; [done|].
  destruct (f x) eqn:Hf, (g x) eqn:Hg; simpl; rewrite ?Hf, ?Hg, IH; done.
Qed.

Lemma flat_map_elem_sublist {A B : Type} (g : A → list B) (l : list A) (x : A) :
  x ∈ l → g x `sublist_of` List.flat_map g l.
Proof.
  induction 1 as [x l|x y l _ IH]; simpl.
  - by apply sublist_inserts_r.
  - by apply sublist_inserts_l.
Qed.

Lemma flat_map_NoDup {A B : Type} (g : A → list B) (l : list A) :
  NoDup l → (∀ x, NoDup (g x)) →
  (∀ x y b, b ∈ g x → b ∈ g y → x = y) →
  NoDup (List.flat_map g l).
Proof.
  intros Hl Hg Hdisj. induction Hl as [|x l Hx Hl IH]; simpl; [constructor|].
  apply NoDup_app. split; [apply Hg|]. split; [|done].
  intros b Hb Hin. apply list_elem_of_In, in_flat_map in Hin as (y & Hy & Hby).
  apply list_elem_of_In in Hy, Hby.
  assert (x = y) as -> by (by eapply Hdisj). done.
Qed.

Lemma all_categories_NoDup : NoDup all_categories.
Proof. unfold all_categories. repeat (constructor; [set_solver|]). constructor. Qed.

Lemma all_categories_elem (c : category) : c ∈ all_categories.
Proof. unfold all_categories. destruct c; set_solver. Qed.

Variable listing : list (Fs.path * Fs.file).
Hypothesis listing_NoDup : NoDup (List.map fst listing).

Lemma listing_file_unique (p : Fs.path) (f1 f2 : Fs.file) :
  (p, f1) ∈ listing → (p, f2) ∈ listing → f1 = f2.
Proof.
  clear -listing_NoDup. induction listing as [|[q f] l IH]; simpl in *.
  - intros H. by apply elem_of_nil in H.
  - apply NoDup_cons in listing_NoDup as [Hq Hl].
    assert (Hfst : ∀ g, (p, g) ∈ l → p ∈ List.map fst l).
    { intros g Hg. apply list_elem_of_In, in_map_iff. exists (p, g).
      split; [done|by apply list_elem_of_In]. }
    intros [[= -> ->]|H1]%elem_of_cons [[= ->]|H2]%elem_of_cons.
    + done.
    + by apply Hfst in H2.
    + subst. by apply Hfst in H1.
    + by apply IH.
Qed.

Lemma discovered_NoDup : NoDup (discovered listing).
Proof.
  apply flat_map_NoDup; [apply all_categories_NoDup| |].
  - intros c. rewrite discover_spec.
    eapply sublist_NoDup; [exact listing_NoDup|apply map_sublist, filter_sublist].
  - intros c1 c2 p (f1 & Hin1 & Hc1)%discover_elem (f2 & Hin2 & Hc2)%discover_elem.
    assert (f1 = f2) as -> by (by eapply listing_file_unique). congruence.
Qed.

Lemma category_sublist (c : category) :
  _discover_all_files listing c `sublist_of` discovered listing.
Proof. apply flat_map_elem_sublist, all_categories_elem. Qed.

Lemma missing_files_spec (processed : list Fs.path) :
  missing_files (_verify_complete_coverage (_discover_all_files listing) processed)
  = missing_in processed (discovered listing).
Proof.
  cbn [missing_files _verify_complete_coverage].
  unfold missing_in, discovered. by rewrite filter_flat_map.
Qed.

Lemma total_files_spec :
  total_files (_discover_all_files listing) = List.length (discovered listing).
Proof. unfold total_files, discovered. by rewrite flat_map_length. Qed.

End Coverage.

Lemma percentage_full (processed total : nat) :
  (percentage processed total == 100)%Q ↔ total = 0 ∨ processed = total.
Proof.
  unfold percentage. destruct total as [|t]; simpl.
  - split; [by left|reflexivity].
  - unfold Qeq, Qdiv, Qmult, Qinv, inject_Z. simpl.
    rewrite Pos.mul_1_r. split.
    + intros H. right. lia.
    + intros [H|H]; [done|]. rewrite H. lia.
Qed.

Lemma related_processed_sublist {case_mapping : Str.CaseMapping}
    (lib : Library) (listing : list (Fs.path * Fs.file))
    (all_files : all_files_t) (cats : list category) :
  List.map snd (List.filter (gives_chunk lib listing) (related_items cats all_files))
    `sublist_of` List.flat_map all_files cats.
Proof.
  induction cats as [|c cats IH]; simpl; [constructor|].
  rewrite List.filter_app, map_app. apply sublist_app; [|done].
  destruct (decide (c = main_iflow)); [apply sublist_nil_l|].
  induction (all_files c) as [|p l IHl]; simpl; [constructor|].
  destruct (gives_chunk lib listing (c, p)); simpl; by constructor.
Qed.

Lemma run_processed_sublist
    {case_mapping : Str.CaseMapping}
    (lib : Library) (embedding_generator : option (string → string → string))
    (base : string) (pkg : Fs.dir) :
  self_processed_files (run lib embedding_generator base pkg)
    `sublist_of` discovered (Fs.walk base [] pkg).
Proof.
  rewrite run_processed. unfold discovered, all_categories.
  cbn [List.flat_map related_items]. rewrite decide_True by done.
  cbn [app]. apply sublist_app.
  - unfold _find_main_iflow. destruct (_discover_all_files _ main_iflow); simpl.
    + constructor.
    + apply sublist_skip, sublist_nil_l.
  - apply (related_processed_sublist lib (Fs.walk base [] pkg)
             (_discover_all_files (Fs.walk base [] pkg))
             [groovy_scripts; xsd_files; message_mappings; wsdl_files;
              properties_files; xslt_files; json_files; manifest_files]).
Qed.

(** C5.  For a package in whose directories the entries have distinct
    names, the coverage report of a run is the account of the run.  In
    every category the total is the number of files discovered in the
    category, the processed count is the number of those that are in the
    list of processed files of the run, and the processed count plus the
    number of files of the category in the list of missing files is the
    total.  Overall, the number of discovered files is the number of
    files in all categories, the number of processed files is the length
    of the list of processed files, which are discovered files, the
    missing files are the discovered files that were not processed, the
    number of processed files plus the length of the list of missing
    files is the number of discovered files, and the percentage is 100
    exactly when no file is missing. *)
Theorem coverage_report_invariant
    {case_mapping : Str.CaseMapping}
    (lib : Library) (embedding_generator : option (string → string → string))
    (base : string) (pkg : Fs.dir) :
  Fs.distinct_names pkg = true →
  let coverage :=
    report (process_complete_iflow_package lib embedding_generator base pkg) in
  let all_files := _discover_all_files (Fs.walk base [] pkg) in
  let processed := self_processed_files (run lib embedding_generator base pkg) in
  (∀ file_type,
     bd_total (file_type_breakdown coverage file_type)
     = List.length (all_files file_type) ∧
     bd_processed (file_type_breakdown coverage file_type)
     = List.length
         (List.filter (fun p => bool_decide (p ∈ processed)) (all_files file_type)) ∧
     bd_processed (file_type_breakdown coverage file_type)
     + List.length
         (List.filter (fun p => bool_decide (p ∈ all_files file_type))
            (missing_files coverage))
     = bd_total (file_type_breakdown coverage file_type)) ∧
  total_files_discovered coverage
  = List.length (List.flat_map all_files all_categories) ∧
  total_files_processed coverage = List.length processed ∧
  processed `sublist_of` List.flat_map all_files all_categories ∧
  (∀ p, p ∈ missing_files coverage ↔
        (∃ file_type, p ∈ all_files file_type) ∧ p ∉ processed) ∧
  total_files_processed coverage + List.length (missing_files coverage)
  = total_files_discovered coverage ∧
  ((coverage_percentage coverage == 100)%Q ↔ missing_files coverage = []).
Proof.
  intros Hnd coverage all_files processed.
  pose proof (walk_NoDup base pkg Hnd []) as Hwalk. clear Hnd.
  rename Hwalk into Hnd.
  set (listing := Fs.walk base [] pkg) in *.
  assert (HP : processed `sublist_of` discovered listing)
    by apply run_processed_sublist.
  assert (HD : NoDup (discovered listing)) by by apply discovered_NoDup.
  assert (Hmiss : missing_files coverage = missing_in processed (discovered listing)).
  { subst coverage. cbn [report process_complete_iflow_package].
    apply missing_files_spec. }
  assert (Hsum : List.length processed
                 + List.length (missing_in processed (discovered listing))
                 = List.length (discovered listing)).
  { rewrite <- (filter_mem_sublist processed (discovered listing) HD HP) at 1.
    apply (filter_partition_length (fun x => bool_decide (x ∈ processed))). }
  rewrite Hmiss. subst coverage.
  cbn [report process_complete_iflow_package file_type_breakdown bd_processed
         bd_total total_files_processed total_files_discovered coverage_percentage
         _verify_complete_coverage].
  fold listing. fold all_files. fold processed.
  split; [|split; [|split; [|split; [|split; [|split]]]]].
  - intros ft. split; [done|]. split; [done|].
    unfold missing_in at 1. rewrite filter_comm.
    rewrite (filter_mem_sublist _ _ HD (category_sublist listing ft)).
    apply (filter_partition_length (fun x => bool_decide (x ∈ processed))).
  - subst all_files. by rewrite total_files_spec.
  - done.
  - exact HP.
  - intros p. unfold missing_in. rewrite list_elem_of_In, filter_In.
    rewrite negb_true_iff, bool_decide_eq_false, <- list_elem_of_In.
    unfold discovered. rewrite list_elem_of_In, in_flat_map.
    split.
    + intros [(ft & Hft & Hin) Hp]. split; [|done].
      exists ft. by apply list_elem_of_In.
    + intros [(ft & Hin) Hp]. split; [|done].
      exists ft. split; [apply list_elem_of_In, all_categories_elem|].
      by apply list_elem_of_In.
  - subst all_files. by rewrite total_files_spec.
  - subst all_files. rewrite percentage_full, total_files_spec. split.
    + intros H. apply length_zero_iff_nil. lia.
    + intros H. rewrite H in Hsum. simpl in Hsum. right. lia.
Qed.

Lemma coverage_report_invariant_witness :
  let coverage :=
    report (process_complete_iflow_package Sample.lib None "/tmp/pkg" Sample.pkg_gaps) in
  let all_files := _discover_all_files (Fs.walk "/tmp/pkg" [] Sample.pkg_gaps) in
  let processed :=
    self_processed_files (run Sample.lib None "/tmp/pkg" Sample.pkg_gaps) in
  (∀ file_type,
     bd_total (file_type_breakdown coverage file_type)
     = List.length (all_files file_type) ∧
     bd_processed (file_type_breakdown coverage file_type)
     = List.length
         (List.filter (fun p => bool_decide (p ∈ processed)) (all_files file_type)) ∧
     bd_processed (file_type_breakdown coverage file_type)
     + List.length
         (List.filter (fun p => bool_decide (p ∈ all_files file_type))
            (missing_files coverage))
     = bd_total (file_type_breakdown coverage file_type)) ∧
  total_files_discovered coverage
  = List.length (List.flat_map all_files all_categories) ∧
  total_files_processed coverage = List.length processed ∧
  processed `sublist_of` List.flat_map all_files all_categories ∧
  (∀ p, p ∈ missing_files coverage ↔
        (∃ file_type, p ∈ all_files file_type) ∧ p ∉ processed) ∧
  total_files_processed coverage + List.length (missing_files coverage)
  = total_files_discovered coverage ∧
  ((coverage_percentage coverage == 100)%Q ↔ missing_files coverage = []).
Proof.
  apply (coverage_report_invariant Sample.lib None "/tmp/pkg" Sample.pkg_gaps).
  vm_compute. reflexivity.
Defined.

(** The report of that run: four files discovered, two of them
    processed, the second document and the script that cannot be read
    missing. *)
Example coverage_report_of_a_run :
  let coverage :=
    report (process_complete_iflow_package Sample.lib None "/tmp/pkg" Sample.pkg_gaps) in
  total_files_discovered coverage = 4 ∧
  total_files_processed coverage = 2 ∧
  missing_files coverage
  = [Fs.Path "/tmp/pkg" [] "b.iflw"; Fs.Path "/tmp/pkg" [] "locked.groovy"] ∧
  (coverage_percentage coverage == 50)%Q ∧
  bd_total (file_type_breakdown coverage groovy_scripts) = 2 ∧
  bd_processed (file_type_breakdown coverage groovy_scripts) = 1.
Proof. vm_compute. repeat split; reflexivity. Qed.

(** ** Two runs over the same package *)

Section TwoRuns.

Context {case_mapping : Str.CaseMapping}.

Variable lib : Library.
Variables gen1 gen2 : option (string → string → string).
Variables base1 base2 : string.

Lemma walk_rebase (pkg : Fs.dir) :
  ∀ dirs, Fs.walk base2 dirs pkg
          = List.map (rebase_entry base2) (Fs.walk base1 dirs pkg).
Proof.
  induction pkg as [files subdirs IH] using dir_nested_ind.
  intros dirs. simpl. rewrite map_app, map_map. f_equal.
  induction subdirs as [|nd subdirs IHs]; simpl; [done|].
  apply Forall_cons in IH as [Hnd IH].
  rewrite map_app, (IHs IH). f_equal.
  destruct (String.eqb nd.1 "__pycache__"); [done|apply Hnd].
Qed.

Lemma walk_base (pkg : Fs.dir) :
  ∀ dirs pf, pf ∈ Fs.walk base1 dirs pkg → Fs.p_base pf.1 = base1.
Proof.
  induction pkg as [files subdirs IH] using dir_nested_ind.
  intros dirs pf Hin. simpl in Hin. apply elem_of_app in Hin as [Hin|Hin].
  - apply list_elem_of_In, in_map_iff in Hin as (f & <- & _). done.
  - apply list_elem_of_In, in_flat_map in Hin as (nd & Hnd & Hin).
    destruct (String.eqb nd.1 "__pycache__"); [by destruct Hin|].
    rewrite Forall_forall in IH. apply list_elem_of_In in Hnd.
    eapply (IH nd Hnd). by apply list_elem_of_In.
Qed.

Lemma filter_map {A B : Type} (f : B → bool) (g : A → B) (l : list A) :
  List.filter f (List.map g l) = List.map g (List.filter (fun x => f (g x)) l).
Proof.
  induction l as [|x l IH]; simpl; [done|]. destruct (f (g x)); simpl; by rewrite IH.
Qed.

Lemma discover_rebase (listing : list (Fs.path * Fs.file)) (c : category) :
  _discover_all_files (List.map (rebase_entry base2) listing) c
  = List.map (rebase base2) (_discover_all_files listing c).
Proof. rewrite !discover_spec, filter_map, !map_map. done. Qed.

Lemma lookup_rebase (listing : list (Fs.path * Fs.file)) (p : Fs.path) :
  (∀ pf, pf ∈ listing → Fs.p_base pf.1 = Fs.p_base p) →
  Fs.lookup (List.map (rebase_entry base2) listing) (rebase base2 p)
  = Fs.lookup listing p.
Proof.
  induction listing as [|[q f] l IH]; intros Hb; simpl; [done|].
  assert (Hq : Fs.p_base q = Fs.p_base p) by apply (Hb (q, f)), list_elem_of_here.
  rewrite IH by (intros pf Hpf; by apply Hb, list_elem_of_further).
  destruct (decide (q = p)) as [->|Hne].
  - by rewrite decide_True.
  - rewrite decide_False; [done|]. intros Heq. apply Hne.
    destruct q, p. unfold rebase in Heq. simpl in *. congruence.
Qed.

(** The container chunks of two runs agree on id and signature: only
    the description depends on the generator. *)
Lemma container_fold_key (mk1 mk2 : string → Xml.node → chunk) (fallback : string)
    (l : list Xml.elem) (st1 st2 : list chunk * gset string) :
  (∀ i n, id_and_signature (mk1 i n) = id_and_signature (mk2 i n)) →
  List.map id_and_signature st1.1 = List.map id_and_signature st2.1 →
  st1.2 = st2.2 →
  List.map id_and_signature (fold_left (container_step mk1 fallback) l st1).1
  = List.map id_and_signature (fold_left (container_step mk2 fallback) l st2).1.
Proof.
  intros Hmk. revert st1 st2.
  induction l as [|e l IH]; intros st1 st2 H1 H2; simpl; [done|].
  apply IH; unfold container_step; rewrite H2;
    destruct (bool_decide _); simpl; try done.
  rewrite !map_app, H1. simpl. by rewrite Hmk.
Qed.

Lemma main_document_rebase (listing : list (Fs.path * Fs.file))
    (index : gmap string script_entry) (main : Fs.path) :
  (∀ pf, pf ∈ listing → Fs.p_base pf.1 = Fs.p_base main) →
  List.map id_and_signature
    (_process_main_iflow_with_components lib gen2
       (List.map (rebase_entry base2) listing) index (rebase base2 main))
  = List.map id_and_signature
      (_process_main_iflow_with_components lib gen1 listing index main).
Proof.
  intros Hb. unfold _process_main_iflow_with_components, Fs.read_text.
  rewrite (lookup_rebase listing main Hb).
  destruct (Fs.lookup listing main) as [f|]; [|done].
  destruct (Fs.f_text f) as [text|]; [|done].
  destruct (fromstring lib text) as [root|]; [|done].
  rewrite !map_app. f_equal. f_equal. f_equal. f_equal. f_equal.
  - by apply container_fold_key.
  - by apply container_fold_key.
Qed.

Lemma related_chunk_rebase (listing : list (Fs.path * Fs.file))
    (item : category * Fs.path) :
  (∀ pf, pf ∈ listing → Fs.p_base pf.1 = Fs.p_base item.2) →
  related_chunk lib (List.map (rebase_entry base2) listing)
    (item.1, rebase base2 item.2)
  = related_chunk lib listing item.
Proof.
  intros Hb. unfold related_chunk, _process_related_file, skipped_before_read,
    Fs.getsize, Fs.read_text.
  cbn [fst snd]. rewrite (lookup_rebase listing item.2 Hb). done.
Qed.

End TwoRuns.

Lemma omap_cons_app {A B : Type} (f : A → option B) (x : A) (l : list A) :
  omap f (x :: l) = option_list (f x) ++ omap f l.
Proof. simpl. by destruct (f x). Qed.

Section TwoRunsCompared.

Context {case_mapping : Str.CaseMapping}.

Variable lib : Library.
Variables gen1 gen2 : option (string → string → string).
Variables base1 base2 : string.
Variable pkg : Fs.dir.

Local Abbreviation listing1 := (Fs.walk base1 [] pkg).
Local Abbreviation files1 := (_discover_all_files (Fs.walk base1 [] pkg)).
Local Abbreviation files2 := (_discover_all_files (Fs.walk base2 [] pkg)).

Lemma files_rebase (c : category) :
  files2 c = List.map (rebase base2) (files1 c).
Proof.
  rewrite (walk_rebase base1 base2). apply discover_rebase.
Qed.

Lemma discovered_base (c : category) (p : Fs.path) :
  p ∈ files1 c → ∀ pf, pf ∈ listing1 → Fs.p_base pf.1 = Fs.p_base p.
Proof.
  intros (f & Hin & _)%discover_elem pf Hpf.
  rewrite (walk_base base1 pkg [] pf Hpf).
  symmetry. exact (walk_base base1 pkg [] (p, f) Hin).
Qed.

Lemma index_same :
  _build_script_index files2 ∅ = _build_script_index files1 ∅.
Proof.
  unfold _build_script_index. rewrite files_rebase.
  generalize (files1 groovy_scripts) (∅ : gmap string script_entry).
  intros l. induction l as [|p l IH]; intros index; simpl; [done|]. apply IH.
Qed.

Lemma related_items_same (cats : list category) :
  related_items cats files2
  = List.map (fun item => (item.1, rebase base2 item.2)) (related_items cats files1).
Proof.
  induction cats as [|c cats IH]; simpl; [done|].
  rewrite map_app, IH. f_equal.
  destruct (decide (c = main_iflow)); [done|].
  by rewrite files_rebase, !map_map.
Qed.

Lemma related_chunks_same :
  omap (related_chunk lib (Fs.walk base2 [] pkg)) (related_items all_categories files2)
  = omap (related_chunk lib listing1) (related_items all_categories files1).
Proof.
  rewrite related_items_same, (walk_rebase base1 base2).
  assert (Hb : Forall (fun item => ∀ pf, pf ∈ listing1 →
                         Fs.p_base pf.1 = Fs.p_base item.2)
                 (related_items all_categories files1)).
  { apply Forall_forall. intros item [_ Hin]%related_items_elem.
    by eapply discovered_base. }
  revert Hb.
  induction (related_items all_categories files1) as [|item items IH];
    intros Hb; [done|].
  apply Forall_cons in Hb as [Hitem Hb]. cbn [List.map].
  rewrite !omap_cons_app, (IH Hb).
  by rewrite (related_chunk_rebase lib base2 listing1 item Hitem).
Qed.

Lemma main_chunks_same :
  List.map id_and_signature (main_chunks lib gen2 base2 pkg)
  = List.map id_and_signature (main_chunks lib gen1 base1 pkg).
Proof.
  unfold main_chunks. cbv zeta.
  rewrite index_same. unfold _find_main_iflow. rewrite files_rebase.
  destruct (files1 main_iflow) as [|main rest] eqn:E; simpl; [done|].
  rewrite (walk_rebase base1 base2). apply main_document_rebase.
  apply (discovered_base main_iflow). rewrite E. apply list_elem_of_here.
Qed.

End TwoRunsCompared.

Lemma main_chunks_shape
    {case_mapping : Str.CaseMapping}
    (lib : Library) (embedding_generator : option (string → string → string))
    (base : string) (pkg : Fs.dir) (c : chunk) :
  c ∈ main_chunks lib embedding_generator base pkg →
  ∃ main,
    _find_main_iflow (_discover_all_files (Fs.walk base [] pkg)) = Some main ∧
    (∃ cid, component_id c = Some cid ∧ id c = chunk_id main cid) ∧
    ∃ text, (content c = Some text ∨ complete_bpmn_xml c = Some text) ∧
            signature c = signature_of lib text.
Proof.
  unfold main_chunks. cbv zeta.
  destruct (_find_main_iflow _) as [main|]; [|by intros ?%elem_of_nil].
  intros Hc. exists main. split; [done|].
  unfold _process_main_iflow_with_components in Hc.
  destruct (Fs.read_text _ main) as [text|] eqn:Hread; [|by apply elem_of_nil in Hc].
  destruct (fromstring lib text) as [root|] eqn:Hparse; [|by apply elem_of_nil in Hc].
  destruct (main_document_chunks lib embedding_generator _
              (_build_script_index (_discover_all_files (Fs.walk base [] pkg)) ∅)
              main text root Hread Hparse) as (rest & Heq & Hrest).
  unfold _process_main_iflow_with_components in Heq.
  rewrite Hread, Hparse in Heq. rewrite Heq in Hc.
  apply elem_of_cons in Hc as [->|Hc].
  - split; [by exists "full_xml"|]. exists text. split; [by left|done].
  - rewrite Forall_forall in Hrest. by destruct (Hrest c Hc) as (_ & ? & ?).
Qed.

(** C8.  Two runs over the same package, under whatever base directory
    and with whatever description generator, give chunk lists with the
    same ids and signatures, chunk by chunk.  The id of a chunk that has a
    component id is the stem of the document, an underscore and that
    component id; the id of a chunk of an auxiliary file is the stem of
    the file, an underscore and the category; every signature is the
    digest, cut to sixteen characters, of the markup or content of its
    chunk. *)
Theorem rerun_same_ids_and_signatures
    {case_mapping : Str.CaseMapping}
    (lib : Library) (gen1 gen2 : option (string → string → string))
    (base1 base2 : string) (pkg : Fs.dir) :
  List.map id_and_signature
    (chunks (process_complete_iflow_package lib gen1 base1 pkg))
  = List.map id_and_signature
      (chunks (process_complete_iflow_package lib gen2 base2 pkg)) ∧
  ∀ c, c ∈ chunks (process_complete_iflow_package lib gen1 base1 pkg) →
       ((∃ main cid,
           _find_main_iflow (_discover_all_files (Fs.walk base1 [] pkg)) = Some main ∧
           component_id c = Some cid ∧
           id c = PyPath.stem_of_name (Fs.p_name main) +:+ "_" +:+ cid) ∨
        (∃ file_type p,
           p ∈ _discover_all_files (Fs.walk base1 [] pkg) file_type ∧
           component_id c = None ∧
           id c = PyPath.stem_of_name (Fs.p_name p) +:+ "_"
                    +:+ category_name file_type)) ∧
       ∃ text, (content c = Some text ∨ complete_bpmn_xml c = Some text) ∧
               signature c = String.substring 0 16 (sha256_hexdigest lib text).
Proof.
  split.
  - unfold process_complete_iflow_package. cbn [chunks].
    rewrite !run_chunks, !map_app.
    rewrite (main_chunks_same lib gen1 gen2 base1 base2 pkg).
    by rewrite (related_chunks_same lib base1 base2 pkg).
  - intros c. unfold process_complete_iflow_package. cbn [chunks].
    rewrite run_chunks. intros [Hc|Hc]%elem_of_app.
    + apply main_chunks_shape in Hc as (main & Hmain & (cid & Hcid & Hid) & Hsig).
      split; [|exact Hsig]. left. by exists main, cid.
    + apply list_elem_of_omap in Hc as (item & Hin & Hc).
      apply related_items_elem in Hin as [_ Hin].
      apply related_chunk_kind in Hc as (_ & Hcid & Hid & text & _ & Htext & Hsig).
      split.
      * right. by exists item.1, item.2.
      * exists text. split; [by left|done].
Qed.

Lemma rerun_same_ids_and_signatures_witness :
  List.map id_and_signature
    (chunks (process_complete_iflow_package Sample.lib None "/tmp/pkg" Sample.pkg_ok))
  = List.map id_and_signature
      (chunks (process_complete_iflow_package Sample.lib
                 (Some (fun _ _ => "A process.")) "/var/run/upload" Sample.pkg_ok)) ∧
  ∃ c, Sample.s1_in_run = Some c ∧
       ((∃ main cid,
           _find_main_iflow
             (_discover_all_files (Fs.walk "/tmp/pkg" [] Sample.pkg_ok)) = Some main ∧
           component_id c = Some cid ∧
           id c = PyPath.stem_of_name (Fs.p_name main) +:+ "_" +:+ cid) ∨
        (∃ file_type p,
           p ∈ _discover_all_files (Fs.walk "/tmp/pkg" [] Sample.pkg_ok) file_type ∧
           component_id c = None ∧
           id c = PyPath.stem_of_name (Fs.p_name p) +:+ "_"
                    +:+ category_name file_type)) ∧
       ∃ text, (content c = Some text ∨ complete_bpmn_xml c = Some text) ∧
               signature c = String.substring 0 16 (sha256_hexdigest Sample.lib text).
Proof.
  split.
  - apply (rerun_same_ids_and_signatures Sample.lib None
             (Some (fun _ _ => "A process.")) "/tmp/pkg" "/var/run/upload"
             Sample.pkg_ok).
  - eexists. split; [reflexivity|].
    apply (proj2 (rerun_same_ids_and_signatures Sample.lib None None
                    "/tmp/pkg" "/tmp/pkg" Sample.pkg_ok)).
    vm_compute. apply list_elem_of_further, list_elem_of_here.
Defined.

(** * Further properties *)

(** ** Strings *)

Section Strings.

Context {case_mapping : Str.CaseMapping}.

Lemma append_cons (x : ascii) (a b : string) :
  String x a +:+ b = String x (a +:+ b).
Proof. reflexivity. Qed.

Lemma append_assoc (a b c : string) : (a +:+ b) +:+ c = a +:+ (b +:+ c).
Proof.
  induction a as [|x a IH]; [reflexivity|].
  rewrite !append_cons. by rewrite IH.
Qed.

Lemma append_nil_r (a : string) : a +:+ "" = a.
Proof.
  induction a as [|x a IH]; [reflexivity|].
  rewrite append_cons. by rewrite IH.
Qed.

Lemma startswith_spec (p s : string) :
  Str.startswith p s = true ↔ ∃ v, s = p +:+ v.
Proof.
  revert s. induction p as [|a p IH]; intros s; simpl.
  - split; [|done]. intros _. by exists s.
  - destruct s as [|b s].
    { split; [done|]. intros [v Hv]. rewrite append_cons in Hv. discriminate. }
    destruct (Ascii.eqb_spec a b) as [->|Hne].
    + rewrite IH. split; intros [v Hv]; exists v.
      * rewrite append_cons. by rewrite Hv.
      * rewrite append_cons in Hv. congruence.
    + split; [done|]. intros [v Hv]. rewrite append_cons in Hv. congruence.
Qed.

Lemma contains_spec (p s : string) :
  Str.contains p s = true ↔ ∃ u v, s = u +:+ p +:+ v.
Proof.
  induction s as [|b s IH]; simpl.
  - destruct (Str.startswith p "") eqn:Hp.
    + apply startswith_spec in Hp as [v Hv]. split; [|done].
      intros _. exists "", v. exact Hv.
    + split; [done|]. intros (u & v & Huv).
      destruct u as [|x u]; [|rewrite append_cons in Huv; discriminate].
      assert (Str.startswith p "" = true) by (apply startswith_spec; eauto).
      congruence.
  - destruct (Str.startswith p (String b s)) eqn:Hp.
    + apply startswith_spec in Hp as [v Hv]. split; [|done].
      intros _. exists "", v. exact Hv.
    + rewrite IH. split.
      * intros (u & v & ->). exists (String b u), v. by rewrite append_cons.
      * intros (u & v & Huv). destruct u as [|x u].
        -- assert (Str.startswith p (String b s) = true)
             by (apply startswith_spec; eauto).
           congruence.
        -- rewrite append_cons in Huv. injection Huv as -> ->. eauto.
Qed.

Lemma endswith_spec (p s : string) :
  Str.endswith p s = true ↔ ∃ u, s = u +:+ p.
Proof.
  induction s as [|b s IH]; cbn [Str.endswith].
  - destruct (String.eqb_spec "" p) as [<-|Hne].
    + split; [|done]. intros _. by exists "".
    + split; [done|]. intros [u Hu].
      destruct u as [|x u]; [|rewrite append_cons in Hu; discriminate].
      by destruct Hne.
  - destruct (String.eqb_spec (String b s) p) as [<-|Hne].
    + split; [|done]. intros _. by exists "".
    + rewrite IH. split.
      * intros [u ->]. exists (String b u). by rewrite append_cons.
      * intros [u Hu]. destruct u as [|x u]; [by destruct Hne|].
        rewrite append_cons in Hu. injection Hu as -> ->. eauto.
Qed.

Lemma endswith_contains (p s : string) :
  Str.endswith p s = true → Str.contains p s = true.
Proof.
  rewrite endswith_spec, contains_spec. intros [u ->].
  exists u, "". by rewrite append_nil_r.
Qed.

Lemma contains_longer (a b c s : string) :
  Str.contains (a +:+ b +:+ c) s = true → Str.contains b s = true.
Proof.
  rewrite !contains_spec. intros (u & v & ->).
  exists (u +:+ a), (c +:+ v). by rewrite !append_assoc.
Qed.

Lemma mem_elem (x : string) (xs : list string) :
  Str.mem x xs = true ↔ x ∈ xs.
Proof.
  unfold Str.mem. rewrite existsb_exists. split.
  - intros (y & Hy & Heq). apply String.eqb_eq in Heq as ->.
    by apply list_elem_of_In.
  - intros Hx. exists x. split; [by apply list_elem_of_In|apply String.eqb_refl].
Qed.

Lemma contains_any_false (patterns : list string) (s pattern : string) :
  Str.contains_any patterns s = false → pattern ∈ patterns →
  Str.contains pattern s = false.
Proof.
  unfold Str.contains_any. intros Hno Hin.
  destruct (Str.contains pattern s) eqn:Hc; [|done].
  assert (existsb (fun p => Str.contains p s) patterns = true); [|congruence].
  apply existsb_exists. exists pattern. split; [by apply list_elem_of_In|done].
Qed.

End Strings.

(** ** The description generator *)

Section Descriptions.

Context {case_mapping : Str.CaseMapping}.

Lemma endswith_truthy (p s : string) :
  Str.endswith p s = true → Str.truthy p = true → Str.truthy s = true.
Proof.
  intros [u ->]%endswith_spec Hp. destruct u as [|x u]; [exact Hp|done].
Qed.

Lemma endswith_append (u p : string) : Str.endswith p (u +:+ p) = true.
Proof. apply endswith_spec. by exists u. Qed.

Lemma substring_0_0 (s : string) : String.substring 0 0 s = "".
Proof. by destruct s. Qed.

(** Cutting a string after the last occurrence of a character leaves a
    string that ends with the character. *)
Lemma rfind_cut (c : ascii) (s : string) (i : nat) :
  Str.rfind c s = Some i →
  Str.endswith (String c "") (String.substring 0 (S i) s) = true.
Proof.
  revert i. induction s as [|a s IH]; intros i Hr; [discriminate Hr|].
  cbn [Str.rfind] in Hr. destruct (Str.rfind c s) as [j|] eqn:Hj.
  - injection Hr as <-.
    change (String.substring 0 (S (S j)) (String a s))
      with (String a (String.substring 0 (S j) s)).
    specialize (IH j eq_refl). apply endswith_spec in IH as [u Hu].
    apply endswith_spec. exists (String a u). rewrite append_cons. by rewrite Hu.
  - destruct (Ascii.eqb_spec a c) as [->|]; [|discriminate Hr].
    injection Hr as <-.
    change (String.substring 0 1 (String c s))
      with (String c (String.substring 0 0 s)).
    rewrite substring_0_0. apply endswith_spec. by exists "".
Qed.

Lemma rfind_cut_ends (c : ascii) (s : string) (k : Z) :
  (0 <= k)%Z → Generator.rfind c s = k →
  Str.endswith (String c "") (String.substring 0 (Z.to_nat (k + 1)) s) = true.
Proof.
  unfold Generator.rfind. intros Hk Hr.
  destruct (Str.rfind c s) as [i|] eqn:Hi; [|lia].
  subst k. replace (Z.to_nat (Z.of_nat i + 1)) with (S i) by lia.
  by apply rfind_cut.
Qed.

Lemma complete_sentences_ends (description : string) :
  Str.truthy description = true →
  Str.truthy (Generator.complete_sentences description) = true ∧
  Generator.ends_sentence (Generator.complete_sentences description) = true.
Proof.
  intros Hd. unfold Generator.complete_sentences. rewrite Hd.
  destruct (Generator.ends_sentence description) eqn:He; simpl; [done|].
  set (k := Z.max _ _).
  destruct (Z.ltb_spec 50 (Generator.char_index description k)) as [Hk|_].
  - assert (Hk0 : (0 <= k)%Z).
    { unfold Generator.char_index in Hk. destruct (Z.ltb_spec k 0); lia. }
    assert (Hc : ∃ c, (c = "." ∨ c = "!" ∨ c = "?")%char ∧
                      Generator.rfind c description = k).
    { destruct (Z.max_spec (Z.max (Generator.rfind "." description)
                                  (Generator.rfind "!" description))
                           (Generator.rfind "?" description)) as [[_ H]|[_ H]].
      - exists "?"%char. fold k in H. auto.
      - destruct (Z.max_spec (Generator.rfind "." description)
                             (Generator.rfind "!" description)) as [[_ H']|[_ H']].
        + exists "!"%char. fold k in H. split; [auto|congruence].
        + exists "."%char. fold k in H. split; [auto|congruence]. }
    destruct Hc as (c & Hc & Hr).
    pose proof (rfind_cut_ends c description k Hk0 Hr) as Hend.
    split; [by apply (endswith_truthy _ _ Hend)|].
    unfold Generator.ends_sentence.
    destruct Hc as [->|[->| ->]]; rewrite Hend; by rewrite ?orb_true_r.
  - split.
    + apply (endswith_truthy "."); [apply endswith_append|done].
    + unfold Generator.ends_sentence. by rewrite endswith_append.
Qed.

Lemma fallbacks_end (context_type : string) :
  Str.truthy (Generator.fallbacks context_type) = true ∧
  Generator.ends_sentence (Generator.fallbacks context_type) = true.
Proof.
  unfold Generator.fallbacks.
  repeat match goal with
         | |- context [if ?b then _ else _] => destruct b
         end; by vm_compute.
Qed.

End Descriptions.

(** X1.  [generate_description] never returns a text that stops in the
    middle of a sentence: whatever the completion service replies, the
    result is not empty and ends with a full stop, an exclamation mark or
    a question mark, unless the reply is blank, in which case the result
    is the empty string. *)
Theorem description_ends_a_sentence (chat : string → string → option string)
    (text context_type : string) :
  (∃ reply, chat context_type (Str.strip text) = Some reply ∧
            Str.strip reply = "" ∧
            Generator.generate_description chat text context_type = "") ∨
  (Str.truthy (Generator.generate_description chat text context_type) = true ∧
   Generator.ends_sentence (Generator.generate_description chat text context_type)
   = true).
Proof.
  unfold Generator.generate_description.
  destruct (negb (Str.truthy text) || negb (Str.truthy (Str.strip text))).
  { right. by vm_compute. }
  destruct (chat context_type (Str.strip text)) as [reply|].
  - destruct (Str.strip reply) as [|a r] eqn:Hr.
    + left. exists reply. by rewrite Hr.
    + right. by apply complete_sentences_ends.
  - right. apply fallbacks_end.
Qed.

(** ** Discovered files and the filters of the second pass *)

Section Files.

Context {case_mapping : Str.CaseMapping}.

Lemma lookup_listing (listing : list (Fs.path * Fs.file)) (p : Fs.path)
    (f : Fs.file) :
  NoDup (List.map fst listing) → (p, f) ∈ listing → Fs.lookup listing p = Some f.
Proof.
  induction listing as [|[q g] l IH]; intros Hnd Hin.
  - by apply elem_of_nil in Hin.
  - simpl in *. apply NoDup_cons in Hnd as [Hq Hnd].
    destruct (decide (q = p)) as [->|Hne].
    + apply elem_of_cons in Hin as [[= <-]|Hin]; [done|].
      destruct Hq. apply list_elem_of_In, in_map_iff. exists (p, f).
      split; [done|by apply list_elem_of_In].
    + apply elem_of_cons in Hin as [[= <- <-]|Hin]; [done|]. by apply IH.
Qed.

(** A path is discovered in one category only. *)
Lemma category_unique (listing : list (Fs.path * Fs.file)) (p : Fs.path)
    (c1 c2 : category) :
  NoDup (List.map fst listing) →
  p ∈ _discover_all_files listing c1 → p ∈ _discover_all_files listing c2 →
  c1 = c2.
Proof.
  intros Hnd (f1 & H1 & Hc1)%discover_elem (f2 & H2 & Hc2)%discover_elem.
  rewrite (listing_file_unique listing Hnd p f1 f2 H1 H2) in Hc1. congruence.
Qed.

Lemma category_NoDup (listing : list (Fs.path * Fs.file)) (c : category) :
  NoDup (List.map fst listing) → NoDup (_discover_all_files listing c).
Proof.
  intros Hnd. eapply sublist_NoDup; [by apply discovered_NoDup|].
  apply category_sublist.
Qed.

Lemma skip_patterns_excluded (name pattern : string) :
  Str.contains_any exclude_patterns name = false →
  pattern ∈ skip_patterns →
  Str.contains pattern name || Str.endswith pattern name = false.
Proof.
  intros Hex Hin.
  destruct (Str.contains pattern name || Str.endswith pattern name) eqn:Hor; [|done].
  assert (Hc : Str.contains pattern name = true).
  { apply orb_true_iff in Hor as [H|H]; [done|by apply endswith_contains]. }
  assert (Hk : Str.contains "_chunks.json" name = false ∧
               Str.contains ".env" name = false ∧
               Str.contains ".py" name = false ∧
               Str.contains ".md" name = false ∧
               Str.contains ".txt" name = false ∧
               Str.contains ".pyc" name = false).
  { repeat split; apply (contains_any_false exclude_patterns); try done;
      unfold exclude_patterns; set_solver. }
  destruct Hk as (H1 & H2 & H3 & H4 & H5 & H6).
  unfold skip_patterns in Hin.
  repeat (apply elem_of_cons in Hin as [->|Hin]); try congruence.
  - apply (contains_longer "enhanced_iflow" "_chunks.json" "") in Hc. congruence.
  - apply (contains_longer "clean_iflow" "_chunks.json" "") in Hc. congruence.
  - by apply elem_of_nil in Hin.
Qed.

(** What the classification of [_discover_all_files] guarantees for a
    file that is not a process-definition document. *)
Lemma classify_passes (f : Fs.file) (c : category) :
  classify f = Some c → c ≠ main_iflow →
  Str.contains_any exclude_patterns (Fs.f_name f) = false ∧
  if String.eqb (Str.lower (PyPath.suffix_of_name (Fs.f_name f))) ".json"
  then ∃ size, Fs.f_size f = Some size ∧ (size <=? 10000)%N = true
  else Str.mem (Str.lower (PyPath.suffix_of_name (Fs.f_name f)))
         allowed_extensions = true
       ∨ Fs.f_name f = "MANIFEST.MF".
Proof.
  unfold classify. intros Hc Hmain.
  destruct (Str.contains_any exclude_patterns (Fs.f_name f)); [discriminate Hc|].
  split; [done|].
  remember (Str.lower (PyPath.suffix_of_name (Fs.f_name f))) as ext eqn:Hext.
  clear Hext.
  destruct (String.eqb_spec ext ".iflw"); [congruence|].
  destruct (Str.mem ext [".groovy"; ".gsh"]) eqn:H1.
  { apply mem_elem in H1.
    repeat (apply elem_of_cons in H1 as [->|H1]); try (by left);
      by apply elem_of_nil in H1. }
  destruct (String.eqb_spec ext ".xsd") as [->|]; [by left|].
  destruct (String.eqb_spec ext ".mmap") as [->|]; [by left|].
  destruct (String.eqb_spec ext ".wsdl") as [->|]; [by left|].
  destruct (Str.mem ext [".properties"; ".prop"; ".propdef"]) eqn:H2.
  { apply mem_elem in H2.
    repeat (apply elem_of_cons in H2 as [->|H2]); try (by left);
      by apply elem_of_nil in H2. }
  destruct (Str.mem ext [".xsl"; ".xslt"]) eqn:H3.
  { apply mem_elem in H3.
    repeat (apply elem_of_cons in H3 as [->|H3]); try (by left);
      by apply elem_of_nil in H3. }
  destruct (String.eqb_spec ext ".json") as [->|].
  - destruct (Fs.f_size f) as [size|]; [|discriminate Hc].
    destruct (size <=? 10000)%N eqn:Hs; [|discriminate Hc]. by exists size.
  - destruct (String.eqb_spec (Fs.f_name f) "MANIFEST.MF"); [by right|].
    discriminate Hc.
Qed.

Lemma discovered_not_skipped (listing : list (Fs.path * Fs.file))
    (c : category) (p : Fs.path) (f : Fs.file) :
  NoDup (List.map fst listing) →
  (p, f) ∈ listing → Fs.p_name p = Fs.f_name f →
  classify f = Some c → c ≠ main_iflow →
  skipped_before_read listing p = false.
Proof.
  intros Hnd Hin Hname Hc Hmain.
  destruct (classify_passes f c Hc Hmain) as [Hex Hext].
  unfold skipped_before_read. rewrite Hname.
  assert (Hskip : existsb (fun pattern => Str.contains pattern (Fs.f_name f)
                             || Str.endswith pattern (Fs.f_name f))
                    skip_patterns = false).
  { destruct (existsb _ skip_patterns) eqn:E; [|done].
    apply existsb_exists in E as (pattern & Hp & Hor).
    rewrite skip_patterns_excluded in Hor; [done..|by apply list_elem_of_In]. }
  rewrite Hskip.
  destruct (String.eqb (Str.lower (PyPath.suffix_of_name (Fs.f_name f))) ".json").
  - destruct Hext as (size & Hsize & Hle).
    unfold Fs.getsize. rewrite (lookup_listing listing p f Hnd Hin), Hsize.
    apply N.ltb_ge. by apply N.leb_le.
  - destruct Hext as [-> | ->]; [done|]. by rewrite andb_false_r.
Qed.

(** The paths of the walk that were processed in the second pass are
    those of the auxiliary files that gave a chunk. *)
Lemma related_processed_elem (lib : Library) (listing : list (Fs.path * Fs.file))
    (p : Fs.path) :
  p ∈ List.map snd
        (List.filter (gives_chunk lib listing)
           (related_items all_categories (_discover_all_files listing))) ↔
  ∃ c, c ≠ main_iflow ∧ p ∈ _discover_all_files listing c ∧
       is_Some (_process_related_file lib listing p c).
Proof.
  rewrite list_elem_of_In, in_map_iff. split.
  - intros ([c q] & Hq & Hin). simpl in Hq. subst q.
    apply filter_In in Hin as [Hin Hg]. apply list_elem_of_In in Hin.
    apply related_items_elem in Hin as [Hc Hp]. simpl in *.
    exists c. split; [done|]. split; [done|].
    unfold gives_chunk, related_chunk in Hg. simpl in Hg.
    destruct (_process_related_file lib listing p c); [by eexists|done].
  - intros (c & Hc & Hp & [ch Hch]). exists (c, p). split; [done|].
    apply filter_In. split.
    + apply list_elem_of_In, related_items_elem. done.
    + unfold gives_chunk, related_chunk. simpl. by rewrite Hch.
Qed.

Lemma main_not_auxiliary (listing : list (Fs.path * Fs.file)) (main p : Fs.path)
    (c : category) :
  NoDup (List.map fst listing) →
  _find_main_iflow (_discover_all_files listing) = Some main →
  c ≠ main_iflow → p ∈ _discover_all_files listing c → p ≠ main.
Proof.
  intros Hnd Hmain Hc Hp ->. apply main_iflow_discovered in Hmain.
  by destruct (Hc (category_unique listing main c main_iflow Hnd Hp Hmain)).
Qed.

Lemma process_related_file_None (lib : Library)
    (listing : list (Fs.path * Fs.file)) (p : Fs.path) (c : category) :
  skipped_before_read listing p = false →
  _process_related_file lib listing p c = None ↔
  Fs.read_text listing p = None ∨
  ∃ content, Fs.read_text listing p = Some content ∧
             (50000 < N.of_nat (Str.len content))%N.
Proof.
  intros Hs. unfold _process_related_file. rewrite Hs.
  destruct (Fs.read_text listing p) as [content|]; [|by split; [left|]].
  destruct (N.ltb_spec 50000 (N.of_nat (Str.len content))) as [Hlt|Hge].
  - split; [|done]. intros _. right. by exists content.
  - split; [done|]. intros [?|(content' & [= <-] & Hlt)]; [done|]. lia.
Qed.

End Files.

(** X2.  The tests [_process_related_file] makes before it reads a file
    never reject a file that [_discover_all_files] put into a category
    other than [main_iflow]: such a file gives no chunk only when it
    cannot be read or its text is longer than 50000 characters. *)
Theorem discovered_file_passes_the_filters
    {case_mapping : Str.CaseMapping}
    (lib : Library) (base : string) (pkg : Fs.dir) (c : category) (p : Fs.path) :
  Fs.distinct_names pkg = true →
  c ≠ main_iflow →
  p ∈ _discover_all_files (Fs.walk base [] pkg) c →
  skipped_before_read (Fs.walk base [] pkg) p = false ∧
  (_process_related_file lib (Fs.walk base [] pkg) p c = None ↔
   Fs.read_text (Fs.walk base [] pkg) p = None ∨
   ∃ content, Fs.read_text (Fs.walk base [] pkg) p = Some content ∧
              (50000 < N.of_nat (Str.len content))%N).
Proof.
  intros Hd Hc (f & Hin & Hf)%discover_elem.
  pose proof (walk_NoDup base pkg Hd []) as Hnd.
  assert (Hs : skipped_before_read (Fs.walk base [] pkg) p = false).
  { apply (discovered_not_skipped _ c p f); try done. by eapply walk_name. }
  split; [done|]. by apply process_related_file_None.
Qed.

Lemma discovered_file_passes_the_filters_witness :
  skipped_before_read (Fs.walk "/tmp/pkg" [] Sample.pkg_ok)
    (Fs.Path "/tmp/pkg" ["src"] "Validate.gsh") = false ∧
  (_process_related_file Sample.lib (Fs.walk "/tmp/pkg" [] Sample.pkg_ok)
     (Fs.Path "/tmp/pkg" ["src"] "Validate.gsh") groovy_scripts = None ↔
   Fs.read_text (Fs.walk "/tmp/pkg" [] Sample.pkg_ok)
     (Fs.Path "/tmp/pkg" ["src"] "Validate.gsh") = None ∨
   ∃ content,
     Fs.read_text (Fs.walk "/tmp/pkg" [] Sample.pkg_ok)
       (Fs.Path "/tmp/pkg" ["src"] "Validate.gsh") = Some content ∧
     (50000 < N.of_nat (Str.len content))%N).
Proof.
  apply (discovered_file_passes_the_filters Sample.lib "/tmp/pkg" Sample.pkg_ok
           groovy_scripts (Fs.Path "/tmp/pkg" ["src"] "Validate.gsh")).
  - reflexivity.
  - discriminate.
  - vm_compute. apply list_elem_of_here.
Defined.

(** A schema of 12501 characters is chunked, whatever the number of its
    bytes. *)
Example wide_schema_is_chunked :
  ∃ c, _process_related_file Sample.lib (Fs.walk "/tmp/pkg" [] Sample.pkg_wide)
         (Fs.Path "/tmp/pkg" [] "uni.xsd") xsd_files = Some c ∧
       option_map (fun text => N.of_nat (Str.len text)) (content c)
       = Some 12501%N ∧
       option_map (fun text => N.of_nat (String.length text)) (content c)
       = Some 50004%N ∧
       missing_files
         (report (process_complete_iflow_package Sample.lib None "/tmp/pkg"
                    Sample.pkg_wide)) = [].
Proof. eexists. repeat split; vm_compute; reflexivity. Qed.

Section Missing.

Context {case_mapping : Str.CaseMapping}.

Variable lib : Library.
Variable embedding_generator : option (string → string → string).

Lemma discovered_elem (listing : list (Fs.path * Fs.file)) (p : Fs.path) :
  p ∈ discovered listing ↔ ∃ c, p ∈ _discover_all_files listing c.
Proof.
  unfold discovered. rewrite list_elem_of_In, in_flat_map. split.
  - intros (c & _ & Hp). exists c. by apply list_elem_of_In.
  - intros (c & Hp). exists c. split; [|by apply list_elem_of_In].
    apply list_elem_of_In, all_categories_elem.
Qed.

Lemma head_or_tail {A : Type} (l : list A) (x : A) :
  NoDup l → x ∈ l → (x ∉ option_list (List.head l) ↔ x ∈ List.tl l).
Proof.
  destruct l as [|h t]; simpl; intros Hnd Hx; [by apply elem_of_nil in Hx|].
  apply NoDup_cons in Hnd as [Hh _]. rewrite list_elem_of_singleton.
  apply elem_of_cons in Hx as [->|Hx]; split; try done; congruence.
Qed.

Lemma missing_elem (base : string) (pkg : Fs.dir) (p : Fs.path) :
  p ∈ missing_files
        (report (process_complete_iflow_package lib embedding_generator base pkg)) ↔
  p ∈ discovered (Fs.walk base [] pkg) ∧
  p ∉ self_processed_files (run lib embedding_generator base pkg).
Proof.
  unfold process_complete_iflow_package. cbn [report].
  rewrite missing_files_spec. unfold missing_in.
  rewrite list_elem_of_In, filter_In, negb_true_iff, bool_decide_eq_false.
  by rewrite <- list_elem_of_In.
Qed.

End Missing.

(** X3.  The list of missing files of a run, characterised: a file is
    reported missing exactly when it is a process-definition document
    other than the first one discovered, or an auxiliary file that cannot
    be read or whose text is longer than 50000 characters. *)
Theorem missing_files_characterised
    {case_mapping : Str.CaseMapping}
    (lib : Library) (embedding_generator : option (string → string → string))
    (base : string) (pkg : Fs.dir) (p : Fs.path) :
  Fs.distinct_names pkg = true →
  p ∈ missing_files
        (report (process_complete_iflow_package lib embedding_generator base pkg)) ↔
  p ∈ List.tl (_discover_all_files (Fs.walk base [] pkg) main_iflow) ∨
  ∃ c, c ≠ main_iflow ∧
       p ∈ _discover_all_files (Fs.walk base [] pkg) c ∧
       (Fs.read_text (Fs.walk base [] pkg) p = None ∨
        ∃ content, Fs.read_text (Fs.walk base [] pkg) p = Some content ∧
                   (50000 < N.of_nat (Str.len content))%N).
Proof.
  intros Hd. pose proof (walk_NoDup base pkg Hd []) as Hnd.
  set (listing := Fs.walk base [] pkg) in *.
  assert (Haux : ∀ c, c ≠ main_iflow → p ∈ _discover_all_files listing c →
            (p ∉ self_processed_files (run lib embedding_generator base pkg) ↔
             _process_related_file lib listing p c = None)).
  { intros c Hc Hp. rewrite run_processed. fold listing.
    rewrite elem_of_app, related_processed_elem. split.
    - intros Hno. destruct (_process_related_file lib listing p c) eqn:E; [|done].
      destruct Hno. right. exists c. rewrite E. by eauto.
    - intros Hnone [Hmain|(c' & Hc' & Hp' & Hsome)].
      + destruct (_find_main_iflow (_discover_all_files listing)) as [main|] eqn:Hm;
          simpl in Hmain; [|by apply elem_of_nil in Hmain].
        apply list_elem_of_singleton in Hmain.
        by apply (main_not_auxiliary listing main p c).
      + rewrite (category_unique listing p c' c Hnd Hp' Hp), Hnone in Hsome.
        by destruct Hsome. }
  assert (Hskip : ∀ c, c ≠ main_iflow → p ∈ _discover_all_files listing c →
            skipped_before_read listing p = false).
  { intros c Hc (f & Hin & Hf)%discover_elem.
    apply (discovered_not_skipped _ c p f); try done. by eapply walk_name. }
  assert (Hmain : p ∈ _discover_all_files listing main_iflow →
            (p ∉ self_processed_files (run lib embedding_generator base pkg) ↔
             p ∈ List.tl (_discover_all_files listing main_iflow))).
  { intros Hp. rewrite run_processed. fold listing.
    rewrite <- (head_or_tail _ p (category_NoDup listing main_iflow Hnd) Hp).
    unfold _find_main_iflow. rewrite elem_of_app, related_processed_elem.
    split; [tauto|]. intros Hno [?|(c & Hc & Hp' & _)]; [done|].
    by destruct (Hc (category_unique listing p c main_iflow Hnd Hp' Hp)). }
  rewrite missing_elem, discovered_elem. fold listing. split.
  - intros [[c Hp] Hno]. destruct (decide (c = main_iflow)) as [->|Hc].
    + left. by apply Hmain.
    + right. exists c. split; [done|]. split; [done|].
      apply (Haux c Hc Hp) in Hno.
      by apply (process_related_file_None lib listing p c (Hskip c Hc Hp)).
  - intros [Htl|(c & Hc & Hp & Hbad)].
    + assert (Hp : p ∈ _discover_all_files listing main_iflow).
      { destruct (_discover_all_files listing main_iflow); [done|].
        by apply list_elem_of_further. }
      split; [by exists main_iflow|]. by apply Hmain.
    + split; [by exists c|]. apply (Haux c Hc Hp).
      by apply (process_related_file_None lib listing p c (Hskip c Hc Hp)).
Qed.

Lemma missing_files_characterised_witness :
  Fs.Path "/tmp/pkg" [] "b.iflw"
    ∈ missing_files
        (report (process_complete_iflow_package Sample.lib None "/tmp/pkg"
                   Sample.pkg_gaps)) ↔
  Fs.Path "/tmp/pkg" [] "b.iflw"
    ∈ List.tl (_discover_all_files (Fs.walk "/tmp/pkg" [] Sample.pkg_gaps) main_iflow) ∨
  ∃ c, c ≠ main_iflow ∧
       Fs.Path "/tmp/pkg" [] "b.iflw"
         ∈ _discover_all_files (Fs.walk "/tmp/pkg" [] Sample.pkg_gaps) c ∧
       (Fs.read_text (Fs.walk "/tmp/pkg" [] Sample.pkg_gaps)
          (Fs.Path "/tmp/pkg" [] "b.iflw") = None ∨
        ∃ content,
          Fs.read_text (Fs.walk "/tmp/pkg" [] Sample.pkg_gaps)
            (Fs.Path "/tmp/pkg" [] "b.iflw") = Some content ∧
          (50000 < N.of_nat (Str.len content))%N).
Proof.
  apply (missing_files_characterised Sample.lib None "/tmp/pkg" Sample.pkg_gaps
           (Fs.Path "/tmp/pkg" [] "b.iflw")).
  reflexivity.
Defined.

Lemma walk_pruned (base : string) (pkg : Fs.dir) :
  ∀ dirs pf, pf ∈ Fs.walk base dirs pkg →
             ∃ rest, Fs.p_dirs pf.1 = dirs ++ rest ∧ "__pycache__" ∉ rest.
Proof.
  induction pkg as [files subdirs IH] using dir_nested_ind.
  intros dirs pf Hin. simpl in Hin. apply elem_of_app in Hin as [Hin|Hin].
  - apply list_elem_of_In, in_map_iff in Hin as (f & <- & _).
    exists []. simpl. split; [by rewrite app_nil_r|apply not_elem_of_nil].
  - apply list_elem_of_In, in_flat_map in Hin as (nd & Hnd & Hin).
    destruct (String.eqb_spec nd.1 "__pycache__") as [|Hne]; [by destruct Hin|].
    rewrite Forall_forall in IH. apply list_elem_of_In in Hnd, Hin.
    destruct (IH nd Hnd _ _ Hin) as (rest & Hrest & Hno).
    exists (nd.1 :: rest). split; [by rewrite Hrest, <- app_assoc|].
    intros [Heq|Hr]%elem_of_cons; [by destruct Hne|by destruct Hno].
Qed.

(** X4.  The discovery never enters a directory named [__pycache__],
    whatever the files in it are called, and, when the entries of every
    directory have distinct names, it puts a file into one category
    only. *)
Theorem discovery_prunes_and_partitions
    {case_mapping : Str.CaseMapping}
    (base : string) (pkg : Fs.dir) (c : category) (p : Fs.path) :
  p ∈ _discover_all_files (Fs.walk base [] pkg) c →
  ("__pycache__" ∉ Fs.p_dirs p) ∧
  (Fs.distinct_names pkg = true →
   ∀ c', p ∈ _discover_all_files (Fs.walk base [] pkg) c' → c' = c).
Proof.
  intros Hp. split.
  - apply discover_elem in Hp as (f & Hin & _).
    apply walk_pruned in Hin as (rest & Hrest & Hno). simpl in Hrest.
    by rewrite Hrest.
  - intros Hd c' Hp'.
    by apply (category_unique _ p c' c (walk_NoDup base pkg Hd [])).
Qed.

Lemma discovery_prunes_and_partitions_witness :
  ("__pycache__" ∉ Fs.p_dirs (Fs.Path "/tmp/pkg" ["src"] "Validate.gsh")) ∧
  (Fs.distinct_names Sample.pkg_cached = true →
   ∀ c', Fs.Path "/tmp/pkg" ["src"] "Validate.gsh"
           ∈ _discover_all_files (Fs.walk "/tmp/pkg" [] Sample.pkg_cached) c' →
         c' = groovy_scripts).
Proof.
  apply (discovery_prunes_and_partitions "/tmp/pkg" Sample.pkg_cached
           groovy_scripts (Fs.Path "/tmp/pkg" ["src"] "Validate.gsh")).
  vm_compute. apply list_elem_of_here.
Defined.

Lemma collect_until_error_elem {A B : Type} (f : A → option B) (l : list A) (y : B) :
  y ∈ collect_until_error f l → ∃ x, x ∈ l ∧ f x = Some y.
Proof.
  induction l as [|x l IH]; simpl; [by intros ?%elem_of_nil|].
  destruct (f x) as [y'|] eqn:Hx; [|by intros ?%elem_of_nil].
  intros [->|Hy]%elem_of_cons.
  - exists x. split; [apply list_elem_of_here|done].
  - destruct (IH Hy) as (x' & Hx' & Hfx'). exists x'.
    split; [by apply list_elem_of_further|done].
Qed.

(** ** The chunks of a run in the package processor *)

Section Classified.

Context {case_mapping : Str.CaseMapping}.

Variable lib : Library.
Variable embedding_generator : option (string → string → string).

Lemma classify_full (main : Fs.path) (text : string) :
  Processor.classify_chunk_type (_create_full_iflow_chunk lib main text) = "package".
Proof.
  unfold Processor.classify_chunk_type.
  cbn [file_type _create_full_iflow_chunk].
  by rewrite (Str.lower_ascii "bpmn_full_xml") by reflexivity.
Qed.

Lemma classify_related (listing : list (Fs.path * Fs.file))
    (item : category * Fs.path) (c : chunk) :
  related_chunk lib listing item = Some c →
  Processor.classify_chunk_type c = "asset".
Proof.
  destruct item as [cat p]. unfold related_chunk, _process_related_file. simpl.
  destruct (skipped_before_read listing p); [done|].
  destruct (Fs.read_text listing p) as [text|]; [|done].
  destruct (50000 <? N.of_nat (Str.len text))%N; [done|].
  intros [= <-]. unfold Processor.classify_chunk_type.
  cbn [file_type component_type default].
  rewrite (Str.lower_ascii "") by reflexivity.
  destruct cat; cbn [category_name];
    rewrite Str.lower_ascii by reflexivity; reflexivity.
Qed.

Lemma classify_element (iflow_file : Fs.path) (c : chunk) :
  element_chunk lib iflow_file c → Processor.classify_chunk_type c ≠ "asset".
Proof.
  intros [Hft _]. unfold Processor.classify_chunk_type.
  set (ct := Str.lower (default "" (component_type c))).
  destruct Hft as [-> | [-> | ->]];
    rewrite Str.lower_ascii by reflexivity;
    destruct (String.eqb ct "bpmndefinitions");
    destruct (Str.mem ct _); destruct (Str.mem ct _); by vm_compute.
Qed.

Lemma main_chunks_cases (base : string) (pkg : Fs.dir) :
  main_chunks lib embedding_generator base pkg = [] ∨
  ∃ main text rest,
    main_chunks lib embedding_generator base pkg
    = _create_full_iflow_chunk lib main text :: rest ∧
    Forall (element_chunk lib main) rest.
Proof.
  unfold main_chunks. cbv zeta.
  destruct (_find_main_iflow _) as [main|]; [|by left].
  unfold _process_main_iflow_with_components.
  destruct (Fs.read_text _ main) as [text|] eqn:Hread; [|by left].
  destruct (fromstring lib text) as [root|] eqn:Hparse; [|by left].
  destruct (main_document_chunks lib embedding_generator _
              (_build_script_index (_discover_all_files (Fs.walk base [] pkg)) ∅)
              main text root Hread Hparse) as (rest & Heq & Hrest).
  unfold _process_main_iflow_with_components in Heq.
  rewrite Hread, Hparse in Heq. right. by exists main, text, rest.
Qed.

Lemma filter_all {A : Type} (f : A → bool) (l : list A) :
  Forall (fun x => f x = true) l → List.filter f l = l.
Proof.
  induction 1 as [|x l Hx _ IH]; simpl; [done|]. by rewrite Hx, IH.
Qed.

Lemma filter_none {A : Type} (f : A → bool) (l : list A) :
  Forall (fun x => f x = false) l → List.filter f l = [].
Proof.
  induction 1 as [|x l Hx _ IH]; simpl; [done|]. by rewrite Hx, IH.
Qed.

Lemma related_chunks_classified (listing : list (Fs.path * Fs.file))
    (items : list (category * Fs.path)) :
  Forall (fun c => Processor.classify_chunk_type c = "asset")
    (omap (related_chunk lib listing) items).
Proof.
  induction items as [|item items IH]; [constructor|].
  rewrite omap_cons_app. apply Forall_app. split; [|done].
  destruct (related_chunk lib listing item) eqn:Hc; simpl; [|constructor].
  constructor; [|constructor]. by eapply classify_related.
Qed.

Lemma main_chunks_no_asset (base : string) (pkg : Fs.dir) :
  Processor.chunks_of_type "asset" (main_chunks lib embedding_generator base pkg) = [].
Proof.
  unfold Processor.chunks_of_type. apply filter_none.
  destruct (main_chunks_cases base pkg) as [->|(main & text & rest & -> & Hrest)];
    [constructor|].
  constructor; [by rewrite classify_full|]. eapply Forall_impl; [exact Hrest|].
  intros c Hc. simpl. apply String.eqb_neq. by eapply classify_element.
Qed.

End Classified.

(** X5.  [process_assets] takes from the chunks of a run exactly the
    chunks of the auxiliary files, in the order in which they were made:
    no chunk of the process-definition document is stored as an asset, and
    every file chunk is, its category among the six the classification
    lists or not.  The number of processed files of the run is therefore
    the number of asset chunks, plus one when a process-definition
    document was found. *)
Theorem asset_chunks_are_the_auxiliary_files
    {case_mapping : Str.CaseMapping}
    (lib : Library) (embedding_generator : option (string → string → string))
    (base : string) (pkg : Fs.dir) :
  Processor.chunks_of_type "asset"
    (chunks (process_complete_iflow_package lib embedding_generator base pkg))
  = omap (related_chunk lib (Fs.walk base [] pkg))
      (related_items all_categories (_discover_all_files (Fs.walk base [] pkg))) ∧
  processed_files (process_complete_iflow_package lib embedding_generator base pkg)
  = List.length
      (option_list (_find_main_iflow (_discover_all_files (Fs.walk base [] pkg))))
    + List.length
        (Processor.chunks_of_type "asset"
           (chunks (process_complete_iflow_package lib embedding_generator base pkg))).
Proof.
  assert (Hassets :
    Processor.chunks_of_type "asset"
      (chunks (process_complete_iflow_package lib embedding_generator base pkg))
    = omap (related_chunk lib (Fs.walk base [] pkg))
        (related_items all_categories (_discover_all_files (Fs.walk base [] pkg)))).
  { unfold process_complete_iflow_package. cbn [chunks]. rewrite run_chunks.
    unfold Processor.chunks_of_type. rewrite List.filter_app.
    fold (Processor.chunks_of_type "asset" (main_chunks lib embedding_generator base pkg)).
    rewrite main_chunks_no_asset. simpl. apply filter_all.
    eapply Forall_impl; [apply related_chunks_classified|].
    intros c Hc. simpl in *. by rewrite Hc. }
  split; [exact Hassets|]. rewrite Hassets.
  unfold process_complete_iflow_package. cbn [processed_files].
  rewrite run_processed, length_app, length_map. f_equal.
  generalize (related_items all_categories
                (_discover_all_files (Fs.walk base [] pkg))).
  intros items. induction items as [|item items IH]; [done|].
  rewrite omap_cons_app, length_app, <- IH. simpl. unfold gives_chunk.
  by destruct (related_chunk lib (Fs.walk base [] pkg) item).
Qed.

(** X6.  The description [ensure_package] starts from: when the
    process-definition document is read and parsed, the full-document
    chunk is the first chunk of the run and the first one classified as
    a package, so that its description is taken; when there is no such
    document, or it cannot be read or parsed, no chunk of the run is
    classified as a package and the stock sentence is taken. *)
Theorem package_description_of_a_run
    {case_mapping : Str.CaseMapping}
    (lib : Library) (embedding_generator : option (string → string → string))
    (base : string) (pkg : Fs.dir) :
  (∀ main text root,
     _find_main_iflow (_discover_all_files (Fs.walk base [] pkg)) = Some main →
     Fs.read_text (Fs.walk base [] pkg) main = Some text →
     fromstring lib text = Some root →
     List.head (chunks (process_complete_iflow_package lib embedding_generator
                          base pkg))
     = Some (_create_full_iflow_chunk lib main text) ∧
     Processor.package_description
       (chunks (process_complete_iflow_package lib embedding_generator base pkg))
     = "Complete iFlow BPMN XML") ∧
  ((_find_main_iflow (_discover_all_files (Fs.walk base [] pkg)) = None ∨
    ∃ main,
      _find_main_iflow (_discover_all_files (Fs.walk base [] pkg)) = Some main ∧
      (Fs.read_text (Fs.walk base [] pkg) main = None ∨
       ∃ text, Fs.read_text (Fs.walk base [] pkg) main = Some text ∧
               fromstring lib text = None)) →
   Processor.chunks_of_type "package"
     (chunks (process_complete_iflow_package lib embedding_generator base pkg)) = [] ∧
   Processor.package_description
     (chunks (process_complete_iflow_package lib embedding_generator base pkg))
   = "SAP Integration Flow package for enterprise data integration and automation").
Proof.
  unfold process_complete_iflow_package. cbn [chunks]. rewrite run_chunks. split.
  - intros main text root Hmain Hread Hparse.
    destruct (main_document_chunks lib embedding_generator _
                (_build_script_index (_discover_all_files (Fs.walk base [] pkg)) ∅)
                main text root Hread Hparse) as (rest & Heq & _).
    unfold main_chunks. cbv zeta. rewrite Hmain, Heq. split; [done|].
    unfold Processor.package_description, Processor.chunks_of_type.
    cbn [app List.filter]. by rewrite classify_full.
  - intros Hno.
    assert (Hmain : main_chunks lib embedding_generator base pkg = []).
    { unfold main_chunks. cbv zeta.
      destruct Hno as [->|(main & -> & Hbad)]; [done|].
      unfold _process_main_iflow_with_components.
      destruct Hbad as [->|(text & -> & ->)]; done. }
    rewrite Hmain, app_nil_l.
    assert (Hnone : Processor.chunks_of_type "package"
                      (omap (related_chunk lib (Fs.walk base [] pkg))
                         (related_items all_categories
                            (_discover_all_files (Fs.walk base [] pkg)))) = []).
    { unfold Processor.chunks_of_type. apply filter_none.
      eapply Forall_impl; [apply related_chunks_classified|].
      intros c Hc. simpl in *. by rewrite Hc. }
    split; [done|]. unfold Processor.package_description. by rewrite Hnone.
Qed.

Lemma package_description_of_a_run_witness :
  (List.head (chunks (process_complete_iflow_package Sample.lib None "/tmp/pkg"
                        Sample.pkg_ok))
   = Some (_create_full_iflow_chunk Sample.lib Sample.flow_file "one flow") ∧
   Processor.package_description
     (chunks (process_complete_iflow_package Sample.lib None "/tmp/pkg" Sample.pkg_ok))
   = "Complete iFlow BPMN XML") ∧
  (Processor.chunks_of_type "package"
     (chunks (process_complete_iflow_package Sample.lib None "/tmp/pkg"
                Sample.pkg_bad_xml)) = [] ∧
   Processor.package_description
     (chunks (process_complete_iflow_package Sample.lib None "/tmp/pkg"
                Sample.pkg_bad_xml))
   = "SAP Integration Flow package for enterprise data integration and automation").
Proof.
  split.
  - apply (proj1 (package_description_of_a_run Sample.lib None "/tmp/pkg"
                    Sample.pkg_ok) Sample.flow_file "one flow" Sample.doc_one_flow);
      reflexivity.
  - apply (proj2 (package_description_of_a_run Sample.lib None "/tmp/pkg"
                    Sample.pkg_bad_xml)).
    right. exists (Fs.Path "/tmp/pkg" [] "flow.iflw"). split; [reflexivity|].
    right. exists "<broken". split; reflexivity.
Defined.

(** X7.  The chunks of the sequence flows and of the message flows are
    classified as flows, and the row [process_flows] builds from such a
    chunk has the [sourceRef] and the [targetRef] of a flow element of the
    document as its source and target and the flow type of the
    extraction that made the chunk. *)
Theorem flow_chunks_give_flow_rows
    {case_mapping : Str.CaseMapping}
    (lib : Library) (root : Xml.node) (iflow_file : Fs.path) (c : chunk) :
  (c ∈ _extract_sequence_flows lib root iflow_file →
   Processor.classify_chunk_type c = "flow" ∧
   ∃ flow, flow ∈ sequence_flow_elements root ∧
           Processor.flow_row_of c =
           Processor.FlowRow (Xml.get_or_empty (Xml.nd flow) "sourceRef")
             (Xml.get_or_empty (Xml.nd flow) "targetRef")
             "sequence" "bpmn_sequence_flow") ∧
  (c ∈ _extract_message_flows lib root iflow_file →
   Processor.classify_chunk_type c = "flow" ∧
   ∃ flow, flow ∈ xpath_tag (Xml.xpath_all root) "bpmn2" "messageFlow" ∧
           Processor.flow_row_of c =
           Processor.FlowRow (Xml.get_or_empty (Xml.nd flow) "sourceRef")
             (Xml.get_or_empty (Xml.nd flow) "targetRef")
             "message" "bpmn_message_flow").
Proof.
  split.
  - rewrite sequence_flows_visited_twice. intros Hc.
    apply collect_until_error_elem in Hc as (flow & Hflow & Hc).
    split.
    + unfold sequence_flow_chunk in Hc. bind_inv Hc. injection Hc as <-.
      classify_known.
    + exists flow. split; [by apply elem_of_app in Hflow as [?|?]|].
      unfold sequence_flow_chunk in Hc. bind_inv Hc. by injection Hc as <-.
  - unfold _extract_message_flows. intros Hc.
    apply collect_until_error_elem in Hc as (flow & Hflow & Hc).
    split.
    + unfold message_flow_chunk in Hc. bind_inv Hc. injection Hc as <-.
      classify_known.
    + exists flow. split.
      * simpl in Hflow. rewrite app_nil_r in Hflow.
        by apply elem_of_app in Hflow as [?|?].
      * unfold message_flow_chunk in Hc. bind_inv Hc. by injection Hc as <-.
Qed.

Lemma flow_chunks_give_flow_rows_witness :
  ∃ c, Sample.f1_chunk = Some c ∧
       Processor.classify_chunk_type c = "flow" ∧
       ∃ flow, flow ∈ sequence_flow_elements Sample.doc_two_flows ∧
               Processor.flow_row_of c =
               Processor.FlowRow (Xml.get_or_empty (Xml.nd flow) "sourceRef")
                 (Xml.get_or_empty (Xml.nd flow) "targetRef")
                 "sequence" "bpmn_sequence_flow".
Proof.
  eexists. split; [reflexivity|].
  apply (proj1 (flow_chunks_give_flow_rows Sample.lib Sample.doc_two_flows
                  Sample.flow_file _)).
  vm_compute. apply list_elem_of_here.
Defined.

(** X8.  An auxiliary file and its chunk: a discovered file of a
    category other than [main_iflow] is counted as processed exactly when
    the run holds the chunk made from it, and that chunk carries the
    relative path of the file, the name of its category and the whole
    text of the file, which is at most 50000 characters long. *)
Theorem auxiliary_file_and_its_chunk
    {case_mapping : Str.CaseMapping}
    (lib : Library) (embedding_generator : option (string → string → string))
    (base : string) (pkg : Fs.dir) (c : category) (p : Fs.path) :
  Fs.distinct_names pkg = true →
  c ≠ main_iflow →
  p ∈ _discover_all_files (Fs.walk base [] pkg) c →
  (p ∈ self_processed_files (run lib embedding_generator base pkg) ↔
   ∃ ch, ch ∈ chunks (process_complete_iflow_package lib embedding_generator
                        base pkg) ∧
         _process_related_file lib (Fs.walk base [] pkg) p c = Some ch) ∧
  ∀ ch, _process_related_file lib (Fs.walk base [] pkg) p c = Some ch →
        ch ∈ chunks (process_complete_iflow_package lib embedding_generator
                       base pkg) ∧
        file_name ch = Fs.relpath p ∧
        file_type ch = category_name c ∧
        ∃ text, Fs.read_text (Fs.walk base [] pkg) p = Some text ∧
                content ch = Some text ∧
                (N.of_nat (Str.len text) <= 50000)%N.
Proof.
  intros Hd Hc Hp. pose proof (walk_NoDup base pkg Hd []) as Hnd.
  set (listing := Fs.walk base [] pkg) in *.
  assert (Hin : ∀ ch, _process_related_file lib listing p c = Some ch →
            ch ∈ chunks (process_complete_iflow_package lib embedding_generator
                           base pkg)).
  { intros ch Hch. unfold process_complete_iflow_package. cbn [chunks].
    rewrite run_chunks. apply elem_of_app. right. fold listing.
    apply list_elem_of_omap. exists (c, p). split; [|done].
    by apply related_items_elem. }
  split.
  - rewrite run_processed. fold listing.
    rewrite elem_of_app, related_processed_elem. split.
    + intros [Hmain|(c' & Hc' & Hp' & [ch Hch])].
      * destruct (_find_main_iflow (_discover_all_files listing)) as [main|] eqn:Hm;
          simpl in Hmain; [|by apply elem_of_nil in Hmain].
        apply list_elem_of_singleton in Hmain.
        by destruct (main_not_auxiliary listing main p c Hnd Hm Hc Hp).
      * rewrite (category_unique listing p c' c Hnd Hp' Hp) in Hch. eauto.
    + intros (ch & _ & Hch). right. exists c. rewrite Hch. eauto.
  - intros ch Hch. split; [by apply Hin|].
    unfold _process_related_file in Hch.
    destruct (skipped_before_read listing p); [done|].
    destruct (Fs.read_text listing p) as [text|]; [|done].
    destruct (N.ltb_spec 50000 (N.of_nat (Str.len text))); [done|].
    injection Hch as <-. split; [done|]. split; [done|]. by exists text.
Qed.

Lemma auxiliary_file_and_its_chunk_witness :
  (Fs.Path "/tmp/pkg" ["src"] "Validate.gsh"
     ∈ self_processed_files (run Sample.lib None "/tmp/pkg" Sample.pkg_ok) ↔
   ∃ ch, ch ∈ chunks (process_complete_iflow_package Sample.lib None "/tmp/pkg"
                        Sample.pkg_ok) ∧
         _process_related_file Sample.lib (Fs.walk "/tmp/pkg" [] Sample.pkg_ok)
           (Fs.Path "/tmp/pkg" ["src"] "Validate.gsh") groovy_scripts = Some ch) ∧
  ∀ ch, _process_related_file Sample.lib (Fs.walk "/tmp/pkg" [] Sample.pkg_ok)
          (Fs.Path "/tmp/pkg" ["src"] "Validate.gsh") groovy_scripts = Some ch →
        ch ∈ chunks (process_complete_iflow_package Sample.lib None "/tmp/pkg"
                       Sample.pkg_ok) ∧
        file_name ch = Fs.relpath (Fs.Path "/tmp/pkg" ["src"] "Validate.gsh") ∧
        file_type ch = category_name groovy_scripts ∧
        ∃ text, Fs.read_text (Fs.walk "/tmp/pkg" [] Sample.pkg_ok)
                  (Fs.Path "/tmp/pkg" ["src"] "Validate.gsh") = Some text ∧
                content ch = Some text ∧
                (N.of_nat (Str.len text) <= 50000)%N.
Proof.
  apply (auxiliary_file_and_its_chunk Sample.lib None "/tmp/pkg" Sample.pkg_ok
           groovy_scripts (Fs.Path "/tmp/pkg" ["src"] "Validate.gsh")).
  - reflexivity.
  - discriminate.
  - vm_compute. apply list_elem_of_here.
Defined.

(** ** Component ids *)

Section ComponentIds.

Context {case_mapping : Str.CaseMapping}.

Lemma fold_left_flat_map {A B C : Type} (f : A → C → A) (g : B → list C)
    (l : list B) (a : A) :
  fold_left (fun acc x => fold_left f (g x) acc) l a
  = fold_left f (List.flat_map g l) a.
Proof.
  revert a. induction l as [|x l IH]; intros a; simpl; [done|].
  by rewrite fold_left_app, IH.
Qed.

Lemma add_component_ids_spec (elems : list Xml.elem) (ids : list string) :
  NoDup ids →
  NoDup (fold_left add_component_id elems ids) ∧
  ∀ x, x ∈ fold_left add_component_id elems ids ↔
       x ∈ ids ∨ (Str.truthy x = true ∧
                  ∃ e, e ∈ elems ∧ Xml.get (Xml.nd e) "id" = Some x).
Proof.
  revert ids. induction elems as [|e elems IH]; intros ids Hnd; simpl.
  - split; [done|]. intros x. split; [by left|].
    intros [?|(_ & e & He & _)]; [done|by apply elem_of_nil in He].
  - assert (Hstep : NoDup (add_component_id ids e) ∧
              ∀ x, x ∈ add_component_id ids e ↔
                   x ∈ ids ∨ (Str.truthy x = true ∧ Xml.get (Xml.nd e) "id" = Some x)).
    { unfold add_component_id. destruct (Xml.get (Xml.nd e) "id") as [i|] eqn:Hi.
      - destruct (Str.truthy i) eqn:Ht; simpl.
        + destruct (Str.mem i ids) eqn:Hm; simpl.
          * split; [done|]. intros x. split; [by left|].
            intros [?|[_ [= <-]]]; [done|]. by apply mem_elem.
          * assert (Hi' : i ∉ ids).
            { intros Hin%mem_elem. congruence. }
            split.
            -- apply NoDup_app. split; [done|]. split; [|apply NoDup_singleton].
               intros x Hx Hx'. apply list_elem_of_singleton in Hx' as ->. done.
            -- intros x. rewrite elem_of_app, list_elem_of_singleton. split.
               ++ intros [?| ->]; [by left|by right].
               ++ intros [?|[_ [= <-]]]; [by left|by right].
        + split; [done|]. intros x. split; [by left|].
          intros [?|[Hx [= <-]]]; [done|congruence].
      - split; [done|]. intros x. split; [by left|]. by intros [?|[_ ?]]. }
    destruct Hstep as [Hnd' Hmem]. destruct (IH _ Hnd') as [Hnd'' Hmem''].
    split; [done|]. intros x. rewrite Hmem'', Hmem. split.
    + intros [[?|[Ht Hx]]|(Ht & e' & He' & Hx)].
      * by left.
      * right. split; [done|]. exists e. split; [apply list_elem_of_here|done].
      * right. split; [done|]. exists e'. split; [by apply list_elem_of_further|done].
    + intros [?|(Ht & e' & [->|He']%elem_of_cons & Hx)].
      * by left; left.
      * by left; right.
      * right. split; [done|]. by exists e'.
Qed.

Lemma xpath_tag_elem (scope : list Xml.elem) (ns local : string) (e : Xml.elem) :
  e ∈ xpath_tag scope ns local ↔
  e ∈ scope ∧ Xml.has_tag (qname ns local) (Xml.nd e) = true.
Proof. unfold xpath_tag. by rewrite list_elem_of_In, filter_In, <- list_elem_of_In. Qed.

Lemma xpath_below_element (root : Xml.node) (e : Xml.elem) :
  e ∈ Xml.xpath_below root → Xml.is_element (Xml.nd e) = true.
Proof. unfold Xml.xpath_below. by intros [_ ?]%list_elem_of_In%filter_In. Qed.

Lemma fold_left_flat_map2 {A B C D : Type} (f : A → D → A)
    (g : B → C → list D) (h : B → list C) (l : list B) (a : A) :
  fold_left (fun acc x => fold_left (fun acc y => fold_left f (g x y) acc) (h x) acc)
    l a
  = fold_left f (List.flat_map (fun x => List.flat_map (g x) (h x)) l) a.
Proof.
  revert a. induction l as [|x l IH]; intros a; simpl; [done|].
  by rewrite fold_left_app, IH, fold_left_flat_map.
Qed.

Lemma component_ids_fold (root : Xml.node) :
  _extract_all_component_ids root
  = fold_left add_component_id
      (List.flat_map
         (fun ty => List.flat_map
                      (fun ns => xpath_tag (Xml.xpath_below root) ns ty)
                      model_aliases)
         component_types) [].
Proof.
  apply (fold_left_flat_map2 add_component_id
           (fun ty ns => xpath_tag (Xml.xpath_below root) ns ty)
           (fun _ => model_aliases)).
Qed.

Lemma component_ids_spec (root : Xml.node) :
  NoDup (_extract_all_component_ids root) ∧
  ∀ cid, cid ∈ _extract_all_component_ids root ↔
         Str.truthy cid = true ∧
         ∃ e ty, e ∈ Xml.xpath_below root ∧ ty ∈ component_types ∧
                 Xml.tag (Xml.nd e) = Xml.clark MODEL ty ∧
                 Xml.get (Xml.nd e) "id" = Some cid.
Proof.
  rewrite component_ids_fold.
  destruct (add_component_ids_spec
              (List.flat_map
                 (fun ty => List.flat_map
                              (fun ns => xpath_tag (Xml.xpath_below root) ns ty)
                              model_aliases)
                 component_types) [] NoDup_nil_2) as [Hnd Hmem].
  split; [done|]. intros cid. rewrite Hmem. split.
  - intros [?%elem_of_nil|(Ht & e & He & Hid)]; [done|]. split; [done|].
    apply list_elem_of_In, in_flat_map in He as (ty & Hty & He).
    apply in_flat_map in He as (ns & Hns & He).
    apply list_elem_of_In, xpath_tag_elem in He as [He Htag].
    exists e, ty. split; [done|]. split; [by apply list_elem_of_In|].
    split; [|done]. apply has_tag_tag in Htag. rewrite Htag.
    destruct Hns as [<-|[<-|[]]]; reflexivity.
  - intros (Ht & e & ty & He & Hty & Htag & Hid). right. split; [done|].
    exists e. split; [|done].
    apply list_elem_of_In, in_flat_map. exists ty.
    split; [by apply list_elem_of_In|].
    apply in_flat_map. exists "bpmn2". split; [by left|].
    apply list_elem_of_In, xpath_tag_elem. split; [done|].
    unfold Xml.has_tag. rewrite (xpath_below_element root e He), Htag.
    apply String.eqb_refl.
Qed.

End ComponentIds.

(** X9.  [_extract_all_component_ids] returns each id once: the ids are
    pairwise distinct, none is empty, and an id is returned exactly when
    an element below the root whose tag is one of the seventeen component
    types carries it. *)
Theorem component_ids_distinct_and_complete (root : Xml.node) :
  NoDup (_extract_all_component_ids root) ∧
  ∀ cid, cid ∈ _extract_all_component_ids root ↔
         cid ≠ "" ∧
         ∃ e ty, e ∈ Xml.xpath_below root ∧ ty ∈ component_types ∧
                 Xml.tag (Xml.nd e) = Xml.clark MODEL ty ∧
                 Xml.get (Xml.nd e) "id" = Some cid.
Proof.
  destruct (component_ids_spec root) as [Hnd Hmem].
  split; [done|]. intros cid. rewrite Hmem.
  destruct cid; simpl; split; intros [H1 H2]; try done; by split.
Qed.

(** ** Component chunks *)

Section ComponentChunks.

Context {case_mapping : Str.CaseMapping}.

Variable lib : Library.

Lemma omap_map_sublist {A B C : Type} (f : A → option B) (g : B → C) (h : A → C)
    (l : list A) :
  (∀ x y, f x = Some y → g y = h x) →
  List.map g (omap f l) `sublist_of` List.map h l.
Proof.
  intros Hf. induction l as [|x l IH]; simpl; [done|].
  destruct (f x) as [y|] eqn:Hx; simpl.
  - rewrite (Hf x y Hx). by apply sublist_skip.
  - by apply sublist_cons.
Qed.

Lemma chunk_id_inj (iflow_file : Fs.path) (a b : string) :
  chunk_id iflow_file a = chunk_id iflow_file b → a = b.
Proof.
  unfold chunk_id. intros H. apply String.app_inj in H. by apply String.app_inj in H.
Qed.

End ComponentChunks.

(** X10.  The component chunks of a document have pairwise distinct
    component ids and pairwise distinct chunk ids, and there are at most
    as many as component ids: unlike a flow, a component is never emitted
    twice. *)
Theorem component_chunks_have_distinct_ids
    {case_mapping : Str.CaseMapping}
    (lib : Library) (index : gmap string script_entry) (root : Xml.node)
    (iflow_file : Fs.path) :
  NoDup (List.map component_id (component_chunks lib index root iflow_file)) ∧
  NoDup (List.map id (component_chunks lib index root iflow_file)) ∧
  List.length (component_chunks lib index root iflow_file)
  ≤ List.length (_extract_all_component_ids root).
Proof.
  destruct (component_ids_spec root) as [Hnd _]. unfold component_chunks.
  assert (Hinv : ∀ cid c,
            _create_component_chunk lib index cid root iflow_file = Some c →
            component_id c = Some cid ∧ id c = chunk_id iflow_file cid).
  { intros cid c Hc.
    apply create_component_chunk_inv in Hc as (ce & main & d & H). tauto. }
  split; [|split].
  - eapply sublist_NoDup;
      [|apply (omap_map_sublist _ component_id Some); intros; by apply Hinv].
    apply map_inj_NoDup; [|done]. by intros x y [= ->].
  - eapply sublist_NoDup;
      [|apply (omap_map_sublist _ id (chunk_id iflow_file)); intros; by apply Hinv].
    apply map_inj_NoDup; [|done]. apply chunk_id_inj.
  - rewrite <- (length_map component_id),
      <- (length_map Some (_extract_all_component_ids root)).
    apply sublist_length, (omap_map_sublist _ component_id Some).
    intros; by apply Hinv.
Qed.

Section ComponentParts.

Context {case_mapping : Str.CaseMapping}.

Variable lib : Library.

(** What [_create_component_chunk] went through when it returned a
    chunk. *)
Lemma create_component_chunk_parts (index : gmap string script_entry)
    (cid : string) (root : Xml.node) (iflow_file : Fs.path) (c : chunk) :
  _create_component_chunk lib index cid root iflow_file = Some c →
  ∃ ce main d,
    _extract_component_elements lib cid root = Some ce ∧
    main_component ce = Some main ∧
    Xml.truthy (Xml.nd main) = true ∧
    _extract_component_properties (Xml.nd main) = Some d ∧
    related_scripts c =
      Some (_extract_inline_scripts (Xml.nd main) ++
            (_resolve_component_script_files lib index d
               (_build_complete_component_xml lib ce)).1) ∧
    unresolved_script_refs c =
      Some (_resolve_component_script_files lib index d
              (_build_complete_component_xml lib ce)).2 ∧
    participant c =
      Some (Str.or_default (_resolve_participant_for_element main root) "") ∧
    component_type c = Some (_get_component_type (Xml.nd main)).
Proof.
  unfold _create_component_chunk. intros H.
  bind_inv H. bind_inv H.
  destruct (Xml.truthy (Xml.nd _)) eqn:Ht; [|done]. simpl in H.
  bind_inv H. bind_inv H.
  injection H as <-. do 3 eexists. repeat split; try eassumption; reflexivity.
Qed.

(** Without a double quote in the id, the main component is the first
    element of the document that carries the id. *)
Lemma main_component_first (cid : string) (root : Xml.node)
    (ce : component_elements) :
  Str.contains Str.dquote cid = false →
  _extract_component_elements lib cid root = Some ce →
  main_component ce
  = List.head (List.filter (fun e => Xml.attr_is "id" cid (Xml.nd e))
                 (Xml.xpath_all root)).
Proof.
  intros Hq. unfold _extract_component_elements. intros H.
  bind_inv H. bind_inv H. bind_inv H. bind_inv H. injection H as <-.
  match goal with
  | E : xpath_where _ _ "//*" _ _ _ = Some _ |- _ =>
      unfold xpath_where in E; rewrite Hq in E; injection E as <-
  end.
  reflexivity.
Qed.

Lemma properties_no_comment (nodes : list Xml.node) (d d' : Dict.t) :
  fold_opt harvest nodes d = Some d' →
  Forall (fun n => Xml.is_element n = true) nodes.
Proof.
  revert d. induction nodes as [|n nodes IH]; intros d H; [constructor|].
  simpl in H. destruct (harvest d n) as [d1|] eqn:Hn; [|done].
  constructor; [|by eapply IH].
  destruct n; [done|]. unfold harvest in Hn. simpl in Hn. done.
Qed.

End ComponentParts.

(** X11.  A component chunk is only made for an element that has a
    child node and no comment or processing instruction in its subtree:
    an element with an id of a component type that is empty, or that
    contains a comment, is left without a chunk.  Without a double quote
    in the id, that element is the first element of the document that
    carries the id. *)
Theorem component_chunk_needs_children_and_no_comment
    {case_mapping : Str.CaseMapping}
    (lib : Library) (index : gmap string script_entry) (cid : string)
    (root : Xml.node) (iflow_file : Fs.path) (c : chunk) :
  _create_component_chunk lib index cid root iflow_file = Some c →
  ∃ ce main,
    _extract_component_elements lib cid root = Some ce ∧
    main_component ce = Some main ∧
    Xml.children (Xml.nd main) ≠ [] ∧
    Forall (fun n => Xml.is_element n = true) (Xml.iter (Xml.nd main)) ∧
    (Str.contains Str.dquote cid = false →
     List.head (List.filter (fun e => Xml.attr_is "id" cid (Xml.nd e))
                  (Xml.xpath_all root)) = Some main).
Proof.
  intros (ce & main & d & Hce & Hmain & Ht & Hd & _)%create_component_chunk_parts.
  exists ce, main. split; [done|]. split; [done|]. split; [|split].
  - unfold Xml.truthy in Ht. by destruct (Xml.children (Xml.nd main)).
  - by eapply properties_no_comment.
  - intros Hq. by rewrite <- (main_component_first lib cid root ce Hq Hce).
Qed.

Lemma component_chunk_needs_children_and_no_comment_witness :
  ∃ c, Sample.s1_chunk = Some c ∧
  ∃ ce main,
    _extract_component_elements Sample.lib "S1" Sample.doc_one_flow = Some ce ∧
    main_component ce = Some main ∧
    Xml.children (Xml.nd main) ≠ [] ∧
    Forall (fun n => Xml.is_element n = true) (Xml.iter (Xml.nd main)) ∧
    (Str.contains Str.dquote "S1" = false →
     List.head (List.filter (fun e => Xml.attr_is "id" "S1" (Xml.nd e))
                  (Xml.xpath_all Sample.doc_one_flow)) = Some main).
Proof.
  eexists. split; [reflexivity|].
  eapply (component_chunk_needs_children_and_no_comment Sample.lib ∅ "S1"
            Sample.doc_one_flow Sample.flow_file).
  vm_compute. reflexivity.
Defined.

(** ** Related scripts *)

Section RelatedScripts.

Context {case_mapping : Str.CaseMapping}.

Lemma inline_loop_elem (nodes : list Xml.node) (related : list related_script)
    (r : related_script) :
  Forall (fun n => Xml.is_element n = true) nodes →
  r ∈ inline_scripts_loop nodes related ↔
  r ∈ related ∨
  ∃ m, m ∈ nodes ∧
       Str.lower (Xml.local_name (Xml.tag m)) = "script" ∧
       Str.truthy (Str.strip (text_or_empty m)) = true ∧
       r = InlineScript (Str.strip (text_or_empty m))
             (Str.len (Str.strip (text_or_empty m))).
Proof.
  intros Hall. revert related.
  induction Hall as [|n nodes Hn _ IH]; intros related.
  - simpl. split; [by left|]. intros [?|(m & ?%elem_of_nil & _)]; done.
  - destruct n as [t a tx tl cs|]; [|done]. cbn [inline_scripts_loop].
    destruct (String.eqb_spec (Str.lower (Xml.local_name t)) "script") as [Hs|Hs].
    + destruct (Str.truthy (Str.strip (text_or_empty (Xml.Element t a tx tl cs))))
        eqn:Ht.
      * rewrite IH, elem_of_app, list_elem_of_singleton. split.
        -- intros [[?| ->]|(m & Hm & H)].
           ++ by left.
           ++ right. eexists. split; [apply list_elem_of_here|]. done.
           ++ right. exists m. split; [by apply list_elem_of_further|done].
        -- intros [?|(m & [->|Hm]%elem_of_cons & Hl & Hm' & ->)].
           ++ by left; left.
           ++ by left; right.
           ++ right. by exists m.
      * rewrite IH. split.
        -- intros [?|(m & Hm & H)]; [by left|].
           right. exists m. split; [by apply list_elem_of_further|done].
        -- intros [?|(m & [->|Hm]%elem_of_cons & Hl & Hm' & ->)].
           ++ by left.
           ++ congruence.
           ++ right. by exists m.
    + rewrite IH. split.
      * intros [?|(m & Hm & H)]; [by left|].
        right. exists m. split; [by apply list_elem_of_further|done].
      * intros [?|(m & [->|Hm]%elem_of_cons & Hl & Hm' & ->)].
        -- by left.
        -- by destruct Hs.
        -- right. by exists m.
Qed.

(** The loop over the candidates, step by step. *)
Lemma resolve_step_cases (index : gmap string script_entry) (st : resolution)
    (cand : string) :
  (Str.lower cand ∈ seen st ∧ resolve_step index st cand = st) ∨
  ((Str.lower cand ∉ seen st) ∧
   seen (resolve_step index st cand) = {[Str.lower cand]} ∪ seen st ∧
   ((∃ e, lookup_script index (Str.lower cand) = Some e ∧
          resolved (resolve_step index st cand) = resolved st ++ [reported e] ∧
          unresolved (resolve_step index st cand) = unresolved st) ∨
    (lookup_script index (Str.lower cand) = None ∧
     resolved (resolve_step index st cand) = resolved st ∧
     unresolved (resolve_step index st cand) = unresolved st ++ [cand]))).
Proof.
  unfold resolve_step. cbv zeta.
  destruct (decide (Str.lower cand ∈ seen st)) as [Hin|Hout].
  - left. by rewrite bool_decide_eq_true_2.
  - right. rewrite bool_decide_eq_false_2 by done. split; [done|].
    destruct (lookup_script index (Str.lower cand)) as [e|]; simpl.
    + split; [done|]. left. by exists e.
    + split; [done|]. by right.
Qed.

Lemma resolve_fold_full (index : gmap string script_entry)
    (candidates : list string) (st : resolution) :
  (∀ u, u ∈ unresolved st → Str.lower u ∈ seen st) →
  NoDup (List.map Str.lower (unresolved st)) →
  (∀ lc, lc ∈ seen st → lookup_script index lc = None →
         ∃ u, u ∈ unresolved st ∧ Str.lower u = lc) →
  let st' := fold_left (resolve_step index) candidates st in
  (∀ r, r ∈ resolved st' →
        r ∈ resolved st ∨
        ∃ cand e, cand ∈ candidates ∧
                  lookup_script index (Str.lower cand) = Some e ∧ r = reported e) ∧
  (∀ u, u ∈ unresolved st' →
        u ∈ unresolved st ∨
        (u ∈ candidates ∧ lookup_script index (Str.lower u) = None)) ∧
  seen st' = seen st ∪ list_to_set (List.map Str.lower candidates) ∧
  List.length (resolved st') + List.length (unresolved st') + size (seen st)
  = List.length (resolved st) + List.length (unresolved st) + size (seen st') ∧
  NoDup (List.map Str.lower (unresolved st')) ∧
  (∀ lc, lc ∈ seen st' → lookup_script index lc = None →
         ∃ u, u ∈ unresolved st' ∧ Str.lower u = lc).
Proof.
  revert st. induction candidates as [|cand candidates IH]; intros st Hu Hnd Hc; simpl.
  - repeat split; try done; [by left|by left|set_solver].
  - destruct (resolve_step_cases index st cand)
      as [[Hin ->]|(Hout & Hseen & [(e & He & Hr & Hun)|(Hnone & Hr & Hun)])].
    + destruct (IH st Hu Hnd Hc) as (H1 & H2 & H3 & H4 & H5 & H6).
      split; [|split; [|split; [|done]]].
      * intros r [?|(c & e & Hcin & He & ->)]%H1; [by left|].
        right. exists c, e. split; [by apply list_elem_of_further|done].
      * intros u [?|[Hcin Hn]]%H2; [by left|].
        right. split; [by apply list_elem_of_further|done].
      * rewrite H3. set_solver.
    + destruct (IH (resolve_step index st cand)) as (H1 & H2 & H3 & H4 & H5 & H6).
      { rewrite Hun, Hseen. intros u Hu'. apply elem_of_union_r. by apply Hu. }
      { by rewrite Hun. }
      { rewrite Hun, Hseen. intros lc Hlc Hn.
        apply elem_of_union in Hlc as [Hlc|Hlc]; [|by apply Hc].
        apply elem_of_singleton in Hlc as ->. congruence. }
      split; [|split; [|split; [|split; [|done]]]].
      * intros r [Hrin|(c & e' & Hcin & He' & ->)]%H1.
        -- rewrite Hr in Hrin. apply elem_of_app in Hrin as [?|Hrin]; [by left|].
           apply list_elem_of_singleton in Hrin as ->.
           right. exists cand, e. split; [apply list_elem_of_here|done].
        -- right. exists c, e'. split; [by apply list_elem_of_further|done].
      * intros u [Huin|[Hcin Hn]]%H2; [rewrite Hun in Huin; by left|].
        right. split; [by apply list_elem_of_further|done].
      * rewrite H3, Hseen. set_solver.
      * rewrite Hr, Hun, Hseen in H4. rewrite length_app in H4. simpl in H4.
        rewrite size_union in H4 by set_solver. rewrite size_singleton in H4. lia.
    + destruct (IH (resolve_step index st cand)) as (H1 & H2 & H3 & H4 & H5 & H6).
      { rewrite Hun, Hseen. intros u [Hu'|Hu']%elem_of_app.
        - apply elem_of_union_r. by apply Hu.
        - apply list_elem_of_singleton in Hu' as ->.
          apply elem_of_union_l. by apply elem_of_singleton. }
      { rewrite Hun, map_app. apply NoDup_app. split; [done|].
        split; [|apply NoDup_singleton].
        intros lc (u & <- & Hu')%list_elem_of_In%in_map_iff Hlc.
        apply list_elem_of_singleton in Hlc. apply Hout. rewrite <- Hlc.
        apply Hu. by apply list_elem_of_In. }
      { rewrite Hun, Hseen. intros lc [Hlc|Hlc]%elem_of_union Hn.
        - apply elem_of_singleton in Hlc as ->.
          exists cand. split; [|done]. apply elem_of_app. right.
          apply list_elem_of_here.
        - destruct (Hc lc Hlc Hn) as (u & Hu' & <-). exists u.
          split; [|done]. apply elem_of_app. by left. }
      split; [|split; [|split; [|split; [|done]]]].
      * intros r [Hrin|(c & e' & Hcin & He' & ->)]%H1.
        -- rewrite Hr in Hrin. by left.
        -- right. exists c, e'. split; [by apply list_elem_of_further|done].
      * intros u [Huin|[Hcin Hn]]%H2.
        -- rewrite Hun in Huin. apply elem_of_app in Huin as [?|Huin]; [by left|].
           apply list_elem_of_singleton in Huin as ->.
           right. split; [apply list_elem_of_here|done].
        -- right. split; [by apply list_elem_of_further|done].
      * rewrite H3, Hseen. set_solver.
      * rewrite Hr, Hun, Hseen in H4. rewrite length_app in H4. simpl in H4.
        rewrite size_union in H4 by set_solver. rewrite size_singleton in H4. lia.
Qed.

End RelatedScripts.

Lemma unresolved_first {case_mapping : Str.CaseMapping} (index : gmap string script_entry)
    (candidates : list string) (st : resolution) (u : string) :
  u ∈ unresolved (fold_left (resolve_step index) candidates st) ↔
  u ∈ unresolved st ∨
  (lookup_script index (Str.lower u) = None ∧ (Str.lower u ∉ seen st) ∧
   ∃ before after, candidates = before ++ u :: after ∧
                   (Str.lower u ∉ List.map Str.lower before)).
Proof.
  revert st. induction candidates as [|cand rest IH]; intros st; simpl.
  { split; [by left|]. intros [?|(_ & _ & b & a & Hba & _)]; [done|].
    by destruct b. }
  rewrite IH.
  assert (Hshift : ∀ b a, rest = b ++ u :: a →
            (Str.lower u ∉ List.map Str.lower b) → Str.lower u ≠ Str.lower cand →
            ∃ before after, cand :: rest = before ++ u :: after ∧
                            (Str.lower u ∉ List.map Str.lower before)).
  { intros b a -> Hb Hne. exists (cand :: b), a. split; [done|].
    simpl. intros [?|?]%elem_of_cons; done. }
  assert (Hback : ∀ b a, cand :: rest = b ++ u :: a →
            (Str.lower u ∉ List.map Str.lower b) →
            (b = [] ∧ u = cand) ∨
            (Str.lower u ≠ Str.lower cand ∧
             ∃ b' a', rest = b' ++ u :: a' ∧
                      (Str.lower u ∉ List.map Str.lower b'))).
  { intros [|x b] a Hba Hb; simpl in Hba; injection Hba as -> ->; [by left|].
    right. simpl in Hb. apply not_elem_of_cons in Hb as [Hne Hb].
    split; [done|]. by exists b, a. }
  destruct (resolve_step_cases index st cand)
    as [[Hin ->]|(Hout & Hseen & [(e & He & Hr & Hun)|(Hnone & Hr & Hun)])].
  - split.
    + intros [?|(Hn & Hu & b & a & Hba & Hb)]; [by left|]. right.
      split; [done|]. split; [done|]. apply (Hshift b a Hba Hb). congruence.
    + intros [?|(Hn & Hu & b & a & Hba & Hb)]; [by left|]. right.
      destruct (Hback b a Hba Hb) as [[_ ->]|[Hne Hrest]]; [done|]. done.
  - rewrite Hun, Hseen. split.
    + intros [?|(Hn & Hu & b & a & Hba & Hb)]; [by left|]. right.
      apply not_elem_of_union in Hu as [Hne Hu]. split; [done|]. split; [done|].
      apply (Hshift b a Hba Hb). intros Heq. apply Hne. by apply elem_of_singleton.
    + intros [?|(Hn & Hu & b & a & Hba & Hb)]; [by left|]. right.
      destruct (Hback b a Hba Hb) as [[_ ->]|[Hne Hrest]]; [congruence|].
      split; [done|]. split; [|done].
      apply not_elem_of_union. split; [|done]. by intros ?%elem_of_singleton.
  - rewrite Hun, Hseen, elem_of_app, list_elem_of_singleton. split.
    + intros [[?| ->]|(Hn & Hu & b & a & Hba & Hb)].
      * by left.
      * right. split; [done|]. split; [done|]. exists [], rest.
        split; [done|apply not_elem_of_nil].
      * right. apply not_elem_of_union in Hu as [Hne Hu].
        split; [done|]. split; [done|].
        apply (Hshift b a Hba Hb). intros Heq. apply Hne. by apply elem_of_singleton.
    + intros [?|(Hn & Hu & b & a & Hba & Hb)]; [by left; left|].
      destruct (Hback b a Hba Hb) as [[_ ->]|[Hne Hrest]]; [by left; right|].
      right. split; [done|]. split; [|done].
      apply not_elem_of_union. split; [|done]. by intros ?%elem_of_singleton.
Qed.

(** X12.  [_resolve_component_script_files] loses no candidate and
    invents none.  The candidates are those of the properties followed by
    the names found in the markup.  Each candidate, compared without
    regard to case, is counted once: resolved and unresolved entries
    together are as many as the candidates that differ up to case.  A
    resolved entry reports the index entry of a candidate; an unresolved
    reference is the first candidate of its spelling up to case, and the
    index knows neither its lower-case form nor the stem of that; no two
    unresolved references are equal up to case. *)
Theorem script_references_partition
    {case_mapping : Str.CaseMapping}
    (lib : Library) (index : gmap string script_entry) (properties : Dict.t)
    (component_xml : string) :
  let candidates := script_candidates lib properties component_xml in
  let res := _resolve_component_script_files lib index properties component_xml in
  List.length res.1 + List.length res.2
  = size (list_to_set (List.map Str.lower candidates) : gset string) ∧
  NoDup (List.map Str.lower res.2) ∧
  (∀ r, r ∈ res.1 ↔
        ∃ cand e, cand ∈ candidates ∧
                  lookup_script index (Str.lower cand) = Some e ∧ r = reported e) ∧
  (∀ u, u ∈ res.2 ↔
        lookup_script index (Str.lower u) = None ∧
        ∃ before after, candidates = before ++ u :: after ∧
                        (Str.lower u ∉ List.map Str.lower before)).
Proof.
  intros candidates res. subst res. unfold _resolve_component_script_files.
  fold candidates. cbv zeta. cbn [fst snd]. unfold resolve_candidates.
  destruct (resolve_fold_full index candidates (Resolution [] [] ∅))
    as (H1 & H2 & H3 & H4 & H5 & H6).
  { by intros u ?%elem_of_nil. }
  { constructor. }
  { by intros lc ?%elem_of_empty. }
  cbn [resolved unresolved seen] in H1, H3, H4.
  split; [|split; [done|split]].
  - rewrite size_empty in H4. rewrite union_empty_l_L in H3. rewrite <- H3.
    cbn [List.length] in H4. lia.
  - intros r. split.
    + intros [?%elem_of_nil|?]%H1; done.
    + intros (cand & e & Hin & He & ->).
      by apply (found_is_resolved index candidates cand e).
  - intros u. rewrite unresolved_first. cbn [unresolved seen]. split.
    + intros [?%elem_of_nil|(Hn & _ & Hfirst)]; done.
    + intros [Hn Hfirst]. right. split; [done|]. split; [apply not_elem_of_empty|done].
Qed.

Section ScriptEntries.

Context {case_mapping : Str.CaseMapping}.

Variable lib : Library.
Variable embedding_generator : option (string → string → string).

Lemma resolved_are_reported (index : gmap string script_entry)
    (properties : Dict.t) (component_xml : string) (r : related_script) :
  r ∈ (_resolve_component_script_files lib index properties component_xml).1 →
  ∃ lc e, lookup_script index lc = Some e ∧ r = reported e.
Proof.
  unfold _resolve_component_script_files. cbv zeta. cbn [fst].
  unfold resolve_candidates. intros Hr.
  match type of Hr with
  | _ ∈ resolved (fold_left _ ?cands _) =>
      destruct (resolve_fold_full index cands (Resolution [] [] ∅)) as (H1 & _)
  end.
  { by intros u ?%elem_of_nil. }
  { constructor. }
  { by intros lc ?%elem_of_empty. }
  apply H1 in Hr as [?%elem_of_nil|(cand & e & _ & He & ->)]; [done|]. eauto.
Qed.

(** The entries of a freshly built index point to discovered scripts
    and carry no chunk id. *)
Lemma build_index_entries (scripts : list Fs.path) (idx : gmap string script_entry)
    (key : string) (e : script_entry) :
  fold_left index_step scripts idx !! key = Some e →
  idx !! key = Some e ∨
  (se_chunk_id e = None ∧ ∃ p, p ∈ scripts ∧ se_file_name e = Fs.relpath p).
Proof.
  revert idx. induction scripts as [|p scripts IH]; intros idx; simpl; [by left|].
  intros [Hstep|(Hn & q & Hq & Hf)]%IH.
  - unfold index_step, _index_script_file in Hstep. cbv zeta in Hstep.
    apply lookup_insert_Some in Hstep as [[_ <-]|[_ Hstep]].
    { right. split; [done|]. exists p. split; [apply list_elem_of_here|done]. }
    apply lookup_insert_Some in Hstep as [[_ <-]|[_ Hstep]]; [|by left].
    right. split; [done|]. exists p. split; [apply list_elem_of_here|done].
  - right. split; [done|]. exists q. split; [by apply list_elem_of_further|done].
Qed.

Lemma lookup_script_entry (index : gmap string script_entry) (lc : string)
    (e : script_entry) :
  lookup_script index lc = Some e → ∃ key, index !! key = Some e.
Proof.
  unfold lookup_script. destruct (index !! lc) eqn:E.
  - intros [= <-]. eauto.
  - eauto.
Qed.

Lemma container_fold_elem (mk : string → Xml.node → chunk) (fallback : string)
    (l : list Xml.elem) (c : chunk) :
  c ∈ (fold_left (container_step mk fallback) l ([], ∅)).1 →
  ∃ i n, c = mk i n.
Proof.
  intros Hc.
  assert (H : Forall (fun c => ∃ i n, c = mk i n)
                (fold_left (container_step mk fallback) l ([], ∅)).1).
  { apply container_fold_Forall; [by eauto|constructor]. }
  rewrite Forall_forall in H. by apply H.
Qed.

(** The chunks of the document other than the component chunks list no
    related scripts. *)
Lemma main_chunks_scripts (listing : list (Fs.path * Fs.file))
    (index : gmap string script_entry) (main : Fs.path) (c : chunk)
    (rs : list related_script) :
  c ∈ _process_main_iflow_with_components lib embedding_generator listing index main →
  related_scripts c = Some rs →
  rs = [] ∨
  ∃ root, c ∈ component_chunks lib index root main.
Proof.
  unfold _process_main_iflow_with_components.
  destruct (Fs.read_text listing main) as [text|]; [|by intros ?%elem_of_nil].
  destruct (fromstring lib text) as [root|]; [|by intros ?%elem_of_nil].
  rewrite !elem_of_app.
  intros [Hc|[Hc|[Hc|[Hc|[Hc|Hc]]]]] Hrs.
  - apply list_elem_of_singleton in Hc as ->. done.
  - right. by exists root.
  - apply collect_until_error_elem in Hc as (flow & _ & Hc).
    unfold message_flow_chunk in Hc. bind_inv Hc. injection Hc as <-. done.
  - apply collect_until_error_elem in Hc as (flow & _ & Hc).
    unfold sequence_flow_chunk in Hc. bind_inv Hc. injection Hc as <-. done.
  - apply container_fold_elem in Hc as (i & n & ->). left. by injection Hrs as <-.
  - apply container_fold_elem in Hc as (i & n & ->). left. by injection Hrs as <-.
Qed.

End ScriptEntries.

(** X13.  The inline scripts of a component chunk are exactly the
    script elements of the component whose text is not blank: an entry
    with content [s] is listed if and only if an element of the subtree
    of the main element has the local name [script], in any case, and the
    stripped text [s], which is not empty; the recorded length is the
    number of characters of [s]. *)
Theorem inline_scripts_of_a_component
    {case_mapping : Str.CaseMapping}
    (lib : Library) (index : gmap string script_entry) (cid : string)
    (root : Xml.node) (iflow_file : Fs.path) (c : chunk) :
  _create_component_chunk lib index cid root iflow_file = Some c →
  ∃ ce main rs,
    _extract_component_elements lib cid root = Some ce ∧
    main_component ce = Some main ∧
    related_scripts c = Some rs ∧
    ∀ s n, InlineScript s n ∈ rs ↔
           ∃ m, m ∈ Xml.iter (Xml.nd main) ∧
                Str.lower (Xml.local_name (Xml.tag m)) = "script" ∧
                s = Str.strip (text_or_empty m) ∧ s ≠ "" ∧
                n = Str.len s.
Proof.
  intros (ce & main & d & Hce & Hmain & _ & Hd & Hrs & _)%create_component_chunk_parts.
  exists ce, main. eexists. split; [done|]. split; [done|]. split; [exact Hrs|].
  intros s n. rewrite elem_of_app. unfold _extract_inline_scripts.
  rewrite inline_loop_elem by (by eapply properties_no_comment). split.
  - intros [[?%elem_of_nil|(m & Hm & Hl & Ht & [= -> ->])]|Hr]; [done| |].
    + exists m. repeat split; try done.
      by destruct (Str.strip (text_or_empty m)).
    + apply resolved_are_reported in Hr as (lc & e & _ & He). discriminate He.
  - intros (m & Hm & Hl & -> & Hne & ->). left. right. exists m.
    repeat split; try done. by destruct (Str.strip (text_or_empty m)).
Qed.

Lemma inline_scripts_of_a_component_witness :
  ∃ c, Sample.inline_chunk = Some c ∧
  ∃ ce main rs,
    _extract_component_elements Sample.lib "T1" Sample.doc_inline = Some ce ∧
    main_component ce = Some main ∧
    related_scripts c = Some rs ∧
    ∀ s n, InlineScript s n ∈ rs ↔
           ∃ m, m ∈ Xml.iter (Xml.nd main) ∧
                Str.lower (Xml.local_name (Xml.tag m)) = "script" ∧
                s = Str.strip (text_or_empty m) ∧ s ≠ "" ∧
                n = Str.len s.
Proof.
  eexists. split; [reflexivity|].
  eapply (inline_scripts_of_a_component Sample.lib ∅ "T1" Sample.doc_inline
            Sample.flow_file).
  vm_compute. reflexivity.
Defined.

(** A script that holds only a no-break space is blank; the length
    recorded for the other one counts its characters. *)
Example inline_scripts_beyond_ascii :
  ∃ c, _create_component_chunk Sample.lib ∅ "T1" Sample.doc_inline_wide
         Sample.flow_file = Some c ∧
       related_scripts c
       = Some [InlineScript ("x = " +:+ Sample.emoji) 5].
Proof. eexists. split; vm_compute; reflexivity. Qed.

(** X14.  In a run the component chunks are made from the index as
    [_build_script_index] leaves it, before any script file has a chunk:
    every entry of [related_scripts] that names a script file names a
    discovered script by its relative path and carries an empty
    [chunk_id]; the ids the index receives later never reach a chunk. *)
Theorem file_scripts_carry_no_chunk_id
    {case_mapping : Str.CaseMapping}
    (lib : Library) (embedding_generator : option (string → string → string))
    (base : string) (pkg : Fs.dir) (c : chunk) (rs : list related_script)
    (f cid : string) :
  c ∈ chunks (process_complete_iflow_package lib embedding_generator base pkg) →
  related_scripts c = Some rs →
  FileScript f cid ∈ rs →
  cid = "" ∧
  ∃ p, p ∈ _discover_all_files (Fs.walk base [] pkg) groovy_scripts ∧
       f = Fs.relpath p.
Proof.
  unfold process_complete_iflow_package. cbn [chunks]. rewrite run_chunks.
  intros [Hc|Hc]%elem_of_app Hrs Hf.
  - unfold main_chunks in Hc. cbv zeta in Hc.
    destruct (_find_main_iflow _) as [main|]; [|by apply elem_of_nil in Hc].
    destruct (main_chunks_scripts lib embedding_generator _ _ main c rs Hc Hrs)
      as [->|[root Hcomp]]; [by apply elem_of_nil in Hf|].
    apply component_chunks_elem in Hcomp as (cid' & _ & Hcreate).
    apply create_component_chunk_parts
      in Hcreate as (ce & m & d & _ & _ & _ & Hd & Hrs' & _).
    rewrite Hrs in Hrs'. injection Hrs' as ->.
    apply elem_of_app in Hf as [Hf|Hf].
    + unfold _extract_inline_scripts in Hf.
      apply inline_loop_elem in Hf as [?%elem_of_nil|(m' & _ & _ & _ & ?)];
        [done|done|by eapply properties_no_comment].
    + apply resolved_are_reported in Hf as (lc & e & He & Heq).
      apply lookup_script_entry in He as [key He].
      unfold _build_script_index in He.
      apply build_index_entries in He as [He|(Hn & p & Hp & Hname)];
        [by rewrite lookup_empty in He|].
      unfold reported in Heq. rewrite Hn in Heq. injection Heq as -> ->.
      split; [done|]. by exists p.
  - apply list_elem_of_omap in Hc as (item & _ & Hc).
    unfold related_chunk, _process_related_file in Hc.
    destruct (skipped_before_read _ _); [done|].
    destruct (Fs.read_text _ _); [|done].
    destruct (50000 <? _)%N; [done|]. injection Hc as <-. done.
Qed.

Lemma file_scripts_carry_no_chunk_id_witness :
  "" = "" ∧
  ∃ p, p ∈ _discover_all_files (Fs.walk "/tmp/pkg" [] Sample.pkg_ok) groovy_scripts ∧
       "src/Validate.gsh" = Fs.relpath p.
Proof.
  apply (file_scripts_carry_no_chunk_id Sample.lib None "/tmp/pkg" Sample.pkg_ok
           Sample.s1_of_run [FileScript "src/Validate.gsh" ""]).
  - vm_compute. apply list_elem_of_further, list_elem_of_here.
  - reflexivity.
  - apply list_elem_of_here.
Defined.

(** ** Participants *)

Section Ownership.

Context {case_mapping : Str.CaseMapping}.

Lemma head_filter_find {A : Type} (g : A → bool) (l : list A) :
  List.head (List.filter g l) = List.find g l.
Proof.
  induction l as [|x l IH]; simpl; [done|]. by destruct (g x).
Qed.

Lemma find_app_twice {A : Type} (g : A → bool) (l : list A) :
  List.find g (l ++ l) = List.find g l.
Proof.
  assert (H : ∀ l', List.find g (l ++ l')
                    = match List.find g l with
                      | Some x => Some x
                      | None => List.find g l'
                      end).
  { intros l'. induction l as [|x l IH]; simpl; [done|]. by destruct (g x). }
  rewrite H. by destruct (List.find g l).
Qed.

(** The participant of a process is the first participant element that
    refers to it and has an id. *)
Lemma participant_fold (l : list Xml.elem) (m : gmap string string) (k : string) :
  fold_left participant_step l m !! k
  = match m !! k with
    | Some v => Some v
    | None =>
        List.find
          (fun p => Str.truthy_opt (Xml.get (Xml.nd p) "processRef")
                    && Str.truthy_opt (Xml.get (Xml.nd p) "id")
                    && bool_decide (Xml.get (Xml.nd p) "processRef" = Some k)) l
        ≫= (fun p => Xml.get (Xml.nd p) "id")
    end.
Proof.
  revert m. induction l as [|p l IH]; intros m; simpl.
  { by destruct (m !! k). }
  rewrite IH. unfold participant_step.
  destruct (Xml.get (Xml.nd p) "processRef") as [pref|] eqn:Hpref; simpl;
    [|done].
  destruct (Xml.get (Xml.nd p) "id") as [pid|] eqn:Hpid; simpl;
    [|by rewrite andb_false_r].
  destruct (Str.truthy pref) eqn:Htp; simpl; [|done].
  destruct (Str.truthy pid) eqn:Hti; simpl; [|done].
  destruct (decide (pref ∈ dom m)) as [Hin|Hout].
  - rewrite bool_decide_eq_true_2 by done. simpl.
    destruct (m !! k) as [v|] eqn:Hk; [done|].
    rewrite bool_decide_eq_false_2; [done|].
    intros [= ->]. apply elem_of_dom in Hin as [v Hv]. congruence.
  - rewrite (bool_decide_eq_false_2 (pref ∈ dom m)) by done. simpl.
    destruct (decide (pref = k)) as [->|Hne].
    + rewrite lookup_insert_eq. apply not_elem_of_dom in Hout. rewrite Hout.
      rewrite bool_decide_eq_true_2 by done. simpl. done.
    + rewrite lookup_insert_ne by done. rewrite bool_decide_eq_false_2 by congruence.
      done.
Qed.

(** The owning process recorded for an id is that of the first element
    that carries the id. *)
Lemma element_process_fold (root : Xml.node) (l : list Xml.elem)
    (m : gmap string (option string)) (k : string) :
  Str.truthy k = true →
  fold_left (element_process_step root) l m !! k
  = match m !! k with
    | Some v => Some v
    | None =>
        _find_owning_process_id root
          <$> List.find (fun e => Xml.attr_is "id" k (Xml.nd e)) l
    end.
Proof.
  intros Hk. revert m. induction l as [|e l IH]; intros m; simpl.
  { by destruct (m !! k). }
  rewrite IH. unfold element_process_step, Xml.attr_is.
  destruct (Xml.get (Xml.nd e) "id") as [i|] eqn:Hi; [|done].
  destruct (String.eqb_spec i k) as [->|Hne].
  - rewrite Hk. simpl. destruct (decide (k ∈ dom m)) as [Hin|Hout].
    + rewrite bool_decide_eq_true_2 by done. simpl.
      apply elem_of_dom in Hin as [v Hv]. by rewrite Hv.
    + rewrite bool_decide_eq_false_2 by done. simpl.
      rewrite lookup_insert_eq. apply not_elem_of_dom in Hout. by rewrite Hout.
  - destruct (Str.truthy i && negb (bool_decide (i ∈ dom m))); [|done].
    by rewrite lookup_insert_ne.
Qed.

Lemma or_default_empty (o : option string) :
  Str.or_default o "" = default "" o.
Proof. destruct o as [[|a s]|]; done. Qed.

End Ownership.

(** X15.  The map from processes to participants gives a process the
    id of the first participant element, in document order, that refers
    to the process and has a non-empty id: a participant without an id is
    passed over, a later participant of the same process never replaces
    an earlier one, and querying the second namespace alias changes
    nothing. *)
Theorem first_participant_wins (root : Xml.node) (pref : string) :
  _build_process_to_participant_map root !! pref
  = List.find
      (fun p => Str.truthy_opt (Xml.get (Xml.nd p) "processRef")
                && Str.truthy_opt (Xml.get (Xml.nd p) "id")
                && bool_decide (Xml.get (Xml.nd p) "processRef" = Some pref))
      (xpath_tag (Xml.xpath_all root) "bpmn2" "participant")
    ≫= (fun p => Xml.get (Xml.nd p) "id").
Proof.
  unfold _build_process_to_participant_map, model_aliases.
  cbn [fold_left].
  change (xpath_tag (Xml.xpath_all root) "bpmn" "participant")
    with (xpath_tag (Xml.xpath_all root) "bpmn2" "participant").
  rewrite <- fold_left_app, participant_fold, lookup_empty.
  by rewrite find_app_twice.
Qed.

Section Agreement.

Context {case_mapping : Str.CaseMapping}.

Variable lib : Library.

Lemma participant_of_first (root : Xml.node) (cid : string) (main : Xml.elem) :
  Str.truthy cid = true →
  List.head (List.filter (fun e => Xml.attr_is "id" cid (Xml.nd e))
               (Xml.xpath_all root)) = Some main →
  participant_of root cid
  = Str.or_default (_resolve_participant_for_element main root) "".
Proof.
  intros Hk Hmain. rewrite head_filter_find in Hmain.
  unfold participant_of, element_process_map.
  rewrite (element_process_fold root _ ∅ cid Hk), lookup_empty, Hmain. simpl.
  unfold _resolve_participant_for_element.
  destruct (_find_owning_process_id root main) as [proc|]; [|done].
  destruct (Str.truthy proc); [|done]. by rewrite or_default_empty.
Qed.

Lemma sequence_flow_chunk_ends (root : Xml.node) (iflow_file : Fs.path)
    (c : chunk) :
  c ∈ _extract_sequence_flows lib root iflow_file →
  ∃ src tgt, connections c = Some [src; tgt] ∧
             participants c = Some (participant_of root src, participant_of root tgt).
Proof.
  unfold _extract_sequence_flows.
  intros (flow & _ & Hc)%collect_until_error_elem.
  unfold sequence_flow_chunk in Hc. bind_inv Hc. injection Hc as <-.
  by do 2 eexists.
Qed.

End Agreement.

(** X16.  Component chunks and sequence-flow chunks agree on ownership:
    when a sequence flow starts or ends at a component whose id holds no
    double quote, the participant the flow chunk names for that end is
    the participant of the component chunk.  Both are obtained from the
    first element of the document that carries the id. *)
Theorem component_and_flow_agree_on_participant
    {case_mapping : Str.CaseMapping}
    (lib : Library) (index : gmap string script_entry) (root : Xml.node)
    (iflow_file : Fs.path) (c f : chunk) (cid src tgt ps pt : string) :
  c ∈ component_chunks lib index root iflow_file →
  component_id c = Some cid →
  Str.contains Str.dquote cid = false →
  f ∈ _extract_sequence_flows lib root iflow_file →
  connections f = Some [src; tgt] →
  participants f = Some (ps, pt) →
  participant c = Some (participant_of root cid) ∧
  (src = cid → participant c = Some ps) ∧
  (tgt = cid → participant c = Some pt).
Proof.
  intros Hc Hcid Hq Hf Hconn Hparts.
  apply component_chunks_elem in Hc as (cid' & Hin & Hc).
  destruct (create_component_chunk_inv lib index cid' root iflow_file c Hc)
    as (ce0 & main0 & d0 & _ & _ & _ & _ & _ & Hcid' & _).
  rewrite Hcid in Hcid'. injection Hcid' as <-.
  apply component_ids_spec in Hin as [Ht _].
  apply create_component_chunk_parts
    in Hc as (ce & main & d & Hce & Hmain & _ & _ & _ & _ & Hpart & _).
  rewrite (main_component_first lib cid root ce Hq Hce) in Hmain.
  rewrite <- (participant_of_first root cid main Ht Hmain) in Hpart.
  apply sequence_flow_chunk_ends in Hf as (src' & tgt' & Hconn' & Hparts').
  rewrite Hconn in Hconn'. injection Hconn' as <- <-.
  rewrite Hparts in Hparts'. injection Hparts' as -> ->.
  split; [done|]. split; by intros ->.
Qed.

Lemma component_and_flow_agree_on_participant_witness :
  participant Sample.pool_s1 = Some (participant_of Sample.doc_pool "S1") ∧
  ("S1" = "S1" → participant Sample.pool_s1 = Some "Part1") ∧
  ("T1" = "S1" → participant Sample.pool_s1 = Some "Part1").
Proof.
  apply (component_and_flow_agree_on_participant Sample.lib ∅ Sample.doc_pool
           Sample.flow_file Sample.pool_s1 Sample.pool_f1 "S1" "S1" "T1"
           "Part1" "Part1").
  - vm_compute. apply list_elem_of_here.
  - reflexivity.
  - reflexivity.
  - vm_compute. apply list_elem_of_here.
  - reflexivity.
  - reflexivity.
Defined.

(** ** Process and sub-process chunks *)

Section Containers.

Context {case_mapping : Str.CaseMapping}.

Lemma container_fold_spec (mk : string → Xml.node → chunk) (fallback : string)
    (l : list Xml.elem) (st : list chunk * gset string) :
  (∀ i n, component_id (mk i n) = Some i) →
  NoDup (List.map component_id st.1) →
  (∀ i, Some i ∈ List.map component_id st.1 ↔ i ∈ st.2) →
  let st' := fold_left (container_step mk fallback) l st in
  NoDup (List.map component_id st'.1) ∧
  (∀ i, Some i ∈ List.map component_id st'.1 ↔ i ∈ st'.2) ∧
  st.2 ⊆ st'.2 ∧
  ∀ e, e ∈ l → Str.or_default (Xml.get (Xml.nd e) "id") fallback ∈ st'.2.
Proof.
  intros Hmk. revert st. induction l as [|e l IH]; intros st Hnd Hiff; simpl.
  { repeat split; try done; try apply Hiff. by intros e ?%elem_of_nil. }
  set (cid := Str.or_default (Xml.get (Xml.nd e) "id") fallback).
  assert (Hstep : NoDup (List.map component_id (container_step mk fallback st e).1) ∧
                  (∀ i, Some i ∈ List.map component_id (container_step mk fallback st e).1
                        ↔ i ∈ (container_step mk fallback st e).2) ∧
                  st.2 ⊆ (container_step mk fallback st e).2 ∧
                  cid ∈ (container_step mk fallback st e).2).
  { unfold container_step. fold cid. cbv zeta.
    destruct (decide (cid ∈ st.2)) as [Hin|Hout].
    - rewrite bool_decide_eq_true_2 by done. done.
    - rewrite bool_decide_eq_false_2 by done. simpl.
      rewrite map_app. simpl. rewrite Hmk. split; [|split; [|split]].
      + apply NoDup_app. split; [done|]. split; [|apply NoDup_singleton].
        intros x Hx Hx'. apply list_elem_of_singleton in Hx' as ->.
        by apply Hiff in Hx.
      + intros i. rewrite elem_of_app, list_elem_of_singleton, Hiff. set_solver.
      + set_solver.
      + set_solver. }
  destruct Hstep as (H1 & H2 & H3 & H4).
  destruct (IH _ H1 H2) as (K1 & K2 & K3 & K4).
  split; [done|]. split; [done|]. split; [set_solver|].
  intros e' [->|He']%elem_of_cons; [by apply K3|by apply K4].
Qed.

End Containers.

(** X17.  The process chunks, and the sub-process chunks, of a document
    have pairwise distinct component ids and chunk ids, and every
    process and sub-process element is represented: a chunk carries its
    id, or the word [process] or [subprocess] when the element has no
    id.  Elements that share an id, or that have none, share one
    chunk. *)
Theorem container_chunks_once_per_id
    (lib : Library) (embedding_generator : option (string → string → string))
    (root : Xml.node) (iflow_file : Fs.path) :
  (NoDup (List.map component_id
            (_extract_processes lib embedding_generator root iflow_file)) ∧
   NoDup (List.map id (_extract_processes lib embedding_generator root iflow_file)) ∧
   ∀ e, e ∈ xpath_tag (Xml.xpath_all root) "bpmn2" "process" →
        Some (Str.or_default (Xml.get (Xml.nd e) "id") "process")
        ∈ List.map component_id
            (_extract_processes lib embedding_generator root iflow_file)) ∧
  (NoDup (List.map component_id
            (_extract_subprocesses lib embedding_generator root iflow_file)) ∧
   NoDup (List.map id (_extract_subprocesses lib embedding_generator root iflow_file)) ∧
   ∀ e, e ∈ xpath_tag (Xml.xpath_all root) "bpmn2" "subProcess" →
        Some (Str.or_default (Xml.get (Xml.nd e) "id") "subprocess")
        ∈ List.map component_id
            (_extract_subprocesses lib embedding_generator root iflow_file)).
Proof.
  assert (Hgen : ∀ mk fallback l,
            (∀ i n, component_id (mk i n) = Some i ∧ id (mk i n) = chunk_id iflow_file i) →
            NoDup (List.map component_id
                     (fold_left (container_step mk fallback) l ([], ∅)).1) ∧
            NoDup (List.map id (fold_left (container_step mk fallback) l ([], ∅)).1) ∧
            ∀ e, e ∈ l →
                 Some (Str.or_default (Xml.get (Xml.nd e) "id") fallback)
                 ∈ List.map component_id
                     (fold_left (container_step mk fallback) l ([], ∅)).1).
  { intros mk fallback l Hmk.
    destruct (container_fold_spec mk fallback l ([], ∅)) as (H1 & H2 & _ & H4).
    - intros i n. apply Hmk.
    - constructor.
    - intros i. simpl. split; [by intros ?%elem_of_nil|by intros ?%elem_of_empty].
    - split; [done|]. split; [|intros e He; by apply H2, H4].
      assert (Hids : List.map (fun c => Some (id c))
                       (fold_left (container_step mk fallback) l ([], ∅)).1
                     = List.map (fun c => chunk_id iflow_file <$> component_id c)
                         (fold_left (container_step mk fallback) l ([], ∅)).1).
      { apply map_ext_in. intros c Hc%list_elem_of_In.
        apply container_fold_elem in Hc as (i & n & ->).
        destruct (Hmk i n) as [-> ->]. done. }
      rewrite <- (map_map id Some), <- (map_map component_id (fmap (chunk_id iflow_file)))
        in Hids.
      apply (NoDup_fmap_1 Some). change (Some <$> ?l) with (List.map Some l).
      rewrite Hids. apply map_inj_NoDup; [|done].
      intros [x|] [y|] Heq; simpl in Heq; try done.
      injection Heq as Heq. apply chunk_id_inj in Heq. by subst. }
  split; apply Hgen; by intros i n.
Qed.

(** ** The script index during the second pass *)

Section Backfill.

Context {case_mapping : Str.CaseMapping}.

Variable lib : Library.
Variable listing : list (Fs.path * Fs.file).
Variable all_files : all_files_t.

Lemma related_all_invariant (I : chunker * list Fs.path → Prop)
    (cats : list category) (st : chunker * list Fs.path) :
  I st →
  (∀ st file_type p,
     file_type ≠ main_iflow → p ∈ all_files file_type → I st →
     I (related_step lib listing file_type st p)) →
  I (fold_left
       (fun st file_type =>
          if decide (file_type = main_iflow) then st
          else fold_left (related_step lib listing file_type) (all_files file_type) st)
       cats st).
Proof.
  intros H0 Hstep. revert st H0.
  induction cats as [|ft cats IH]; intros st H0; simpl; [done|].
  apply IH. destruct (decide (ft = main_iflow)); [done|].
  assert (H : ∀ files st', (∀ p, p ∈ files → p ∈ all_files ft) → I st' →
            I (fold_left (related_step lib listing ft) files st')).
  { induction files as [|p files IHf]; intros st' Hsub Hst; simpl; [done|].
    apply IHf; [intros q Hq; apply Hsub; by apply list_elem_of_further|].
    apply Hstep; [done|apply Hsub, list_elem_of_here|done]. }
  by apply H.
Qed.

Lemma update_entry (c : chunk) (name rel : string)
    (idx : gmap string script_entry) (key : string) (e : script_entry) :
  _update_script_index_with_chunk c
    (_index_script_file name rel (Some (id c)) idx) !! key = Some e →
  se_chunk_id e = Some (id c) ∨ idx !! key = Some e.
Proof.
  unfold _update_script_index_with_chunk, _index_script_file. cbv zeta.
  cbn [fold_left]. intros H.
  apply lookup_alter_Some in H as [(_ & e1 & H & ->)|[_ H]]; [by left|].
  apply lookup_alter_Some in H as [(_ & e1 & H & ->)|[_ H]]; [by left|].
  apply lookup_insert_Some in H as [[_ <-]|[_ H]]; [by left|by right].
Qed.

Lemma update_filled (c : chunk) (name rel : string)
    (idx : gmap string script_entry) (key : string) :
  (key = Str.lower name ∨
   ∃ e i, idx !! key = Some e ∧ se_chunk_id e = Some i) →
  ∃ e i, _update_script_index_with_chunk c
           (_index_script_file name rel (Some (id c)) idx) !! key = Some e ∧
         se_chunk_id e = Some i.
Proof.
  unfold _update_script_index_with_chunk, _index_script_file. cbv zeta.
  cbn [fold_left]. intros H.
  assert (H0 : ∃ e i, <[Str.lower name := ScriptEntry rel (Some (id c))]> idx !! key
                      = Some e ∧ se_chunk_id e = Some i).
  { destruct (decide (Str.lower name = key)) as [<-|Hne].
    - rewrite lookup_insert_eq. by do 2 eexists.
    - rewrite lookup_insert_ne by done. destruct H as [->|H]; done. }
  clear H.
  assert (Halter : ∀ k (m : gmap string script_entry),
            (∃ e i, m !! key = Some e ∧ se_chunk_id e = Some i) →
            ∃ e i, alter (fun e => ScriptEntry (se_file_name e) (Some (id c))) k m
                     !! key = Some e ∧ se_chunk_id e = Some i).
  { intros k m (e & i & He & Hi). destruct (decide (k = key)) as [->|Hne].
    - rewrite lookup_alter_eq, He. simpl. by do 2 eexists.
    - rewrite lookup_alter_ne by done. by exists e, i. }
  by apply Halter, Halter.
Qed.

Lemma update_dom (c : chunk) (name rel : string) (idx : gmap string script_entry) :
  dom (_update_script_index_with_chunk c
         (_index_script_file name rel (Some (id c)) idx))
  = {[Str.lower name]} ∪ dom idx.
Proof.
  unfold _update_script_index_with_chunk, _index_script_file. cbv zeta.
  cbn [fold_left]. by rewrite !dom_alter_L, dom_insert_L.
Qed.

Lemma backfill_invariant (cats : list category) (self : chunker) :
  (∀ p c, p ∈ all_files c → p ∈ all_files groovy_scripts → c = groovy_scripts) →
  (∀ p, p ∈ all_files groovy_scripts →
        Str.lower (Fs.p_name p) ∈ dom (self_script_index self)) →
  (∀ key e, self_script_index self !! key = Some e → se_chunk_id e = None) →
  let st' :=
    fold_left
      (fun st file_type =>
         if decide (file_type = main_iflow) then st
         else fold_left (related_step lib listing file_type) (all_files file_type) st)
      cats (self, []) in
  dom (self_script_index st'.1) = dom (self_script_index self) ∧
  (∀ key e i, self_script_index st'.1 !! key = Some e → se_chunk_id e = Some i →
              ∃ c, c ∈ self_chunks st'.1 ∧ id c = i ∧
                   file_type c = "groovy_scripts") ∧
  (∀ p, p ∈ st'.2 → p ∈ all_files groovy_scripts →
        ∃ e i, self_script_index st'.1 !! Str.lower (Fs.p_name p) = Some e ∧
               se_chunk_id e = Some i).
Proof.
  intros Huniq Hdom Hnone.
  apply (related_all_invariant
           (fun st =>
              dom (self_script_index st.1) = dom (self_script_index self) ∧
              (∀ key e i, self_script_index st.1 !! key = Some e →
                          se_chunk_id e = Some i →
                          ∃ c, c ∈ self_chunks st.1 ∧ id c = i ∧
                               file_type c = "groovy_scripts") ∧
              (∀ p, p ∈ st.2 → p ∈ all_files groovy_scripts →
                    ∃ e i, self_script_index st.1 !! Str.lower (Fs.p_name p) = Some e ∧
                           se_chunk_id e = Some i))).
  - split; [done|]. split.
    + intros key e i He Hi. rewrite (Hnone key e He) in Hi. done.
    + by intros p ?%elem_of_nil.
  - intros st ft p Hft Hp (I1 & I2 & I3). unfold related_step.
    destruct (_process_related_file lib listing p ft) as [c|] eqn:Hc; [|done].
    cbn [fst snd self_chunks self_script_index].
    destruct (decide (ft = groovy_scripts)) as [->|Hng].
    + assert (Hft' : file_type c = "groovy_scripts").
      { by destruct (related_chunk_kind lib listing (groovy_scripts, p) c Hc)
          as [-> _]. }
      split; [|split].
      * rewrite update_dom, I1. specialize (Hdom p Hp). set_solver.
      * intros key e i He Hi. apply update_entry in He as [He|He].
        -- exists c. split; [apply elem_of_app; right; apply list_elem_of_here|].
           split; [congruence|done].
        -- destruct (I2 key e i He Hi) as (c' & Hc' & Hid & Hty).
           exists c'. split; [apply elem_of_app; by left|done].
      * intros q [Hq|Hq]%elem_of_app Hg; apply update_filled.
        -- right. by apply I3.
        -- apply list_elem_of_singleton in Hq as ->. by left.
    + split; [done|]. split.
      * intros key e i He Hi. destruct (I2 key e i He Hi) as (c' & Hc' & Hid & Hty).
        exists c'. split; [apply elem_of_app; by left|done].
      * intros q [Hq|Hq]%elem_of_app Hg; [by apply I3|].
        apply list_elem_of_singleton in Hq as ->.
        by destruct (Hng (Huniq p ft Hp Hg)).
Qed.

End Backfill.

(** X18.  The script index after a run.  Processing the script files
    adds no key to the index that [_build_script_index] made, in which no
    entry has a chunk id.  Afterwards the entry under the lower-case name
    of every script that was processed has a chunk id, and every chunk
    id in the index is the id of a chunk of the run made from a script
    file. *)
Theorem script_index_after_the_run
    {case_mapping : Str.CaseMapping}
    (lib : Library) (embedding_generator : option (string → string → string))
    (base : string) (pkg : Fs.dir) :
  Fs.distinct_names pkg = true →
  dom (self_script_index (run lib embedding_generator base pkg))
  = dom (_build_script_index (_discover_all_files (Fs.walk base [] pkg)) ∅) ∧
  (∀ key e,
     _build_script_index (_discover_all_files (Fs.walk base [] pkg)) ∅ !! key = Some e →
     se_chunk_id e = None) ∧
  (∀ p, p ∈ _discover_all_files (Fs.walk base [] pkg) groovy_scripts →
        p ∈ self_processed_files (run lib embedding_generator base pkg) →
        ∃ e i, self_script_index (run lib embedding_generator base pkg)
                 !! Str.lower (Fs.p_name p) = Some e ∧
               se_chunk_id e = Some i) ∧
  (∀ key e i,
     self_script_index (run lib embedding_generator base pkg) !! key = Some e →
     se_chunk_id e = Some i →
     ∃ c, c ∈ chunks (process_complete_iflow_package lib embedding_generator base pkg) ∧
          id c = i ∧ file_type c = "groovy_scripts").
Proof.
  intros Hd. pose proof (walk_NoDup base pkg Hd []) as Hnd.
  set (listing := Fs.walk base [] pkg) in *.
  set (A := _discover_all_files listing).
  assert (Hnone : ∀ key e, _build_script_index A ∅ !! key = Some e →
                           se_chunk_id e = None).
  { intros key e He. unfold _build_script_index in He.
    apply build_index_entries in He as [He|[Hn _]]; [by rewrite lookup_empty in He|done]. }
  assert (Hproc : ∀ p, p ∈ A groovy_scripts →
            p ∈ self_processed_files (run lib embedding_generator base pkg) →
            p ∈ (_process_all_related_files lib listing A
                   match _find_main_iflow A with
                   | Some main =>
                       {| self_chunks :=
                            _process_main_iflow_with_components lib embedding_generator
                              listing (_build_script_index A ∅) main;
                          self_processed_files := [main];
                          self_script_index := _build_script_index A ∅ |}
                   | None =>
                       {| self_chunks := [];
                          self_processed_files := [];
                          self_script_index := _build_script_index A ∅ |}
                   end).2).
  { intros p Hp Hin. rewrite run_processed in Hin. fold listing A in Hin.
    apply elem_of_app in Hin as [Hin|Hin].
    - destruct (_find_main_iflow A) as [main|] eqn:Hm; simpl in Hin;
        [|by apply elem_of_nil in Hin].
      apply list_elem_of_singleton in Hin.
      by destruct (main_not_auxiliary listing main p groovy_scripts Hnd Hm).
    - unfold _process_all_related_files.
      match goal with
      | |- _ ∈ (fold_left _ _ (?s, [])).2 =>
          destruct (related_all_fold lib listing A all_categories (s, []))
            as (_ & _ & ->)
      end.
      done. }
  unfold process_complete_iflow_package. cbn [chunks].
  unfold run. fold listing. fold A. cbv zeta.
  cbn [self_script_index self_chunks self_processed_files].
  unfold _process_all_related_files in Hproc |- *.
  match goal with
  | |- context [fold_left ?f all_categories (?s, [])] =>
      destruct (backfill_invariant lib listing A all_categories s)
        as (I1 & I2 & I3)
  end.
  - intros p c Hp Hg. by apply (category_unique listing p c groovy_scripts Hnd).
  - intros p Hp. apply elem_of_dom.
    assert (Hk : is_Some (_build_script_index A ∅ !! Str.lower (Fs.p_name p))).
    { apply build_index_dom. exists p. split; [done|by left]. }
    by destruct (_find_main_iflow A).
  - intros key e He. apply (Hnone key e). by destruct (_find_main_iflow A).
  - split; [|split; [done|split]].
    + rewrite I1. by destruct (_find_main_iflow A).
    + intros p Hp Hin. apply I3; [|done]. by apply Hproc.
    + exact I2.
Qed.

Lemma script_index_after_the_run_witness :
  dom (self_script_index (run Sample.lib None "/tmp/pkg" Sample.pkg_ok))
  = dom (_build_script_index
           (_discover_all_files (Fs.walk "/tmp/pkg" [] Sample.pkg_ok)) ∅) ∧
  (∀ key e,
     _build_script_index (_discover_all_files (Fs.walk "/tmp/pkg" [] Sample.pkg_ok)) ∅
       !! key = Some e →
     se_chunk_id e = None) ∧
  (∀ p, p ∈ _discover_all_files (Fs.walk "/tmp/pkg" [] Sample.pkg_ok) groovy_scripts →
        p ∈ self_processed_files (run Sample.lib None "/tmp/pkg" Sample.pkg_ok) →
        ∃ e i, self_script_index (run Sample.lib None "/tmp/pkg" Sample.pkg_ok)
                 !! Str.lower (Fs.p_name p) = Some e ∧
               se_chunk_id e = Some i) ∧
  (∀ key e i,
     self_script_index (run Sample.lib None "/tmp/pkg" Sample.pkg_ok) !! key = Some e →
     se_chunk_id e = Some i →
     ∃ c, c ∈ chunks (process_complete_iflow_package Sample.lib None "/tmp/pkg"
                        Sample.pkg_ok) ∧
          id c = i ∧ file_type c = "groovy_scripts").
Proof.
  apply (script_index_after_the_run Sample.lib None "/tmp/pkg" Sample.pkg_ok).
  reflexivity.
Defined.

(** ** The layout of formatted markup *)

Section Formatting.

Context {case_mapping : Str.CaseMapping}.

Lemma format_step_blank (st : list string * nat) (x : string) :
  Layout.blank x = true → format_step st x = st.
Proof. unfold Layout.blank, format_step. by intros ->. Qed.

Lemma format_step_flat (acc : list string) (n : nat) (x : string) :
  Layout.flat x = true →
  format_step (acc, n) x = (acc ++ [Layout.indented n x], n).
Proof.
  unfold Layout.flat, Layout.closes, Layout.opens, Layout.blank, format_step,
    Layout.indented.
  cbn [fst snd].
  destruct (Str.truthy (Str.strip x)), (Str.startswith "</" x),
    (Str.startswith "<" x), (Str.endswith "/>" x), (Str.startswith "<?" x),
    (Str.startswith "<!" x); cbn [negb andb orb]; done.
Qed.

Lemma format_step_opens (acc : list string) (n : nat) (x : string) :
  Layout.opens x = true →
  format_step (acc, n) x = (acc ++ [Layout.indented n x], S n).
Proof.
  unfold Layout.opens, Layout.blank, format_step, Layout.indented. cbn [fst snd].
  destruct (Str.truthy (Str.strip x)), (Str.startswith "</" x),
    (Str.startswith "<" x), (Str.endswith "/>" x), (Str.startswith "<?" x),
    (Str.startswith "<!" x); cbn [negb andb orb]; done.
Qed.

Lemma format_step_closes (acc : list string) (n : nat) (x : string) :
  Layout.closes x = true →
  format_step (acc, S n) x = (acc ++ [Layout.indented n x], n).
Proof.
  unfold Layout.closes, Layout.blank, format_step, Layout.indented. cbn [fst snd].
  change (S n - 1) with (n - 0). rewrite Nat.sub_0_r. cbn [Nat.max].
  destruct (Str.truthy (Str.strip x)), (Str.startswith "</" x);
    cbn [negb andb orb]; done.
Qed.

Lemma layout_fold (level : nat) (l lines : list string) :
  Layout.layout level l lines →
  ∀ acc, fold_left format_step l (acc, level) = (acc ++ lines, level).
Proof.
  induction 1 as [level|level x l lines Hx _ IH|level x l lines Hx _ IH
                 |level o c inner rest li lr Ho Hc _ IHi _ IHr]; intros acc.
  - simpl. by rewrite app_nil_r.
  - simpl. rewrite format_step_blank by done. apply IH.
  - simpl. rewrite format_step_flat by done. rewrite IH.
    by rewrite <- app_assoc.
  - simpl. rewrite format_step_opens by done.
    rewrite fold_left_app, IHi. simpl.
    rewrite format_step_closes by done. rewrite IHr.
    f_equal. by rewrite <- !app_assoc.
Qed.

End Formatting.

(** X19.  [_format_xml_with_indentation] prints pieces in which every
    opening tag has its closing tag as an indented tree: blank pieces
    are dropped, text, empty-element tags and declarations stand at the
    level of their surroundings, and an element is its opening tag and
    its closing tag at the same level with its content between them four
    spaces deeper; after such pieces the level is what it was. *)
Theorem well_nested_markup_is_indented_as_a_tree
    (lib : Library) (xml_content : string) (lines : list string) :
  Str.truthy xml_content = true →
  Layout.layout 0 (re_split lib "(<[^>]+>)" xml_content) lines →
  _format_xml_with_indentation lib xml_content = Str.join Str.newline lines ∧
  ∀ level pieces printed acc,
    Layout.layout level pieces printed →
    fold_left format_step pieces (acc, level) = (acc ++ printed, level).
Proof.
  intros Ht Hl. split.
  - unfold _format_xml_with_indentation. rewrite Ht. simpl.
    by rewrite (layout_fold 0 _ lines Hl []).
  - intros level pieces printed acc H. by apply layout_fold.
Qed.

Lemma well_nested_markup_is_indented_as_a_tree_witness :
  _format_xml_with_indentation Sample.lib_pieces "<a><b/>x</a>"
  = Str.join Str.newline ["<a>"; "    <b/>"; "    x"; "</a>"] ∧
  ∀ level pieces printed acc,
    Layout.layout level pieces printed →
    fold_left format_step pieces (acc, level) = (acc ++ printed, level).
Proof.
  apply (well_nested_markup_is_indented_as_a_tree Sample.lib_pieces
           "<a><b/>x</a>" ["<a>"; "    <b/>"; "    x"; "</a>"]).
  - reflexivity.
  - change (re_split Sample.lib_pieces "(<[^>]+>)" "<a><b/>x</a>")
      with ("" :: "<a>" :: ["" ; "<b/>"; "x"] ++ "</a>" :: [""]).
    apply Layout.layout_blank; [reflexivity|].
    apply (Layout.layout_element 0 "<a>" "</a>" [""; "<b/>"; "x"] [""]
             ["    <b/>"; "    x"] []); [reflexivity|reflexivity| |].
    + apply Layout.layout_blank; [reflexivity|].
      apply (Layout.layout_flat 1 "<b/>"); [reflexivity|].
      apply (Layout.layout_flat 1 "x"); [reflexivity|].
      apply Layout.layout_nil.
    + apply Layout.layout_blank; [reflexivity|]. apply Layout.layout_nil.
Defined.

Section TwoFormatters.

Context {case_mapping : Str.CaseMapping}.

Lemma format_steps_agree (st : list string * nat) (x : string) :
  Layout.declaration x = false →
  Generator.format_step st x = format_step st x.
Proof.
  unfold Layout.declaration, Layout.blank, Generator.format_step, format_step.
  destruct (Str.truthy (Str.strip x)), (Str.startswith "</" x),
    (Str.startswith "<" x), (Str.endswith "/>" x), (Str.startswith "<?" x),
    (Str.startswith "<!" x); cbn [negb andb orb]; done.
Qed.

Lemma format_step_declaration (acc : list string) (n : nat) (x : string) :
  Layout.declaration x = true →
  Generator.format_step (acc, n) x = (acc ++ [Layout.indented n x], S n) ∧
  format_step (acc, n) x = (acc ++ [Layout.indented n x], n).
Proof.
  unfold Layout.declaration, Layout.blank, Generator.format_step, format_step,
    Layout.indented.
  cbn [fst snd].
  destruct (Str.truthy (Str.strip x)), (Str.startswith "</" x),
    (Str.startswith "<" x), (Str.endswith "/>" x), (Str.startswith "<?" x),
    (Str.startswith "<!" x); cbn [negb andb orb]; done.
Qed.

End TwoFormatters.

(** X20.  The formatter of the description generator and the formatter
    of the chunker differ on declarations only: on pieces none of which
    is an opening declaration or processing instruction they print the
    same lines, and after such a piece the generator's formatter is one
    level deeper than the chunker's, which keeps its level. *)
Theorem formatters_differ_on_declarations_only
    (lib : Library) (xml_content : string) :
  Forall (fun x => Layout.declaration x = false)
    (re_split lib "(<[^>]+>)" xml_content) →
  Generator.format_xml_with_indentation lib xml_content
  = _format_xml_with_indentation lib xml_content ∧
  ∀ acc level x,
    Layout.declaration x = true →
    Generator.format_step (acc, level) x = (acc ++ [Layout.indented level x], S level) ∧
    format_step (acc, level) x = (acc ++ [Layout.indented level x], level).
Proof.
  intros Hall. split; [|intros acc level x; apply format_step_declaration].
  unfold Generator.format_xml_with_indentation, _format_xml_with_indentation.
  destruct (negb (Str.truthy xml_content)); [done|]. do 2 f_equal.
  generalize (@nil string, 0).
  induction Hall as [|x l Hx _ IH]; intros st; simpl; [done|].
  by rewrite format_steps_agree, IH.
Qed.

Lemma formatters_differ_on_declarations_only_witness :
  Generator.format_xml_with_indentation Sample.lib_pieces "<a><b/>x</a>"
  = _format_xml_with_indentation Sample.lib_pieces "<a><b/>x</a>" ∧
  ∀ acc level x,
    Layout.declaration x = true →
    Generator.format_step (acc, level) x = (acc ++ [Layout.indented level x], S level) ∧
    format_step (acc, level) x = (acc ++ [Layout.indented level x], level).
Proof.
  apply (formatters_differ_on_declarations_only Sample.lib_pieces "<a><b/>x</a>").
  repeat constructor.
Defined.

Section StoredComponents.

Context {case_mapping : Str.CaseMapping}.

Variable lib : Library.
Variable embedding_generator : option (string → string → string).

Lemma second_piece_component_type (ty : string) :
  ty ∈ component_types → Xml.second_piece (Xml.clark MODEL ty) = ty.
Proof.
  unfold component_types. intros H.
  repeat (apply elem_of_cons in H as [->|H]; [reflexivity|]).
  by apply elem_of_nil in H.
Qed.

Lemma component_type_classified (c : chunk) (ty : string) :
  ty ∈ component_types → file_type c = "bpmn" → component_type c = Some ty →
  Processor.classify_chunk_type c = "component".
Proof.
  unfold component_types, Processor.classify_chunk_type.
  intros H -> ->. simpl default.
  repeat (apply elem_of_cons in H as [->|H]; [lower_literals; reflexivity|]).
  by apply elem_of_nil in H.
Qed.

End StoredComponents.

(** X21.  What [process_components] takes from a document.  Every
    process and sub-process chunk is classified as a component.  A
    component chunk is the chunk of one of the component ids of the
    document; its component type is read off the tag of the main element
    [_extract_component_elements] finds for that id, and when that tag
    is one of the seventeen component tags the component type is its
    local name and the chunk is classified as a component.  Such chunks
    have no [content], so the markup stored for them is their
    [complete_bpmn_xml]. *)
Theorem components_are_stored_as_components
    {case_mapping : Str.CaseMapping}
    (lib : Library) (embedding_generator : option (string → string → string))
    (index : gmap string script_entry) (root : Xml.node) (iflow_file : Fs.path)
    (c : chunk) :
  (c ∈ _extract_processes lib embedding_generator root iflow_file ++
       _extract_subprocesses lib embedding_generator root iflow_file →
   Processor.classify_chunk_type c = "component" ∧
   complete_bpmn_xml c = Some (Processor.component_content c)) ∧
  (c ∈ component_chunks lib index root iflow_file →
   complete_bpmn_xml c = Some (Processor.component_content c) ∧
   ∃ cid ce main,
     cid ∈ _extract_all_component_ids root ∧
     component_id c = Some cid ∧
     _extract_component_elements lib cid root = Some ce ∧
     main_component ce = Some main ∧
     component_type c = Some (Xml.second_piece (Xml.tag (Xml.nd main))) ∧
     ∀ ty, ty ∈ component_types →
           Xml.tag (Xml.nd main) = Xml.clark MODEL ty →
           component_type c = Some ty ∧
           Processor.classify_chunk_type c = "component").
Proof.
  split.
  - intros [Hc|Hc]%elem_of_app;
      apply container_fold_elem in Hc as (i & n & ->);
      (split; [classify_known|done]).
  - intros (cid & Hcid & Hc)%component_chunks_elem.
    assert (Hxml : complete_bpmn_xml c = Some (Processor.component_content c) ∧
                   file_type c = "bpmn" ∧ component_id c = Some cid).
    { unfold _create_component_chunk in Hc. bind_inv Hc. bind_inv Hc.
      destruct (negb (Xml.truthy (Xml.nd _))); [done|].
      bind_inv Hc. bind_inv Hc. injection Hc as <-. by split. }
    destruct Hxml as (Hxml & Hft & Hid). split; [done|].
    apply create_component_chunk_parts
      in Hc as (ce & main & d & Hce & Hmain & _ & _ & _ & _ & _ & Hty).
    exists cid, ce, main. do 4 (split; [done|]). split; [done|].
    intros ty Hin Htag. unfold _get_component_type in Hty.
    rewrite Htag, (second_piece_component_type ty Hin) in Hty.
    split; [done|]. by apply (component_type_classified c ty).
Qed.

(** ** Flows and ownership *)

Section FlowsTwice.

Context {case_mapping : Str.CaseMapping}.

Variable lib : Library.

Lemma collect_all {A B : Type} (f : A → option B) (l : list A) :
  Forall (fun x => is_Some (f x)) l → collect_until_error f l = omap f l.
Proof.
  induction 1 as [|x l [y Hy] _ IH]; [done|].
  rewrite omap_cons_app. cbn [collect_until_error]. rewrite Hy, IH. done.
Qed.

Lemma omap_all_map {A B C : Type} (f : A → option B) (g : B → C) (h : A → C)
    (l : list A) :
  (∀ x, x ∈ l → ∃ y, f x = Some y ∧ g y = h x) →
  List.map g (omap f l) = List.map h l.
Proof.
  induction l as [|x l IH]; intros H; [done|].
  rewrite omap_cons_app.
  destruct (H x (list_elem_of_here _ _)) as (y & -> & Hy).
  change (List.map g (y :: omap f l) = h x :: List.map h l).
  cbn [List.map]. rewrite Hy, IH; [done|]. intros x' Hx'. apply H. by apply list_elem_of_further.
Qed.

Lemma xpath_where_quote_free (root : Xml.node) (head : string)
    (sel : Xml.node → bool) (attr value : string) :
  Str.contains Str.dquote value = false →
  is_Some (xpath_where lib root head sel attr value).
Proof. unfold xpath_where. intros ->. by eexists. Qed.

Lemma sequence_flow_chunk_Some (root : Xml.node) (iflow_file : Fs.path)
    (flow : Xml.elem) :
  Str.contains Str.dquote
    (Str.or_default (Xml.get (Xml.nd flow) "id") "sequenceFlow") = false →
  ∃ c, sequence_flow_chunk lib root iflow_file flow = Some c ∧
       component_id c
       = Some (Str.or_default (Xml.get (Xml.nd flow) "id") "sequenceFlow").
Proof.
  intros Hq. unfold sequence_flow_chunk. cbv zeta.
  destruct (xpath_where_quote_free root "//bpmndi:BPMNEdge"
              (Xml.has_tag (qname "bpmndi" "BPMNEdge")) "bpmnElement" _ Hq)
    as [edges ->].
  cbn [mbind option_bind]. by eexists.
Qed.

Lemma message_flow_chunk_Some (root : Xml.node) (iflow_file : Fs.path)
    (flow : Xml.elem) :
  Str.contains Str.dquote
    (Str.or_default (Xml.get (Xml.nd flow) "id") "messageFlow") = false →
  ∃ c, message_flow_chunk lib root iflow_file flow = Some c ∧
       component_id c
       = Some (Str.or_default (Xml.get (Xml.nd flow) "id") "messageFlow").
Proof.
  intros Hq. unfold message_flow_chunk. cbv zeta.
  destruct (xpath_where_quote_free root "//bpmndi:BPMNEdge"
              (Xml.has_tag (qname "bpmndi" "BPMNEdge")) "bpmnElement" _ Hq)
    as [edges ->].
  cbn [mbind option_bind]. by eexists.
Qed.

Lemma collected_twice {A : Type} (f : A → option chunk) (g : A → option string)
    (l : list A) :
  (∀ x, x ∈ l → ∃ c, f x = Some c ∧ component_id c = g x) →
  ∃ once, collect_until_error f (l ++ l) = once ++ once ∧
          List.map component_id once = List.map g l.
Proof.
  intros H. exists (omap f l). split.
  - rewrite collect_all, omap_app; [done|].
    apply Forall_forall. intros x [Hx|Hx]%elem_of_app;
      destruct (H x Hx) as (c & -> & _); by eexists.
  - by apply omap_all_map.
Qed.

End FlowsTwice.

(** X22.  Every flow is chunked twice.  When no sequence-flow id holds
    a double quote, the chunks of [_extract_sequence_flows] are one chunk
    per sequence-flow element of the document, in document order,
    followed by the same chunks once more; and so it is for the message
    flows. *)
Theorem every_flow_is_chunked_twice
    (lib : Library) (root : Xml.node) (iflow_file : Fs.path) :
  (Forall
     (fun e => Str.contains Str.dquote
                 (Str.or_default (Xml.get (Xml.nd e) "id") "sequenceFlow") = false)
     (sequence_flow_elements root) →
   ∃ once,
     _extract_sequence_flows lib root iflow_file = once ++ once ∧
     List.map component_id once
     = List.map (fun e => Some (Str.or_default (Xml.get (Xml.nd e) "id") "sequenceFlow"))
         (sequence_flow_elements root)) ∧
  (Forall
     (fun e => Str.contains Str.dquote
                 (Str.or_default (Xml.get (Xml.nd e) "id") "messageFlow") = false)
     (xpath_tag (Xml.xpath_all root) "bpmn2" "messageFlow") →
   ∃ once,
     _extract_message_flows lib root iflow_file = once ++ once ∧
     List.map component_id once
     = List.map (fun e => Some (Str.or_default (Xml.get (Xml.nd e) "id") "messageFlow"))
         (xpath_tag (Xml.xpath_all root) "bpmn2" "messageFlow")).
Proof.
  split; intros Hall; rewrite Forall_forall in Hall.
  - rewrite sequence_flows_visited_twice. apply collected_twice.
    intros flow Hflow. by apply sequence_flow_chunk_Some, Hall.
  - unfold _extract_message_flows, model_aliases. cbn [List.flat_map].
    rewrite app_nil_r.
    change (xpath_tag (Xml.xpath_all root) "bpmn" "messageFlow")
      with (xpath_tag (Xml.xpath_all root) "bpmn2" "messageFlow").
    apply collected_twice.
    intros flow Hflow. by apply message_flow_chunk_Some, Hall.
Qed.

Lemma every_flow_is_chunked_twice_witness :
  (∃ once,
     _extract_sequence_flows Sample.lib Sample.doc_pool Sample.flow_file
     = once ++ once ∧
     List.map component_id once
     = List.map (fun e => Some (Str.or_default (Xml.get (Xml.nd e) "id") "sequenceFlow"))
         (sequence_flow_elements Sample.doc_pool)) ∧
  (∃ once,
     _extract_message_flows Sample.lib Sample.doc_two_flows Sample.flow_file
     = once ++ once ∧
     List.map component_id once
     = List.map (fun e => Some (Str.or_default (Xml.get (Xml.nd e) "id") "messageFlow"))
         (xpath_tag (Xml.xpath_all Sample.doc_two_flows) "bpmn2" "messageFlow")).
Proof.
  split.
  - apply (proj1 (every_flow_is_chunked_twice Sample.lib Sample.doc_pool
                    Sample.flow_file)).
    vm_compute. repeat constructor.
  - apply (proj2 (every_flow_is_chunked_twice Sample.lib Sample.doc_two_flows
                    Sample.flow_file)).
    vm_compute. repeat constructor.
Defined.

Section Nearest.

Context {case_mapping : Str.CaseMapping}.

Lemma owning_process_nearest (root : Xml.node) (rev_loc : list nat) (pid : string) :
  Xml.find_owning_process_id root rev_loc = Some pid →
  ∃ skipped up n,
    rev_loc = skipped ++ up ∧ skipped ≠ [] ∧
    Xml.subtree root (List.rev up) = Some n ∧
    Xml.local_name (Xml.tag n) = "process" ∧
    Xml.get n "id" = Some pid ∧
    ∀ s1 s2 n',
      skipped = s1 ++ s2 → s1 ≠ [] → s2 ≠ [] →
      Xml.subtree root (List.rev (s2 ++ up)) = Some n' →
      Xml.local_name (Xml.tag n') ≠ "process".
Proof.
  induction rev_loc as [|i up IH]; simpl; [done|].
  destruct (Xml.subtree root (List.rev up)) as [parent|] eqn:Hparent; [|done].
  destruct (String.eqb_spec (Xml.local_name (Xml.tag parent)) "process") as [Hp|Hp].
  - intros Hid. exists [i], up, parent. repeat split; try done.
    intros s1 s2 n' Hs H1 H2. destruct s1 as [|x s1]; [done|].
    injection Hs as _ Hs. by destruct s1, s2.
  - intros (skipped & up' & n & -> & Hne & Hn & Hproc & Hid & Hmid)%IH.
    exists (i :: skipped), up', n. repeat split; try done.
    intros s1 s2 n' Hs H1 H2 Hsub. destruct s1 as [|x s1]; [done|].
    injection Hs as _ Hs. destruct s1 as [|y s1].
    + simpl in Hs. subst s2. rewrite Hparent in Hsub. by injection Hsub as <-.
    + by apply (Hmid (y :: s1) s2 n').
Qed.

End Nearest.

(** X23.  The owning process of an element is its nearest enclosing
    process: when [_find_owning_process_id] returns an id, the id is
    that of an ancestor whose local name is [process], and no ancestor
    between that one and the element is a process. *)
Theorem owning_process_is_the_nearest (root : Xml.node) (element : Xml.elem)
    (pid : string) :
  _find_owning_process_id root element = Some pid →
  ∃ ancestor below n,
    Xml.loc element = ancestor ++ below ∧ below ≠ [] ∧
    Xml.subtree root ancestor = Some n ∧
    Xml.local_name (Xml.tag n) = "process" ∧
    Xml.get n "id" = Some pid ∧
    ∀ mid rest n',
      below = mid ++ rest → mid ≠ [] → rest ≠ [] →
      Xml.subtree root (ancestor ++ mid) = Some n' →
      Xml.local_name (Xml.tag n') ≠ "process".
Proof.
  unfold _find_owning_process_id.
  intros (skipped & up & n & Hrev & Hne & Hn & Hproc & Hid & Hmid)%owning_process_nearest.
  exists (List.rev up), (List.rev skipped), n.
  split; [by rewrite <- rev_app_distr, <- Hrev, rev_involutive|].
  split; [by destruct skipped using rev_ind; [|rewrite rev_app_distr]|].
  repeat split; try done.
  intros mid rest n' Hbelow Hmid' Hrest Hsub.
  apply (Hmid (List.rev rest) (List.rev mid) n').
  - by rewrite <- rev_app_distr, <- Hbelow, rev_involutive.
  - by destruct rest using rev_ind; [|rewrite rev_app_distr].
  - by destruct mid using rev_ind; [|rewrite rev_app_distr].
  - by rewrite rev_app_distr, rev_involutive.
Qed.

Lemma owning_process_is_the_nearest_witness :
  ∃ ancestor below n,
    Xml.loc (Xml.Elem [1; 0; 0] (Sample.el (Sample.bpmn "outgoing") [] []))
    = ancestor ++ below ∧ below ≠ [] ∧
    Xml.subtree Sample.doc_pool ancestor = Some n ∧
    Xml.local_name (Xml.tag n) = "process" ∧
    Xml.get n "id" = Some "P1" ∧
    ∀ mid rest n',
      below = mid ++ rest → mid ≠ [] → rest ≠ [] →
      Xml.subtree Sample.doc_pool (ancestor ++ mid) = Some n' →
      Xml.local_name (Xml.tag n') ≠ "process".
Proof.
  apply (owning_process_is_the_nearest Sample.doc_pool
           (Xml.Elem [1; 0; 0] (Sample.el (Sample.bpmn "outgoing") [] [])) "P1").
  reflexivity.
Defined.

(** ** The activity type of a stored component *)

Section ActivityType.

Context {case_mapping : Str.CaseMapping}.

Variable lib : Library.

Lemma append_split (a b c d : string) :
  a +:+ b = c +:+ d →
  (∃ m, a = c +:+ m ∧ d = m +:+ b) ∨ (∃ m, c = a +:+ m ∧ b = m +:+ d).
Proof.
  revert c. induction a as [|x a IH]; intros c H.
  - right. exists c. split; [reflexivity|exact H].
  - destruct c as [|y c].
    + left. exists (String x a). split; [reflexivity|]. symmetry. exact H.
    + rewrite !append_cons in H. injection H as -> H.
      destruct (IH c H) as [(m & -> & ->)|(m & -> & ->)]; [left|right];
        exists m; by rewrite ?append_cons.
Qed.

Lemma after_prefix_spec (p s r : string) :
  Processor.after_prefix p s = Some r ↔ s = p +:+ r.
Proof.
  revert s. induction p as [|a p IH]; intros s; simpl.
  - split; [by intros [= ->]|]. intros H. f_equal. exact H.
  - destruct s as [|b s].
    { split; [done|]. intros H. rewrite append_cons in H. discriminate. }
    destruct (Ascii.eqb_spec a b) as [->|Hne].
    + rewrite IH, append_cons. split; [by intros ->|]. by intros [= ->].
    + split; [done|]. rewrite append_cons. by intros [= ? _].
Qed.

Lemma search_eq (s : string) :
  Processor.search_activity_type s
  = match
      match Processor.after_prefix "activityType=" s with
      | Some rest =>
          if Str.truthy (Processor.word_prefix rest)
          then Some (Processor.word_prefix rest) else None
      | None => None
      end
    with
    | Some w => Some w
    | None =>
        match s with
        | "" => None
        | String _ s' => Processor.search_activity_type s'
        end
    end.
Proof. by destruct s. Qed.

Lemma literal_has_no_space (k m : string) :
  "activityType=" = k +:+ " " +:+ m → False.
Proof.
  intros H. assert (Hc : Str.contains " " "activityType=" = true).
  { apply contains_spec. by exists k, m. }
  by vm_compute in Hc.
Qed.

Lemma contains_cons_false (p : string) (c : ascii) (s : string) :
  Str.contains p (String c s) = false → Str.contains p s = false.
Proof.
  cbn [Str.contains]. by destruct (Str.startswith p (String c s)).
Qed.

Lemma search_past (P Q : string) :
  Str.contains "activityType=" P = false →
  P = "" ∨ Str.endswith " " P = true →
  Processor.search_activity_type (P +:+ Q) = Processor.search_activity_type Q.
Proof.
  induction P as [|c P IH]; intros Hno Hend; [done|].
  rewrite search_eq, append_cons.
  destruct (Processor.after_prefix "activityType=" (String c (P +:+ Q)))
    as [rest|] eqn:Hhere.
  - exfalso. apply after_prefix_spec in Hhere. rewrite <- append_cons in Hhere.
    apply append_split in Hhere as [(m & HP & _)|(m & Hlit & _)].
    + assert (Str.contains "activityType=" (String c P) = true); [|congruence].
      apply contains_spec. exists "", m. exact HP.
    + destruct Hend as [?|Hend]; [done|].
      apply endswith_spec in Hend as [u Hu]. rewrite Hu in Hlit.
      rewrite append_assoc in Hlit. by apply literal_has_no_space in Hlit.
  - apply IH; [by eapply contains_cons_false|].
    destruct Hend as [?|Hend]; [done|]. cbn [Str.endswith] in Hend.
    destruct (String.eqb_spec (String c P) " ") as [[= _ ->]|_]; [by left|by right].
Qed.

Lemma contains_with (head : string) :
  Str.contains "activityType=" head = false →
  Str.contains "activityType=" (head +:+ " with ") = false.
Proof.
  intros Hno. destruct (Str.contains "activityType=" (head +:+ " with ")) eqn:Hc;
    [|done].
  exfalso. apply contains_spec in Hc as (u & v & Hc).
  rewrite <- append_assoc in Hc.
  apply append_split in Hc as [(m & Hhead & _)|(m & Hul & Hwith)].
  - assert (Str.contains "activityType=" head = true); [|congruence].
    apply contains_spec. exists u, m. by rewrite <- append_assoc.
  - symmetry in Hul. apply append_split in Hul as [(k & Hhead & Hlit)|(k & Hu & Hm)].
    + destruct m as [|x m].
      * rewrite append_nil_r in Hlit.
        assert (Str.contains "activityType=" head = true); [|congruence].
        apply contains_spec. exists u, "". rewrite append_nil_r. by rewrite Hlit.
      * rewrite append_cons in Hwith. injection Hwith as <- _.
        exact (literal_has_no_space k m Hlit).
    + assert (Hc : Str.contains "activityType=" " with " = true).
      { apply contains_spec. exists k, v. by rewrite Hwith, Hm, append_assoc. }
      by vm_compute in Hc.
Qed.

Lemma word_prefix_app (a tail : string) :
  Processor.word_prefix a = a →
  tail = "" ∨ Str.startswith " " tail = true →
  Processor.word_prefix (a +:+ tail) = a.
Proof.
  induction a as [|c a IH]; intros Ha Ht.
  - destruct Ht as [->|Ht]; [done|]. destruct tail as [|x tail]; [done|].
    cbn [Str.startswith] in Ht.
    destruct (Ascii.eqb_spec " " x) as [<-|]; [reflexivity|discriminate].
  - rewrite append_cons. simpl in *. destruct (Processor.is_word c); [|done].
    injection Ha as Ha. by rewrite IH.
Qed.

Lemma search_found (a tail : string) :
  Str.truthy a = true →
  Processor.word_prefix (a +:+ tail) = a →
  Processor.search_activity_type ("activityType=" +:+ a +:+ tail) = Some a.
Proof.
  intros Ht Hw. rewrite search_eq.
  assert (H : Processor.after_prefix "activityType=" ("activityType=" +:+ a +:+ tail)
              = Some (a +:+ tail)) by by apply after_prefix_spec.
  by rewrite H, Hw, Ht.
Qed.

(** The values of a property map are not empty. *)
Lemma harvest_values (nodes : list Xml.node) (d d' : Dict.t) :
  fold_opt harvest nodes d = Some d' →
  (∀ k v, Dict.get k d = Some v → Str.truthy v = true) →
  ∀ k v, Dict.get k d' = Some v → Str.truthy v = true.
Proof.
  revert d. induction nodes as [|n nodes IH]; intros d H Hd; simpl in H.
  { by injection H as <-. }
  destruct (harvest d n) as [d1|] eqn:Hn; [|done].
  apply (IH d1 H). unfold harvest in Hn.
  destruct (property_pair n) as [[[key value]|]|] eqn:Hp; [| |done].
  - injection Hn as <-. intros k v. rewrite dict_get_set.
    destruct (String.eqb key k); [|by apply Hd]. intros [= <-].
    unfold property_pair in Hp. destruct n as [t a tx tl cs|]; [|done].
    destruct (is_property_tag t); [|done].
    destruct (scan_subchildren cs None None) as [[[ke|] [ve|]]|]; try done.
    destruct (Str.truthy (text_or_empty ke)); [|done]. simpl in Hp.
    destruct (Str.truthy (text_or_empty ve)) eqn:Hv; [|done].
    by injection Hp as _ <-.
  - by injection Hn as <-.
Qed.

Lemma description_structure (main : Xml.node) (desc : string) (d : Dict.t)
    (a : string) :
  _generate_component_description lib main = Some desc →
  _extract_component_properties main = Some d →
  Dict.get "activityType" d = Some a →
  ∃ head tail,
    desc = head +:+ " with activityType=" +:+ a +:+ tail ∧
    (tail = "" ∨ Str.startswith " " tail = true).
Proof.
  unfold _generate_component_description. cbv zeta. intros Hdesc Hd Ha.
  rewrite Hd in Hdesc. cbn [mbind option_bind] in Hdesc. rewrite Ha in Hdesc.
  match type of Hdesc with
  | context [["with activityType=" +:+ a] ++ ?V] =>
      assert (HV : V = [] ∨ ∃ y, V = [y]); [|revert Hdesc HV; generalize V]
  end.
  { destruct (Dict.get "cmdVariantUri" d) as [variant|]; [|by left].
    repeat match goal with
           | |- context [if ?b then _ else _] => destruct b
           end; eauto. }
  intros V Hdesc HV. revert Hdesc.
  set (title := str_title lib _).
  set (name := "'" +:+ Xml.get_or_empty main "name" +:+ "'").
  destruct (Str.truthy (Xml.get_or_empty main "name"));
    destruct HV as [->|[y ->]]; cbn [app Str.join]; intros [= <-].
  - exists (title +:+ " " +:+ name), "". split; [|by left].
    by rewrite !append_assoc, append_nil_r.
  - exists (title +:+ " " +:+ name), (" " +:+ y). split; [|by right].
    by rewrite !append_assoc.
  - exists title, "". split; [|by left]. by rewrite append_nil_r.
  - exists title, (" " +:+ y). split; [|by right]. by rewrite !append_assoc.
Qed.

End ActivityType.

(** X24.  The activity type survives the way through the description.
    The description of a component chunk whose properties have the key
    [activityType] with value [a] reads [... with activityType=a],
    followed by nothing or by a blank and a remark.  When [a] consists of
    letters, digits and underscores and the text before does not itself
    hold [activityType=], the activity type [process_components] reads
    off the description is [a]. *)
Theorem activity_type_round_trip
    {case_mapping : Str.CaseMapping}
    (lib : Library) (index : gmap string script_entry) (cid : string)
    (root : Xml.node) (iflow_file : Fs.path) (c : chunk) (d : Dict.t) (a : string) :
  _create_component_chunk lib index cid root iflow_file = Some c →
  properties c = Some d →
  Dict.get "activityType" d = Some a →
  ∃ head tail,
    description c = head +:+ " with activityType=" +:+ a +:+ tail ∧
    (tail = "" ∨ Str.startswith " " tail = true) ∧
    (Str.contains "activityType=" head = false →
     Processor.word_prefix a = a →
     Processor.extract_activity_type_from_description (description c) = a ∧
     Processor.component_activity_type c = a).
Proof.
  intros Hc Hprops Ha.
  assert (Hparts : ∃ main,
            _generate_component_description lib (Xml.nd main) = Some (description c) ∧
            _extract_component_properties (Xml.nd main) = Some d).
  { unfold _create_component_chunk in Hc. bind_inv Hc. bind_inv Hc.
    destruct (negb (Xml.truthy (Xml.nd _))); [done|].
    bind_inv Hc. bind_inv Hc. injection Hc as <-. simpl in Hprops.
    injection Hprops as <-. eauto. }
  destruct Hparts as (main & Hdesc & Hd).
  destruct (description_structure lib (Xml.nd main) _ d a Hdesc Hd Ha)
    as (head & tail & Heq & Htail).
  exists head, tail. split; [done|]. split; [done|]. intros Hhead Hword.
  assert (Ht : Str.truthy a = true).
  { apply (harvest_values (Xml.iter (Xml.nd main)) [] d Hd) with (k := "activityType");
      [|done]. by intros k v. }
  assert (Hex : Processor.extract_activity_type_from_description (description c) = a).
  { unfold Processor.extract_activity_type_from_description. rewrite Heq.
    assert (Hsplit : head +:+ " with activityType=" +:+ a +:+ tail
                     = (head +:+ " with ") +:+ "activityType=" +:+ a +:+ tail)
      by by rewrite append_assoc.
    rewrite Hsplit, search_past.
    - rewrite search_found; [|done|by apply word_prefix_app].
      by destruct (head +:+ " with ") as [|x s].
    - by apply contains_with.
    - right. apply endswith_spec. exists (head +:+ " with"). by rewrite append_assoc.
  }
  split; [done|]. unfold Processor.component_activity_type. cbv zeta.
  by rewrite Hex, Ht.
Qed.

Lemma activity_type_round_trip_witness :
  ∃ c, Sample.activity_chunk = Some c ∧
  ∃ head tail,
    description c = head +:+ " with activityType=" +:+ "Script" +:+ tail ∧
    (tail = "" ∨ Str.startswith " " tail = true) ∧
    (Str.contains "activityType=" head = false →
     Processor.word_prefix "Script" = "Script" →
     Processor.extract_activity_type_from_description (description c) = "Script" ∧
     Processor.component_activity_type c = "Script").
Proof.
  eexists. split; [reflexivity|].
  eapply (activity_type_round_trip Sample.lib ∅ "T1" Sample.doc_activity
            Sample.flow_file).
  - vm_compute. reflexivity.
  - reflexivity.
  - reflexivity.
Defined.
